(** * Daily Scheduler (app.py): a shallow embedding and its properties

    The development follows the layout of [app.py]:
    - [PyDate]: the calendar dates the program computes with
      ([datetime.date], [timedelta], [strftime("%A")], [str(date)]);
    - [Frame]: the tables ([pandas.DataFrame]) the helpers pass around,
      and the fields they are written from and read into;
    - [Http]: the requests to the content store, as computations that
      can be run against any store;
    - [Regex]: the backtracking matcher behind [re.search];
    - [Scheduler]: the helpers of [app.py] themselves and the delete
      step of its page.

    What belongs to pandas, dateparser and the transport is a parameter
    of the functions that call it: the date conversions and the dates a
    timestamp can hold, the missing-value markers, the layout of CSV
    text, base64, and whether the body of a response is JSON. *)

From Stdlib Require Import ZArith List ListDec String Ascii Bool Lia.
Import ListNotations.
Open Scope string_scope.
Open Scope list_scope.
Open Scope Z_scope.

(* ------------------------------------------------------------------ *)
(** ** Calendar dates *)
(* ------------------------------------------------------------------ *)

Module PyDate.

(** A [datetime.date] stores its year, month and day. *)
Record date := mkdate { year : Z; month : Z; day : Z }.

Definition date_eqb (a b : date) : bool :=
  (year a =? year b) && (month a =? month b) && (day a =? day b).

Definition MINYEAR : Z := 1.
Definition MAXYEAR : Z := 9999.
(** [date(9999, 12, 31).toordinal()] *)
Definition MAXORDINAL : Z := 3652059.

Definition is_leap (y : Z) : bool :=
  (y mod 4 =? 0) && (negb (y mod 100 =? 0) || (y mod 400 =? 0)).

(** [_DAYS_IN_MONTH], index 1..12 *)
Definition DAYS_IN_MONTH (m : Z) : Z :=
  match m with
  | 1 => 31 | 2 => 28 | 3 => 31 | 4 => 30 | 5 => 31 | 6 => 30
  | 7 => 31 | 8 => 31 | 9 => 30 | 10 => 31 | 11 => 30 | 12 => 31
  | _ => -1
  end.

(** [_DAYS_BEFORE_MONTH], index 1..12 *)
Definition DAYS_BEFORE_MONTH (m : Z) : Z :=
  match m with
  | 1 => 0 | 2 => 31 | 3 => 59 | 4 => 90 | 5 => 120 | 6 => 151
  | 7 => 181 | 8 => 212 | 9 => 243 | 10 => 273 | 11 => 304 | 12 => 334
  | _ => -1
  end.

Definition days_in_month (y m : Z) : Z :=
  if (m =? 2) && is_leap y then 29 else DAYS_IN_MONTH m.

Definition days_before_year (y : Z) : Z :=
  let y' := y - 1 in y' * 365 + y' / 4 - y' / 100 + y' / 400.

Definition days_before_month (y m : Z) : Z :=
  DAYS_BEFORE_MONTH m + (if (2 <? m) && is_leap y then 1 else 0).

Definition ymd2ord (y m d : Z) : Z :=
  days_before_year y + days_before_month y m + d.

Definition DI400Y : Z := 146097.
Definition DI100Y : Z := 36524.
Definition DI4Y : Z := 1461.

(** The tail of [_ord2ymd]: month and day of the [n]-th day (from 0) of a
    year, estimated by [(n + 50) >> 5] and corrected when too large. *)
Definition month_day (n : Z) (leapyear : bool) : Z * Z :=
  let m := Z.shiftr (n + 50) 5 in
  let preceding :=
    DAYS_BEFORE_MONTH m + (if (2 <? m) && leapyear then 1 else 0) in
  if n <? preceding then
    let m' := m - 1 in
    let preceding' :=
      preceding
      - (DAYS_IN_MONTH m' + (if (m' =? 2) && leapyear then 1 else 0)) in
    (m', n - preceding' + 1)
  else (m, n - preceding + 1).

(** [_ord2ymd]: the date with proleptic Gregorian ordinal [n]. *)
Definition ord2ymd (n0 : Z) : date :=
  let n := n0 - 1 in
  let n400 := n / DI400Y in
  let n := n mod DI400Y in
  let y := n400 * 400 + 1 in
  let n100 := n / DI100Y in
  let n := n mod DI100Y in
  let n4 := n / DI4Y in
  let n := n mod DI4Y in
  let n1 := n / 365 in
  let n := n mod 365 in
  let y := y + n100 * 100 + n4 * 4 + n1 in
  if (n1 =? 4) || (n100 =? 4) then mkdate (y - 1) 12 31
  else
    let leapyear := (n1 =? 3) && (negb (n4 =? 24) || (n100 =? 3)) in
    let (m, dd) := month_day n leapyear in
    mkdate y m dd.

(** The dates a [datetime.date] can hold. *)
Definition valid (d : date) : bool :=
  (MINYEAR <=? year d) && (year d <=? MAXYEAR)
  && (1 <=? month d) && (month d <=? 12)
  && (1 <=? day d) && (day d <=? days_in_month (year d) (month d)).

Definition toordinal (d : date) : Z := ymd2ord (year d) (month d) (day d).
Definition fromordinal (n : Z) : date := ord2ymd n.

(** [date + timedelta(days=k)]: [None] stands for the [OverflowError]
    ("date value out of range") Python raises outside 0001-01-01..9999-12-31. *)
Definition add_days (d : date) (k : Z) : option date :=
  let o := toordinal d + k in
  if (0 <? o) && (o <=? MAXORDINAL) then Some (fromordinal o) else None.

(** [date.weekday()]: Monday is 0. *)
Definition weekday (d : date) : Z := (toordinal d + 6) mod 7.

(** [strftime("%A")] *)
Definition day_name (d : date) : string :=
  match weekday d with
  | 0 => "Monday" | 1 => "Tuesday" | 2 => "Wednesday" | 3 => "Thursday"
  | 4 => "Friday" | 5 => "Saturday" | _ => "Sunday"
  end.

Definition digit (n : Z) : ascii := ascii_of_nat (48 + Z.to_nat (n mod 10)).

Definition pad2 (n : Z) : string :=
  String (digit (n / 10)) (String (digit n) EmptyString).

Definition pad4 (n : Z) : string :=
  String (digit (n / 1000)) (String (digit (n / 100)) (pad2 n)).

(** [str(d)], i.e. [d.isoformat()]: ["%04d-%02d-%02d"]. *)
Definition isoformat (d : date) : string :=
  (pad4 (year d) ++ "-" ++ pad2 (month d) ++ "-" ++ pad2 (day d))%string.

End PyDate.

(* ------------------------------------------------------------------ *)
(** ** Tables *)
(* ------------------------------------------------------------------ *)

Module Frame.
Import PyDate.

(** What a cell of a table holds in [app.py]: text, a date object, or one
    of pandas' three nulls. *)
Inductive cell :=
| NA                 (* pd.NA *)
| NaN                (* float nan: the missing value of read_csv, strftime of NaT *)
| NaT                (* the missing date *)
| Str (s : string)
| Date (d : date).

(** [pd.isna] *)
Definition isna (c : cell) : bool :=
  match c with NA | NaN | NaT => true | _ => false end.

(** A DataFrame: the column labels in order, and the rows in order; a
    row holds one cell per column. *)
Record DataFrame := mkDF { columns : list string; data : list (list cell) }.

Definition wf (df : DataFrame) : Prop :=
  Forall (fun r => List.length r = List.length (columns df)) (data df).

Definition has_column (c : string) (df : DataFrame) : bool :=
  existsb (String.eqb c) (columns df).

(** The cells of [row] that sit under a column labelled [c]. *)
Fixpoint pick (c : string) (cols : list string) (row : list cell) : list cell :=
  match cols, row with
  | k :: cols', x :: row' =>
      if String.eqb k c then x :: pick c cols' row' else pick c cols' row'
  | _, _ => []
  end.

(** [row[c]]: the cell of [row] under the column labelled [c] (read as
    [pd.NA] when the frame has no such column). *)
Definition cell_of (c : string) (cols : list string) (row : list cell) : cell :=
  match pick c cols row with
  | x :: _ => x
  | [] => NA
  end.

(** [df[mask]] for a mask computed row by row. *)
Definition filter_rows (mask : list string -> list cell -> bool) (df : DataFrame)
  : DataFrame :=
  mkDF (columns df) (filter (mask (columns df)) (data df)).

(** [df.loc[:, mask]]: keep the columns whose label satisfies [keep]. *)
Fixpoint keep_cells {A} (keep : string -> bool) (cols : list string) (row : list A)
  : list A :=
  match cols, row with
  | k :: cols', x :: row' =>
      if keep k then x :: keep_cells keep cols' row' else keep_cells keep cols' row'
  | _, _ => []
  end.

Definition loc_columns (keep : string -> bool) (df : DataFrame) : DataFrame :=
  mkDF (filter keep (columns df)) (map (keep_cells keep (columns df)) (data df)).

(** [df.drop(columns=[c])] *)
Definition drop_column (c : string) (df : DataFrame) : DataFrame :=
  loc_columns (fun k => negb (String.eqb k c)) df.

(** [df[c] = v] for a label [c] the frame does not have: a new last column. *)
Definition add_column (c : string) (v : cell) (df : DataFrame) : DataFrame :=
  mkDF (columns df ++ [c]) (map (fun r => r ++ [v]) (data df)).

(** [df[names]]: the columns labelled by [names], in that order; [None]
    is the [KeyError] for a label the frame does not have. *)
Definition getitem_list (names : list string) (df : DataFrame) : option DataFrame :=
  if forallb (fun c => has_column c df) names then
    Some (mkDF (flat_map (fun c => filter (String.eqb c) (columns df)) names)
               (map (fun r => flat_map (fun c => pick c (columns df) r) names)
                    (data df)))
  else None.

(** [df[c]] as a Series: defined when exactly one column is labelled [c]
    (a missing label is a [KeyError]; a repeated one gives a frame, not a
    Series). *)
Definition getitem (c : string) (df : DataFrame) : option (list cell) :=
  match filter (String.eqb c) (columns df) with
  | [_] => Some (flat_map (pick c (columns df)) (data df))
  | _ => None
  end.

Fixpoint set_cells (c : string) (v : cell) (cols : list string) (row : list cell)
  : list cell :=
  match cols, row with
  | k :: cols', x :: row' =>
      (if String.eqb k c then v else x) :: set_cells c v cols' row'
  | _, _ => row
  end.

(** [df[c] = series] for a label the frame has. *)
Fixpoint set_rows (c : string) (vals : list cell) (cols : list string)
  (rows : list (list cell)) : list (list cell) :=
  match rows, vals with
  | r :: rows', v :: vals' => set_cells c v cols r :: set_rows c vals' cols rows'
  | _, _ => rows
  end.

Definition setitem (c : string) (vals : list cell) (df : DataFrame) : DataFrame :=
  mkDF (columns df) (set_rows c vals (columns df) (data df)).

(** [str(x)] of a cell, as an f-string or [str] renders it. *)
Definition str_of_cell (c : cell) : string :=
  match c with
  | Str s => s
  | Date d => isoformat d
  | NA => "<NA>"
  | NaN => "nan"
  | NaT => "NaT"
  end.

(** A grid of fields: the header and, record by record, the fields.
    It is what [to_csv(index=False)] hands to its writer, and what the
    tokenizer of [read_csv] hands over.  The CSV text lies in between:
    pandas lays it out (separators, quotes, line ends) and pandas splits
    it, and the fields written need not be the fields read. *)
Record Grid := mkGrid { header : list string; records : list (list string) }.

(** [to_csv] writes a null as the empty field ([na_rep=""]). *)
Definition to_csv_field (c : cell) : string :=
  if isna c then "" else str_of_cell c.

(** The fields [to_csv(index=False)] writes for a frame. *)
Definition to_grid (df : DataFrame) : Grid :=
  mkGrid (columns df) (map (map to_csv_field) (data df)).

(** The fields [read_csv] takes for missing values unless told otherwise. *)
Definition STR_NA_VALUES : list string :=
  [""; "#N/A"; "#N/A N/A"; "#NA"; "-1.#IND"; "-1.#QNAN"; "-NaN"; "-nan";
   "1.#IND"; "1.#QNAN"; "<NA>"; "N/A"; "NA"; "NULL"; "NaN"; "None"; "n/a";
   "nan"; "null"].

Definition default_na (f : string) : bool := existsb (String.eqb f) STR_NA_VALUES.

(** The frame [read_csv(., dtype=str)] makes of the fields it has split
    the text into: every field is text, or nan when [na_value] takes it
    for a missing value. *)
Definition of_grid (na_value : string -> bool) (g : Grid) : DataFrame :=
  mkDF (header g)
       (map (map (fun f => if na_value f then NaN else Str f)) (records g)).

Section Csv.

(** The CSV text pandas' writer lays a grid of fields out in, and the
    grid pandas' tokenizer splits a text into, [None] standing for the
    exception it raises on a text it cannot split (an empty text, a
    record with too many fields). *)
Variable csv_text : Grid -> string.
Variable csv_fields : string -> option Grid.
Variable na_value : string -> bool.

(** [df.to_csv(index=False)] *)
Definition to_csv (df : DataFrame) : string := csv_text (to_grid df).

(** [pd.read_csv(StringIO(raw), dtype=str)]; [None] is its exception. *)
Definition read_csv (raw : string) : option DataFrame :=
  match csv_fields raw with
  | Some g => Some (of_grid na_value g)
  | None => None
  end.

End Csv.

(** The cell of [row] under [c] after a reindex: nan where the frame has
    no such column. *)
Definition reindexed (c : string) (cols : list string) (row : list cell) : cell :=
  match pick c cols row with
  | x :: _ => x
  | [] => NaN
  end.

Definition distinct (cols : list string) : bool :=
  if ListDec.NoDup_dec string_dec cols then true else false.

(** [pd.concat([a, b], ignore_index=True)]: the rows of [a], then the
    rows of [b].  Frames with the same labels are stacked as they are;
    otherwise the labels of [b] that [a] lacks are added after those of
    [a], the missing cells are nan, and [None] is the error pandas raises
    when it has to realign a frame that has a label twice. *)
Definition concat (a b : DataFrame) : option DataFrame :=
  if list_eq_dec string_dec (columns a) (columns b) then
    Some (mkDF (columns a) (data a ++ data b))
  else if distinct (columns a) && distinct (columns b) then
    let cols := columns a ++ filter (fun c => negb (has_column c a)) (columns b) in
    Some (mkDF cols
               (map (fun r => map (fun c => reindexed c (columns a) r) cols) (data a)
                ++ map (fun r => map (fun c => reindexed c (columns b) r) cols) (data b)))
  else None.

End Frame.

(* ------------------------------------------------------------------ *)
(** ** Requests to the content store *)
(* ------------------------------------------------------------------ *)

Module Http.

(** A Python dict with string keys, in insertion order; a value [None]
    is Python's [None] (a JSON null). *)
Definition dict := list (string * option string).

Fixpoint dict_find (k : string) (d : dict) : option (option string) :=
  match d with
  | [] => None
  | (k', v) :: d' => if String.eqb k' k then Some v else dict_find k d'
  end.

(** [d.get(k)] and [d.get(k, default)] *)
Definition dict_get (k : string) (d : dict) : option string :=
  match dict_find k d with Some v => v | None => None end.

Definition dict_get_default (k default : string) (d : dict) : option string :=
  match dict_find k d with Some v => v | None => Some default end.

(** What the program reads of a response: [r.status_code], [r.json()]
    and [r.text].  The body of a response need not be JSON: [json] is
    [None] when it is not a JSON object, where [r.json()], or the [.get]
    on what it returns, raises. *)
Record Response := mkResponse { status_code : Z; json : option dict; text : string }.

Inductive Request :=
| GET (url : string) (headers : list (string * string))
| PUT (url : string) (payload : list (string * string)) (headers : list (string * string)).

(** A computation that talks to the store: it returns, raises, or sends
    a request and goes on with the response. *)
Inductive io (A : Type) : Type :=
| Ret (a : A)
| Raise
| Call (rq : Request) (k : Response -> io A).

Arguments Ret {A} a.
Arguments Raise {A}.
Arguments Call {A} rq k.

Fixpoint bind {A B} (m : io A) (f : A -> io B) : io B :=
  match m with
  | Ret a => f a
  | Raise => Raise
  | Call rq k => Call rq (fun r => bind (k r) f)
  end.

(** Running a computation against a store in state [s]: the result
    ([None] if it raised), the state of the store afterwards and the
    requests it received, in order. *)
Fixpoint run {A S} (serve : Request -> S -> Response * S) (m : io A) (s : S)
  : option A * S * list Request :=
  match m with
  | Ret a => (Some a, s, [])
  | Raise => (None, s, [])
  | Call rq k =>
      let (r, s1) := serve rq s in
      let '(a, s2, log) := run serve (k r) s1 in
      (a, s2, rq :: log)
  end.

End Http.

Notation "x <- m ;; k" := (Http.bind m (fun x => k))
  (at level 61, m at next level, right associativity).

(* ------------------------------------------------------------------ *)
(** ** Regular expressions *)
(* ------------------------------------------------------------------ *)

(** The part of Python's [re] that [parse_event] uses, as a backtracking
    matcher: alternatives are tried in Python's order (a greedy repeat
    takes more first, a lazy one less first, an optional group is entered
    first), and the first success is the match.  Text is a string of code
    points below 256. *)
Module Regex.

(** [\s] on code points below 256. *)
Definition is_space (c : ascii) : bool :=
  let n := nat_of_ascii c in
  ((9 <=? n) && (n <=? 13) || (28 <=? n) && (n <=? 32)
   || (n =? 133) || (n =? 160))%nat.

Definition newline : ascii := ascii_of_nat 10.

(** [.] matches everything but a newline. *)
Definition is_dot (c : ascii) : bool := negb (Ascii.eqb c newline).

(** ASCII lower case, for [re.IGNORECASE]. *)
Definition lower_ascii (c : ascii) : ascii :=
  let n := nat_of_ascii c in
  if (65 <=? n)%nat && (n <=? 90)%nat then ascii_of_nat (n + 32) else c.

Inductive regex :=
| Chr (p : ascii -> bool)          (* one character of a class *)
| Seq (r1 r2 : regex)
| Plus (p : ascii -> bool)         (* [p+], greedy *)
| PlusLazy (p : ascii -> bool)     (* [p+?] *)
| Opt (r : regex)                  (* [(?:r)?], greedy *)
| Group (n : nat) (r : regex)      (* capture group [n] *)
| Eos.                             (* [$] *)

(** The groups captured so far, the latest first. *)
Definition captures := list (nat * list ascii).

Fixpoint group (n : nat) (caps : captures) : option (list ascii) :=
  match caps with
  | [] => None
  | (m, w) :: caps' => if Nat.eqb m n then Some w else group n caps'
  end.

Section Matcher.

Context {R : Type}.

(** [p+] from [s]: [k] gets what is left. *)
Fixpoint plus_greedy (p : ascii -> bool) (k : list ascii -> option R) (s : list ascii)
  : option R :=
  match s with
  | c :: s' =>
      if p c then
        match plus_greedy p k s' with
        | Some x => Some x
        | None => k s'
        end
      else None
  | [] => None
  end.

Fixpoint plus_lazy (p : ascii -> bool) (k : list ascii -> option R) (s : list ascii)
  : option R :=
  match s with
  | c :: s' =>
      if p c then
        match k s' with
        | Some x => Some x
        | None => plus_lazy p k s'
        end
      else None
  | [] => None
  end.

(** Match [r] at the start of [s] and go on with [k]. *)
Fixpoint exec (r : regex) (s : list ascii) (caps : captures)
  (k : list ascii -> captures -> option R) : option R :=
  match r with
  | Chr p =>
      match s with
      | c :: s' => if p c then k s' caps else None
      | [] => None
      end
  | Seq r1 r2 => exec r1 s caps (fun s' caps' => exec r2 s' caps' k)
  | Plus p => plus_greedy p (fun s' => k s' caps) s
  | PlusLazy p => plus_lazy p (fun s' => k s' caps) s
  | Opt r' =>
      match exec r' s caps k with
      | Some x => Some x
      | None => k s caps
      end
  | Group n r' =>
      exec r' s caps (fun s' caps' =>
        k s' ((n, firstn (List.length s - List.length s') s) :: caps'))
  | Eos =>
      match s with
      | [] => k s caps
      | [c] => if Ascii.eqb c newline then k s caps else None
      | _ => None
      end
  end.

End Matcher.

(** [re.search]: the match at the leftmost position that has one. *)
Fixpoint search (r : regex) (s : list ascii) : option captures :=
  match exec r s [] (fun _ caps => Some caps) with
  | Some caps => Some caps
  | None =>
      match s with
      | [] => None
      | _ :: s' => search r s'
      end
  end.

(** A letter under [re.IGNORECASE], and a word of letters. *)
Definition letter (c : ascii) : regex := Chr (fun x => Ascii.eqb (lower_ascii x) c).

Fixpoint word (w : list ascii) (r : regex) : regex :=
  match w with
  | [] => r
  | c :: w' => Seq (letter c) (word w' r)
  end.

(** [str.strip()] *)
Fixpoint lstrip (s : list ascii) : list ascii :=
  match s with
  | c :: s' => if is_space c then lstrip s' else s
  | [] => []
  end.

Definition strip (s : list ascii) : list ascii := rev (lstrip (rev (lstrip s))).

(** What it is for [r] to match the text [w] when [rest] follows,
    taking the captures from [caps] to [caps']. *)
Inductive matches : regex -> list ascii -> list ascii -> captures -> captures -> Prop :=
| m_chr p c rest caps :
    p c = true -> matches (Chr p) [c] rest caps caps
| m_seq r1 r2 w1 w2 rest caps caps1 caps2 :
    matches r1 w1 (w2 ++ rest) caps caps1 ->
    matches r2 w2 rest caps1 caps2 ->
    matches (Seq r1 r2) (w1 ++ w2) rest caps caps2
| m_plus p w rest caps :
    w <> [] -> forallb p w = true -> matches (Plus p) w rest caps caps
| m_plus_lazy p w rest caps :
    w <> [] -> forallb p w = true -> matches (PlusLazy p) w rest caps caps
| m_opt_in r w rest caps caps' :
    matches r w rest caps caps' -> matches (Opt r) w rest caps caps'
| m_opt_out r rest caps :
    matches (Opt r) [] rest caps caps
| m_group n r w rest caps caps' :
    matches r w rest caps caps' -> matches (Group n r) w rest caps ((n, w) :: caps')
| m_eos rest caps :
    rest = [] \/ rest = [newline] -> matches Eos [] rest caps caps.

End Regex.

(* ------------------------------------------------------------------ *)
(** ** app.py *)
(* ------------------------------------------------------------------ *)

Module Scheduler.
Import PyDate Frame Http Regex.

Definition REPO : string := "DivKumR/Mypersonal_SchedulerApp".
Definition PATH : string := "schedule.csv".
Definition API_URL : string :=
  ("https://api.github.com/repos/" ++ REPO ++ "/contents/" ++ PATH)%string.

Definition COLUMNS : list string := ["Date"; "Weekday"; "Name"; "Activity"; "Time"].

(** [range(n)] *)
Definition range (n : Z) : list Z := map Z.of_nat (seq 0 (Z.to_nat n)).

(** The date of occurrence [i]; [None] when the addition overflows. *)
Definition new_date (date : PyDate.date) (recurrence : string) (i : Z)
  : option PyDate.date :=
  if String.eqb recurrence "Daily" then add_days date i
  else if String.eqb recurrence "Weekly" then add_days date (7 * i)
  else Some date.

(** What a call gives that may return [None]: it returns, or it raises. *)
Inductive result (A : Type) : Type :=
| Returned (a : A)
| Raised.

Arguments Returned {A} a.
Arguments Raised {A}.

Section Timestamps.

(** [pd.to_datetime(d)] of a date object, without [errors="coerce"],
    raises [OutOfBoundsDatetime] for a date its timestamps cannot hold.
    Which dates they hold is pandas' business and depends on the pandas
    installed (the repository pins none): [in_bounds] tells. *)
Variable in_bounds : PyDate.date -> bool.

(** [pd.to_datetime(d).strftime("%A")]; [None] is the exception. *)
Definition weekday_name (d : PyDate.date) : option string :=
  if in_bounds d then Some (day_name d) else None.

(** The row [[new_date, pd.to_datetime(new_date).strftime("%A"), name,
    activity, time]]. *)
Definition event_row (nd : PyDate.date) (name activity time : string)
  : option (list cell) :=
  match weekday_name nd with
  | Some weekday => Some [Date nd; Str weekday; Str name; Str activity; Str time]
  | None => None
  end.

Fixpoint expand_loop (date : PyDate.date) (name activity time recurrence : string)
  (idx : list Z) (rows : list (list cell)) : option (list (list cell)) :=
  match idx with
  | [] => Some rows
  | i :: idx' =>
      match new_date date recurrence i with
      | None => None
      | Some nd =>
          match event_row nd name activity time with
          | None => None
          | Some row =>
              expand_loop date name activity time recurrence idx' (rows ++ [row])
          end
      end
  end.

(** [expand_recurring_events]; [None] is an exception: the overflow of
    a date, or a date out of the bounds of a timestamp. *)
Definition expand_recurring_events (date : PyDate.date) (name activity time recurrence : string)
  (repeat_count : Z) : option DataFrame :=
  match expand_loop date name activity time recurrence (range repeat_count) [] with
  | Some rows => Some (mkDF COLUMNS rows)
  | None => None
  end.

End Timestamps.

(** [str.lower], on ASCII text. *)
Fixpoint lower (s : string) : string :=
  match s with
  | EmptyString => EmptyString
  | String c s' => String (lower_ascii c) (lower s')
  end.

(** [df.columns.str.lower().str.contains("^unnamed")] on one label. *)
Definition is_unnamed (c : string) : bool := String.prefix "unnamed" (lower c).

(** [.dt.date] and [.dt.strftime("%A")] on one converted cell. *)
Definition dt_date (t : option PyDate.date) : cell :=
  match t with Some d => Date d | None => NaT end.

Definition dt_strftime_A (t : option PyDate.date) : cell :=
  match t with Some d => Str (day_name d) | None => NaN end.

(** [if col not in df.columns: df[col] = pd.NA] *)
Definition ensure_column (df : DataFrame) (col : string) : DataFrame :=
  if has_column col df then df else add_column col NA df.

Section Sanitize.

(** [pd.to_datetime(., errors="coerce")] on one cell: the date it stands
    for, or [None] for [NaT].  The parser is pandas' own. *)
Variable to_datetime : cell -> option PyDate.date.

(** [sanitize_remote_df]; [None] stands for a raised exception. *)
Definition sanitize_remote_df (df : option DataFrame) : option DataFrame :=
  match df with
  | None => Some (mkDF COLUMNS [])
  | Some df =>
      let df := loc_columns (fun c => negb (is_unnamed c)) df in
      let df := fold_left ensure_column COLUMNS df in
      match getitem_list COLUMNS df with
      | None => None
      | Some df =>
          match getitem "Date" df with
          | None => None
          | Some s =>
              let df := setitem "Date" (map (fun c => dt_date (to_datetime c)) s) df in
              match getitem "Date" df with
              | None => None
              | Some s =>
                  Some (setitem "Weekday"
                          (map (fun c => dt_strftime_A (to_datetime c)) s) df)
              end
          end
      end
  end.

End Sanitize.

(** [lambda d: "" if pd.isna(d) else str(d)] *)
Definition date_text (d : cell) : cell :=
  Str (if isna d then "" else str_of_cell d).

(** [upload_df] and [csv_content] of [update_schedule_on_github]; [None]
    is the [KeyError] of a frame without a Date column. *)
Definition upload_df (df : DataFrame) : option DataFrame :=
  match getitem "Date" df with
  | None => None
  | Some s => Some (setitem "Date" (map date_text s) df)
  end.

Definition csv_content (csv_text : Grid -> string) (df : DataFrame) : option string :=
  match upload_df df with
  | None => None
  | Some u => Some (to_csv csv_text u)
  end.

(** Python's truth value of a token or sha: [None] and [""] are false. *)
Definition truthy (o : option string) : bool :=
  match o with
  | Some s => negb (String.eqb s "")
  | None => false
  end.

Definition token_text (o : option string) : string :=
  match o with Some s => s | None => "None" end.

(** [{"Authorization": f"token {token}"} if token else {}] *)
Definition auth_headers (token : option string) : list (string * string) :=
  if truthy token then [("Authorization", ("token " ++ token_text token)%string)] else [].

Section Remote.

(** The CSV layout of pandas, both ways. *)
Variable csv_text : Grid -> string.
Variable csv_fields : string -> option Grid.
Variable na_value : string -> bool.

(** The transport of the CSV text, which is base64 of UTF-8 both ways:
    [base64.b64encode(text.encode("utf-8")).decode("utf-8")] and
    [base64.b64decode(payload).decode("utf-8")], [None] standing for the
    exception of a payload that is no base64 of UTF-8 text. *)
Variable b64encode : string -> string.
Variable b64decode : string -> option string.

(** [r.json()] and the two [j.get] come before the [try]: a 200 whose
    body is not a JSON object raises.  Inside the [try], whatever fails
    gives the empty table. *)
Definition fetch_remote_csv_via_api (token : option string)
  : io (option DataFrame * option string) :=
  Call (GET API_URL (auth_headers token)) (fun r =>
    if status_code r =? 200 then
      match json r with
      | None => Raise
      | Some j =>
          let sha := dict_get "sha" j in
          let content_b64 := dict_get_default "content" "" j in
          let df :=
            match content_b64 with
            | Some c =>
                match b64decode c with
                | Some raw =>
                    match read_csv csv_fields na_value raw with
                    | Some df => df
                    | None => mkDF COLUMNS []
                    end
                | None => mkDF COLUMNS []
                end
            | None => mkDF COLUMNS []
            end in
          Ret (Some df, sha)
      end
    else Ret (None, None)).

Definition get_github_sha (token : option string) : io (option string) :=
  Call (GET API_URL (auth_headers token)) (fun r =>
    if status_code r =? 200 then
      match json r with
      | None => Raise
      | Some j => Ret (dict_get "sha" j)
      end
    else Ret None).

(** [update_schedule_on_github]: the result is [(ok, status_code, text)]. *)
Definition update_schedule_on_github (df : DataFrame) (token : option string)
  (message : string) : io (bool * option Z * string) :=
  if negb (truthy token) then Ret (false, None, "Missing token")
  else
    match csv_content csv_text df with
    | None => Raise
    | Some csv_content =>
        let encoded := b64encode csv_content in
        sha <- get_github_sha token ;;
        let payload :=
          [("message", message); ("content", encoded)]
          ++ (if truthy sha then [("sha", token_text sha)] else []) in
        let headers :=
          [("Authorization", ("token " ++ token_text token)%string);
           ("Accept", "application/vnd.github.v3+json")] in
        Call (PUT API_URL payload headers) (fun r =>
          Ret ((status_code r =? 200) || (status_code r =? 201),
               Some (status_code r), text r))
    end.

End Remote.

(** The label of a row:
    [f"{row['Date']} | {row['Weekday']} | {row['Name']} - {row['Activity']} @ {row['Time']}"] *)
Definition label (cols : list string) (row : list cell) : string :=
  (str_of_cell (cell_of "Date" cols row) ++ " | "
   ++ str_of_cell (cell_of "Weekday" cols row) ++ " | "
   ++ str_of_cell (cell_of "Name" cols row) ++ " - "
   ++ str_of_cell (cell_of "Activity" cols row) ++ " @ "
   ++ str_of_cell (cell_of "Time" cols row))%string.

(** [latest_df["Label"] = latest_df.apply(..., axis=1)], for a table
    that has rows. *)
Definition with_label (df : DataFrame) : DataFrame :=
  mkDF (columns df ++ ["Label"])
       (map (fun r => r ++ [Str (label (columns df) r)]) (data df)).

(** [latest_df["Label"] == selected_label], on one row. *)
Definition label_is (selected_label : string) (cols : list string) (row : list cell)
  : bool :=
  match cell_of "Label" cols row with
  | Str l => String.eqb l selected_label
  | _ => false
  end.

(** The table the delete button uploads; [None] when no row has the
    selected label and nothing is uploaded. *)
Definition delete_selected (latest_df : DataFrame) (selected_label : string)
  : option DataFrame :=
  let latest_df := with_label latest_df in
  let to_delete := filter_rows (label_is selected_label) latest_df in
  match data to_delete with
  | [] => None
  | _ :: _ =>
      Some (drop_column "Label"
              (filter_rows (fun cols r => negb (label_is selected_label cols r))
                           latest_df))
  end.

(** [r"add\s+(.+?)\s+(?:on\s+(.+?)\s+)?for\s+(.+?)(?:\s+at\s+(.+))?$"],
    compiled with [re.IGNORECASE]. *)
Definition event_pattern : regex :=
  word (list_ascii_of_string "add")
    (Seq (Plus is_space)
    (Seq (Group 1 (PlusLazy is_dot))
    (Seq (Plus is_space)
    (Seq (Opt (word (list_ascii_of_string "on")
                 (Seq (Plus is_space)
                 (Seq (Group 2 (PlusLazy is_dot))
                      (Plus is_space)))))
    (word (list_ascii_of_string "for")
    (Seq (Plus is_space)
    (Seq (Group 3 (PlusLazy is_dot))
    (Seq (Opt (Seq (Plus is_space)
              (word (list_ascii_of_string "at")
              (Seq (Plus is_space)
                   (Group 4 (Plus is_dot))))))
         Eos)))))))).

(** The dict [parse_event] returns. *)
Record Event := mkEvent {
  ev_Date : PyDate.date;
  ev_Weekday : string;
  ev_Name : string;
  ev_Activity : string;
  ev_Time : string
}.

(** [pattern.group(n).strip()] *)
Definition stripped (w : list ascii) : string := string_of_list_ascii (strip w).

Section ParseEvent.

(** [dateparser.parse], followed by [.date()]: the date a phrase stands
    for on the day of the call, or [None] when it finds none; the
    library may also raise. *)
Variable dateparser_parse : string -> result (option PyDate.date).

(** The dates a timestamp of pandas can hold. *)
Variable in_bounds : PyDate.date -> bool.

(** Groups 1 and 3 are set in every match of the pattern; the branches
    for their absence are never taken.  Nothing is caught: what
    [dateparser.parse] or [pd.to_datetime] raise, [parse_event] raises. *)
Definition parse_event (text : string) : result (option Event) :=
  match search event_pattern (list_ascii_of_string text) with
  | None => Returned None
  | Some pattern =>
      let activity :=
        match group 1 pattern with Some w => stripped w | None => "" end in
      let date_phrase :=
        match group 2 pattern with
        | Some ((_ :: _) as w) => stripped w
        | _ => "today"
        end in
      let name :=
        match group 3 pattern with Some w => stripped w | None => "" end in
      let time :=
        match group 4 pattern with
        | Some ((_ :: _) as w) => stripped w
        | _ => ""
        end in
      match dateparser_parse date_phrase with
      | Raised => Raised
      | Returned None => Returned None
      | Returned (Some date) =>
          match weekday_name in_bounds date with
          | None => Raised
          | Some weekday => Returned (Some (mkEvent date weekday name activity time))
          end
      end
  end.

End ParseEvent.

(** What a button of the page ends with: one of its messages, or the
    answer of the store to the upload. *)
Inductive outcome :=
| CouldNotParse                 (* "Could not parse input. ..." *)
| NoMatchingEvent               (* "No matching event found." *)
| MissingGithubToken            (* "Missing GITHUB_TOKEN in secrets.toml; ..." *)
| GitHubResponse (ok : bool) (code : option Z) (text : string).

Definition RAW_URL : string :=
  ("https://raw.githubusercontent.com/" ++ REPO ++ "/main/" ++ PATH)%string.

Section Page.

Variable to_datetime : cell -> option PyDate.date.
Variable in_bounds : PyDate.date -> bool.
Variable dateparser_parse : string -> result (option PyDate.date).
Variable csv_text : Grid -> string.
Variable csv_fields : string -> option Grid.
Variable na_value : string -> bool.
Variable b64encode : string -> string.
Variable b64decode : string -> option string.

(** The text pandas downloads when [read_csv] is given a URL, [None]
    standing for the exception of a download that fails (an HTTP
    error). *)
Variable url_text : Response -> option string.

(** [df = sanitize_remote_df(df)] outside any [try]. *)
Definition sanitized (df : DataFrame) : io DataFrame :=
  match sanitize_remote_df to_datetime (Some df) with
  | Some d => Ret d
  | None => Raise
  end.

(** The fallback of [load_schedule_from_github]: the raw URL, read
    without a token. *)
(** [pd.read_csv(raw_url, dtype=str)] on the answer to its GET. *)
Definition read_csv_url (r : Response) : option DataFrame :=
  match url_text r with
  | Some raw => read_csv csv_fields na_value raw
  | None => None
  end.

Definition load_raw : io DataFrame :=
  Call (GET RAW_URL []) (fun r =>
    match read_csv_url r with
    | None => Ret (mkDF COLUMNS [])
    | Some df => sanitized df
    end).

Definition load_schedule_from_github (token : option string) : io DataFrame :=
  if truthy token then
    x <- fetch_remote_csv_via_api csv_fields na_value b64decode token ;;
    match fst x with
    | Some df => sanitized df
    | None => load_raw
    end
  else load_raw.

(** [pd.to_datetime(.)] without [errors="coerce"], then [.dt.date], on one
    cell: a null is the null date, and what does not convert raises. *)
Definition to_datetime_or_raise (c : cell) : option cell :=
  if isna c then Some NaT
  else match to_datetime c with
       | Some d => Some (Date d)
       | None => None
       end.

Fixpoint all_or_raise (cs : list cell) : option (list cell) :=
  match cs with
  | [] => Some []
  | c :: cs' =>
      match to_datetime_or_raise c, all_or_raise cs' with
      | Some x, Some xs => Some (x :: xs)
      | _, _ => None
      end
  end.

(** [new_rows["Date"] = pd.to_datetime(new_rows["Date"]).dt.date] *)
Definition with_dates (new_rows : DataFrame) : option DataFrame :=
  match getitem "Date" new_rows with
  | None => None
  | Some s =>
      match all_or_raise s with
      | None => None
      | Some s' => Some (setitem "Date" s' new_rows)
      end
  end.

(** The lines the two add buttons share: fetch the latest table, put
    the new rows after it, and upload unless there is no token; after a
    successful upload the table is loaded once more. *)
Definition merge_and_upload (new_rows : DataFrame) (token : option string)
  (message : string) : io outcome :=
  latest_df <- load_schedule_from_github token ;;
  match with_dates new_rows with
  | None => Raise
  | Some new_rows =>
      match concat latest_df new_rows with
      | None => Raise
      | Some combined_df =>
          if negb (truthy token) then Ret MissingGithubToken
          else
            res <- update_schedule_on_github csv_text b64encode combined_df token message ;;
            let '(ok, code, text) := res in
            if ok then
              _ <- load_schedule_from_github token ;;
              Ret (GitHubResponse ok code text)
            else Ret (GitHubResponse ok code text)
      end
  end.

(** The "Add Event" button. *)
Definition add_event (date_val : PyDate.date) (name activity time_val recurrence : string)
  (repeat_count : Z) (token : option string) : io outcome :=
  match expand_recurring_events in_bounds date_val name activity time_val recurrence
          repeat_count with
  | None => Raise
  | Some new_rows => merge_and_upload new_rows token "Add event(s) via UI"
  end.

(** [pd.DataFrame([parsed], columns=COLUMNS)] *)
Definition event_frame (parsed : Event) : DataFrame :=
  mkDF COLUMNS [[Date (ev_Date parsed); Str (ev_Weekday parsed); Str (ev_Name parsed);
                 Str (ev_Activity parsed); Str (ev_Time parsed)]].

(** The "Parse and Add" button. *)
Definition parse_and_add (nl_input : string) (token : option string) : io outcome :=
  match parse_event dateparser_parse in_bounds nl_input with
  | Raised => Raise
  | Returned None => Ret CouldNotParse
  | Returned (Some parsed) => merge_and_upload (event_frame parsed) token "Add event via NLP"
  end.

(** The "Delete Selected Event" button, with the load that precedes it
    on the page. *)
Definition delete_selected_event (selected_label : string) (token : option string)
  : io outcome :=
  latest_df <- load_schedule_from_github token ;;
  match delete_selected latest_df selected_label with
  | None => Ret NoMatchingEvent
  | Some updated_df =>
      if negb (truthy token) then Ret MissingGithubToken
      else
        res <- update_schedule_on_github csv_text b64encode updated_df token "Delete event" ;;
        let '(ok, code, text) := res in
        Ret (GitHubResponse ok code text)
  end.

(** The weekday filter of the table shown:
    [display_df[display_df["Weekday"] == weekday_filter]] unless the
    filter is "All". *)
Definition weekday_is (weekday_filter : string) (cols : list string) (row : list cell)
  : bool :=
  match cell_of "Weekday" cols row with
  | Str w => String.eqb w weekday_filter
  | _ => false
  end.

Definition filter_weekday (weekday_filter : string) (display_df : DataFrame) : DataFrame :=
  if String.eqb weekday_filter "All" then display_df
  else filter_rows (weekday_is weekday_filter) display_df.

End Page.

End Scheduler.

Import PyDate Frame Http Regex Scheduler.

(* ------------------------------------------------------------------ *)
(** ** Notions the properties are stated with *)
(* ------------------------------------------------------------------ *)

(** One entry of the table that checks [month_day] on the days of a year. *)
Definition month_day_check (leap : bool) (n : Z) : bool :=
  let (m, dd) := month_day n leap in
  (1 <=? m) && (m <=? 12) && (1 <=? dd)
  && (dd <=? (if (m =? 2) && leap then 29 else DAYS_IN_MONTH m))
  && (DAYS_BEFORE_MONTH m + (if (2 <? m) && leap then 1 else 0) + dd =? n + 1).

(** How many days one repetition moves the date. *)
Definition step_days (recurrence : string) : Z :=
  if String.eqb recurrence "Daily" then 1
  else if String.eqb recurrence "Weekly" then 7 else 0.

(** The date [i] repetitions after [d]: [d] itself for a one-off event,
    else the date whose ordinal lies [i] days, or [i] weeks, further. *)
Definition occurrence (d : PyDate.date) (recurrence : string) (i : Z) : PyDate.date :=
  if String.eqb recurrence "Daily" then fromordinal (toordinal d + i)
  else if String.eqb recurrence "Weekly" then fromordinal (toordinal d + 7 * i)
  else d.

(** The row of an event on the date [nd]. *)
Definition event_cells (nd : PyDate.date) (name activity time : string) : list cell :=
  [Date nd; Str (day_name nd); Str name; Str activity; Str time].

(** Is some occurrence before the [count]-th out of the bounds of a
    timestamp? *)
Definition out_of_bounds (in_bounds : PyDate.date -> bool) (d : PyDate.date)
  (recurrence : string) (count : Z) : bool :=
  existsb (fun i => negb (in_bounds (occurrence d recurrence i))) (range count).

Definition keep_named (c : string) : bool := negb (is_unnamed c).

(** What the frame looks like while [sanitize_remote_df] adds the
    canonical columns: [cols'] are its labels and [g] makes its rows from
    the rows of the frame read from the store, whose labels are [cols]. *)
Record shaped (cols cols' : list string) (g : list cell -> list cell) : Prop := {
  shaped_nodup : NoDup cols';
  shaped_named : forall c, In c cols -> keep_named c = true -> In c cols';
  shaped_length : forall r, List.length r = List.length cols ->
                            List.length (g r) = List.length cols';
  shaped_pick : forall c r, List.length r = List.length cols ->
                            In c COLUMNS -> In c cols' ->
                            pick c cols' (g r) = [cell_of c cols r]
}.

(** The normalised row of a stored row. *)
Definition sanitized_row (to_datetime : cell -> option PyDate.date)
  (cols : list string) (r : list cell) : list cell :=
  let dt := dt_date (to_datetime (cell_of "Date" cols r)) in
  [dt; dt_strftime_A (to_datetime dt);
   cell_of "Name" cols r; cell_of "Activity" cols r; cell_of "Time" cols r].

(** A conversion that reads what [str(date)] writes, and nothing else;
    [pd.to_datetime] reads these strings and many more.  It is the
    conversion the properties are tried on. *)
Definition digit_value (c : ascii) : option Z :=
  let n := nat_of_ascii c in
  if (48 <=? n)%nat && (n <=? 57)%nat then Some (Z.of_nat n - 48) else None.

Definition number (ds : list ascii) : option Z :=
  fold_left (fun acc c =>
               match acc, digit_value c with
               | Some a, Some v => Some (10 * a + v)
               | _, _ => None
               end) ds (Some 0).

Definition parse_iso (s : string) : option PyDate.date :=
  match list_ascii_of_string s with
  | [y1; y2; y3; y4; s1; m1; m2; s2; d1; d2] =>
      if Ascii.eqb s1 "-" && Ascii.eqb s2 "-" then
        match number [y1; y2; y3; y4], number [m1; m2], number [d1; d2] with
        | Some y, Some m, Some d =>
            if valid (mkdate y m d) then Some (mkdate y m d) else None
        | _, _, _ => None
        end
      else None
  | _ => None
  end.

Definition to_datetime_iso (c : cell) : option PyDate.date :=
  match c with
  | Date d => if valid d then Some d else None
  | Str s => parse_iso s
  | _ => None
  end.

(** The frames the store can hand over: one cell per column in every row,
    no label twice. *)
Definition table (df : DataFrame) : Prop := wf df /\ NoDup (columns df).

(** Two cells agree when they are the same, or both null. *)
Definition same_cell (x y : cell) : Prop :=
  x = y \/ (isna x = true /\ isna y = true).

(** Two tables agree: same labels, and cell by cell the same content. *)
Definition same_table (t u : DataFrame) : Prop :=
  columns t = columns u /\ Forall2 (Forall2 same_cell) (data t) (data u).

(** A text cell: a string or null. *)
Definition text_cell (c : cell) : Prop :=
  isna c = true \/ exists s, c = Str s.

(** A canonical table: the five columns, dates or nulls under Date, text
    or nulls elsewhere. *)
Definition canonical_row (r : list cell) : Prop :=
  exists date weekday name activity time,
    r = [date; weekday; name; activity; time]
    /\ (isna date = true \/ exists d, date = Date d /\ valid d = true)
    /\ text_cell weekday /\ text_cell name /\ text_cell activity /\ text_cell time.

Definition canonical (t : DataFrame) : Prop :=
  columns t = COLUMNS /\ Forall canonical_row (data t).

(** A text cell that comes back from the CSV as it went: null, or a
    string the reader does not take for a missing value. *)
Definition survives_csv (na_value : string -> bool) (c : cell) : Prop :=
  isna c = true \/ exists s, c = Str s /\ na_value s = false.

(** [normalize(parseCsv(serializeCsv(T)))]: the text the upload writes
    for [t], read as the fetch reads it, and normalised; [None] when one
    of the three raises. *)
Definition through_csv (csv_text : Grid -> string) (csv_fields : string -> option Grid)
  (to_datetime : cell -> option PyDate.date) (na_value : string -> bool)
  (t : DataFrame) : option DataFrame :=
  match csv_content csv_text t with
  | None => None
  | Some raw =>
      match read_csv csv_fields na_value raw with
      | None => None
      | Some df => sanitize_remote_df to_datetime (Some df)
      end
  end.

(** The text written for [t] is split back into the fields it was
    written from. *)
Definition fields_come_back (csv_text : Grid -> string)
  (csv_fields : string -> option Grid) (t : DataFrame) : Prop :=
  forall u, upload_df t = Some u -> csv_fields (csv_text (to_grid u)) = Some (to_grid u).

(** A cell as it comes back from the CSV. *)
Definition reread (na_value : string -> bool) (c : cell) : cell :=
  let f := to_csv_field c in if na_value f then NaN else Str f.

(** The value a request payload has under [k]. *)
Fixpoint payload_get (k : string) (p : list (string * string)) : option string :=
  match p with
  | [] => None
  | (k', v) :: p' => if String.eqb k' k then Some v else payload_get k p'
  end.

(** The headers of the PUT. *)
Definition put_headers (token : option string) : list (string * string) :=
  [("Authorization", ("token " ++ token_text token)%string);
   ("Accept", "application/vnd.github.v3+json")].

(** A 200 whose body is not a JSON object: [r.json()], or the [.get] on
    its result, raises. *)
Definition not_json (r : Response) : bool :=
  (status_code r =? 200) && match json r with Some _ => false | None => true end.

(** The sha a GET response carries for the program: [r.json().get("sha")]
    of a 200, nothing otherwise. *)
Definition sha_of_response (r : Response) : option string :=
  if status_code r =? 200 then
    match json r with Some j => dict_get "sha" j | None => None end
  else None.

(** The table in the payload of a response, if the payload decodes and
    the text splits into fields. *)
Definition decoded (csv_fields : string -> option Grid) (na_value : string -> bool)
  (b64decode : string -> option string) (r : Response) : option DataFrame :=
  match json r with
  | Some j =>
      match dict_get_default "content" "" j with
      | Some c =>
          match b64decode c with
          | Some raw => read_csv csv_fields na_value raw
          | None => None
          end
      | None => None
      end
  | None => None
  end.

(** A mock store for trying the client: its state lists the shas its blob
    goes through, one per GET (other writers are at work between the
    requests); it accepts every PUT. *)
Definition mock_serve (rq : Request) (shas : list string) : Response * list string :=
  match rq with
  | GET _ _ =>
      match shas with
      | sha :: rest =>
          (mkResponse 200 (Some [("sha", Some sha); ("content", Some "")]) "", rest)
      | [] => (mkResponse 404 (Some [("message", Some "Not Found")]) "Not Found", [])
      end
  | PUT _ _ _ => (mkResponse 200 (Some []) "updated", shas)
  end.

(** A store behind a gateway that answers every request with a page of
    its own: status 200, and a body that is not JSON. *)
Definition gateway_serve (rq : Request) (n : nat) : Response * nat :=
  (mkResponse 200 None "<html>Sign in</html>", S n).

(** A store whose blob is at sha S1 and holds no base64. *)
Definition garbled_serve (rq : Request) (n : nat) : Response * nat :=
  (mkResponse 200 (Some [("sha", Some "S1"); ("content", Some "!!")]) "", S n).

(** A transport for trying the client: the text is "sent" as it is, and
    a payload with an exclamation mark is not base64. *)
Definition mock_encode (raw : string) : string := raw.

Definition mock_decode (payload : string) : option string :=
  if existsb (Ascii.eqb "!") (list_ascii_of_string payload) then None else Some payload.

(** A CSV layout for trying the client: the fields of a record are
    joined by commas, every record ends with a newline, and nothing is
    quoted.  The text is split at commas, and into lines at newlines and
    at carriage returns; blank lines are skipped, a short record is
    filled up with empty fields, a long one is an error. *)
Definition plain_csv_text (g : Grid) : string :=
  String.concat ""
    (map (fun r => (String.concat "," r ++ String Regex.newline EmptyString)%string)
         (header g :: records g)).

Fixpoint split_at (p : ascii -> bool) (s cur : list ascii) : list (list ascii) :=
  match s with
  | [] => [rev cur]
  | c :: s' => if p c then rev cur :: split_at p s' [] else split_at p s' (c :: cur)
  end.

Definition is_line_end (c : ascii) : bool :=
  Ascii.eqb c Regex.newline || Ascii.eqb c (ascii_of_nat 13).

Definition plain_lines (raw : string) : list (list ascii) :=
  filter (fun l => negb (Nat.eqb (List.length l) 0))
         (split_at is_line_end (list_ascii_of_string raw) []).

Definition plain_fields (line : list ascii) : list string :=
  map string_of_list_ascii (split_at (Ascii.eqb ",") line []).

Definition plain_csv_fields (raw : string) : option Grid :=
  match plain_lines raw with
  | [] => None
  | h :: rs =>
      let n := List.length (plain_fields h) in
      if forallb (fun r => (List.length (plain_fields r) <=? n)%nat) rs then
        Some (mkGrid (plain_fields h)
                (map (fun r => plain_fields r
                               ++ repeat "" (n - List.length (plain_fields r))) rs))
      else None
  end.

(** The dates the timestamps of pandas 2 hold: they count nanoseconds in
    64 bits, from 1677-09-21 00:12:43 to 2262-04-11 23:47:16, so that
    the days from 1677-09-22 to 2262-04-11 are in bounds. *)
Definition ns_bounds (d : PyDate.date) : bool :=
  valid d
  && (toordinal (mkdate 1677 9 22) <=? toordinal d)
  && (toordinal d <=? toordinal (mkdate 2262 4 11)).

(** Timestamps that hold every date. *)
Definition no_bounds (d : PyDate.date) : bool := true.

(** The grammar of [parse_event], piece by piece: white space ([\s+]),
    a phrase ([.+]), a keyword in any case, the end of the text ([$]:
    nothing is left, or one last newline). *)
Definition spaces (w : list ascii) : Prop := w <> [] /\ forallb is_space w = true.

Definition phrase (w : list ascii) : Prop := w <> [] /\ forallb is_dot w = true.

Definition keyword (k : string) (w : list ascii) : Prop :=
  map Regex.lower_ascii w = list_ascii_of_string k.

Definition ending (s : list ascii) : Prop := s = [] \/ s = [newline].

(** [s] starts with a character that is no white space, as every piece
    of a sentence that starts with a keyword does. *)
Definition starts_with_letter (s : list ascii) : Prop :=
  exists x r, s = x :: r /\ is_space x = false.

(** The grammar, from the end of the sentence to its start.  [s] reads
    [[at <time-phrase>]] and ends there. *)
Definition reads_at (s : list ascii) (time : option (list ascii)) : Prop :=
  match time with
  | None => ending s
  | Some t =>
      exists w1 a w2 nl,
        s = w1 ++ a ++ w2 ++ t ++ nl
        /\ spaces w1 /\ keyword "at" a /\ spaces w2 /\ phrase t /\ ending nl
  end.

(** [<name> [at <time-phrase>]] *)
Definition reads_name (s name : list ascii) (time : option (list ascii)) : Prop :=
  exists rest, s = name ++ rest /\ phrase name /\ reads_at rest time.

(** [for <name> [at <time-phrase>]] *)
Definition reads_for (s name : list ascii) (time : option (list ascii)) : Prop :=
  exists f w rest,
    s = f ++ w ++ rest /\ keyword "for" f /\ spaces w /\ reads_name rest name time.

(** [<date-phrase> for <name> [at <time-phrase>]] *)
Definition reads_date (s p name : list ascii) (time : option (list ascii)) : Prop :=
  exists w rest, s = p ++ w ++ rest /\ phrase p /\ spaces w /\ reads_for rest name time.

(** [[on <date-phrase>] for <name> [at <time-phrase>]] *)
Definition reads_on (s : list ascii) (date_phrase : option (list ascii))
  (name : list ascii) (time : option (list ascii)) : Prop :=
  match date_phrase with
  | None => reads_for s name time
  | Some p =>
      exists o w rest,
        s = o ++ w ++ rest /\ keyword "on" o /\ spaces w /\ reads_date rest p name time
  end.

(** [<activity> [on <date-phrase>] for <name> [at <time-phrase>]] *)
Definition reads_activity (s activity : list ascii) (date_phrase : option (list ascii))
  (name : list ascii) (time : option (list ascii)) : Prop :=
  exists w rest,
    s = activity ++ w ++ rest /\ phrase activity /\ spaces w
    /\ reads_on rest date_phrase name time.

(** [add <activity> [on <date-phrase>] for <name> [at <time-phrase>]] *)
Definition reads_add (s activity : list ascii) (date_phrase : option (list ascii))
  (name : list ascii) (time : option (list ascii)) : Prop :=
  exists a w rest,
    s = a ++ w ++ rest /\ keyword "add" a /\ spaces w
    /\ reads_activity rest activity date_phrase name time.

(** [text] holds such a sentence, running to its end or to a last
    newline. *)
Definition sentence (text activity : list ascii) (date_phrase : option (list ascii))
  (name : list ascii) (time : option (list ascii)) : Prop :=
  exists pre s, text = pre ++ s /\ reads_add s activity date_phrase name time.

(** A text can have several readings ("add gym for Bob at 7" names
    "Bob" at time "7", or names "Bob at 7").  Python's matcher takes
    the first one in its order: the sentence starts as far left as it
    can; after that, from left to right, white space before a phrase is
    taken as long as possible and the phrase as short as possible, as
    far as the rest of the text can still be read.

    [w], followed by [rest], is as short as it can be for the rest to be
    read by [L]; and as long as it can be, as white space. *)
Definition shortest_before (L : list ascii -> Prop) (w rest : list ascii) : Prop :=
  forall w' rest',
    w ++ rest = w' ++ rest' -> w' <> [] -> (List.length w' < List.length w)%nat ->
    ~ L rest'.

Definition longest_before (L : list ascii -> Prop) (w rest : list ascii) : Prop :=
  forall w' rest',
    w ++ rest = w' ++ rest' -> forallb is_space w' = true ->
    (List.length w < List.length w')%nat ->
    ~ L rest'.

(** The first reading, piece by piece as the grammar above. *)
Definition first_at (s : list ascii) (time : option (list ascii)) : Prop :=
  match time with
  | None => ending s
  | Some t =>
      exists w1 a w2 nl,
        s = w1 ++ a ++ w2 ++ t ++ nl
        /\ spaces w1 /\ keyword "at" a /\ spaces w2 /\ phrase t /\ ending nl
        /\ longest_before
             (fun r => exists t' nl', r = t' ++ nl' /\ phrase t' /\ ending nl')
             w2 (t ++ nl)
  end.

Definition first_name (s name : list ascii) (time : option (list ascii)) : Prop :=
  exists rest,
    s = name ++ rest /\ phrase name /\ first_at rest time
    /\ shortest_before (fun r => exists t, reads_at r t) name rest.

Definition first_for (s name : list ascii) (time : option (list ascii)) : Prop :=
  exists f w rest,
    s = f ++ w ++ rest /\ keyword "for" f /\ spaces w /\ first_name rest name time
    /\ longest_before (fun r => exists n t, reads_name r n t) w rest.

Definition first_date (s p name : list ascii) (time : option (list ascii)) : Prop :=
  exists w rest,
    s = p ++ w ++ rest /\ phrase p /\ spaces w /\ first_for rest name time
    /\ shortest_before
         (fun r => exists w' r' n t, r = w' ++ r' /\ spaces w' /\ reads_for r' n t)
         p (w ++ rest).

Definition first_on (s : list ascii) (date_phrase : option (list ascii))
  (name : list ascii) (time : option (list ascii)) : Prop :=
  match date_phrase with
  | None => first_for s name time
  | Some p =>
      exists o w rest,
        s = o ++ w ++ rest /\ keyword "on" o /\ spaces w /\ first_date rest p name time
        /\ longest_before (fun r => exists q n t, reads_date r q n t) w rest
  end.

Definition first_activity (s activity : list ascii) (date_phrase : option (list ascii))
  (name : list ascii) (time : option (list ascii)) : Prop :=
  exists w rest,
    s = activity ++ w ++ rest /\ phrase activity /\ spaces w
    /\ first_on rest date_phrase name time
    /\ shortest_before
         (fun r => exists w' r' dp n t, r = w' ++ r' /\ spaces w' /\ reads_on r' dp n t)
         activity (w ++ rest).

Definition first_add (s activity : list ascii) (date_phrase : option (list ascii))
  (name : list ascii) (time : option (list ascii)) : Prop :=
  exists a w rest,
    s = a ++ w ++ rest /\ keyword "add" a /\ spaces w
    /\ first_activity rest activity date_phrase name time
    /\ longest_before (fun r => exists act dp n t, reads_activity r act dp n t) w rest.

Definition first_sentence (text activity : list ascii) (date_phrase : option (list ascii))
  (name : list ascii) (time : option (list ascii)) : Prop :=
  exists pre s,
    text = pre ++ s /\ first_add s activity date_phrase name time
    /\ forall pre' s',
         text = pre' ++ s' -> (List.length pre' < List.length pre)%nat ->
         ~ exists act dp n t, reads_add s' act dp n t.

(** The pattern of [parse_event], from its end: what follows group 3,
    group 3 and what follows it, and so on to the whole pattern. *)
Definition at_pattern : regex :=
  Seq (Opt (Seq (Plus is_space)
           (word (list_ascii_of_string "at")
           (Seq (Plus is_space) (Group 4 (Plus is_dot))))))
      Eos.

Definition name_pattern : regex := Seq (Group 3 (PlusLazy is_dot)) at_pattern.

Definition for_pattern : regex :=
  word (list_ascii_of_string "for") (Seq (Plus is_space) name_pattern).

Definition date_pattern : regex := Seq (Group 2 (PlusLazy is_dot)) (Plus is_space).

Definition on_pattern : regex :=
  Seq (Opt (word (list_ascii_of_string "on") (Seq (Plus is_space) date_pattern)))
      for_pattern.

Definition activity_pattern : regex :=
  Seq (Group 1 (PlusLazy is_dot)) (Seq (Plus is_space) on_pattern).

(** How the matcher goes on at the end of the pattern: the match is
    found, and its groups are the result. *)
Definition found_match : list ascii -> captures -> option captures :=
  fun _ caps => Some caps.

(** How it goes on after the optional "on" clause, and after the
    optional "at" clause. *)
Definition then_for : list ascii -> captures -> option captures :=
  fun s caps => exec for_pattern s caps found_match.

Definition then_end : list ascii -> captures -> option captures :=
  fun s caps => exec Eos s caps found_match.

(** The "on" clause and the "at" clause of the pattern. *)
Definition on_inner : regex :=
  word (list_ascii_of_string "on") (Seq (Plus is_space) date_pattern).

Definition at_inner : regex :=
  Seq (Plus is_space)
      (word (list_ascii_of_string "at")
      (Seq (Plus is_space) (Group 4 (Plus is_dot)))).

(** The groups an "at" clause and an "on" clause set. *)
Definition time_group (time : option (list ascii)) : captures :=
  match time with Some t => [(4%nat, t)] | None => [] end.

Definition date_group (date_phrase : option (list ascii)) : captures :=
  match date_phrase with Some p => [(2%nat, p)] | None => [] end.

(** The groups of a match that reads the sentence so. *)
Definition groups_of (activity : list ascii) (date_phrase : option (list ascii))
  (name : list ascii) (time : option (list ascii)) : captures :=
  time_group time ++ [(3%nat, name)] ++ date_group date_phrase ++ [(1%nat, activity)].

(** The event [parse_event] makes of a sentence and the date resolved. *)
Definition event_of (date : PyDate.date) (activity name : list ascii)
  (time : option (list ascii)) : Event :=
  mkEvent date (day_name date) (stripped name) (stripped activity)
          (match time with Some t => stripped t | None => "" end).

(** The phrase [parse_event] hands to the date resolver. *)
Definition phrase_to_resolve (date_phrase : option (list ascii)) : string :=
  match date_phrase with Some p => stripped p | None => "today" end.

(** What [parse_event] makes of a reading: the event, when the phrase
    resolves to a date in bounds. *)
Definition parsed_as (dateparser_parse : string -> result (option PyDate.date))
  (in_bounds : PyDate.date -> bool) (activity : list ascii)
  (date_phrase : option (list ascii)) (name : list ascii) (time : option (list ascii))
  : result (option Event) :=
  match dateparser_parse (phrase_to_resolve date_phrase) with
  | Raised => Raised
  | Returned None => Returned None
  | Returned (Some d) =>
      if in_bounds d then Returned (Some (event_of d activity name time)) else Raised
  end.

(** A date resolver for trying the parser: it knows a few phrases. *)
Definition mock_resolver (s : string) : result (option PyDate.date) :=
  if String.eqb s "Wednesday" then Returned (Some (mkdate 2024 1 3))
  else if String.eqb s "today" then Returned (Some (mkdate 2024 1 1))
  else if String.eqb s "1 Jan 0001" then Returned (Some (mkdate 1 1 1))
  else if String.eqb s "1 January 2300" then Returned (Some (mkdate 2300 1 1))
  else Returned None.

(** The payload of the PUT, for the sha the GET before it returned. *)
Definition put_payload (message encoded : string) (sha : option string)
  : list (string * string) :=
  [("message", message); ("content", encoded)]
  ++ (if truthy sha then [("sha", token_text sha)] else []).

Definition is_get (rq : Request) : Prop :=
  match rq with GET _ _ => True | PUT _ _ _ => False end.

(** A grid as pandas' tokenizer hands it over: no label twice (it
    renames a repeated one), as many fields in every record as there are
    labels. *)
Definition well_formed_grid (g : Grid) : Prop :=
  NoDup (header g)
  /\ Forall (fun r => List.length r = List.length (header g)) (records g).

(** Readers for trying the page: whatever the text, the fields read are
    those of one stored event; the raw URL is read when the answer is a
    200. *)
Definition mock_grid : Grid :=
  mkGrid COLUMNS [["2024-01-03"; "Wednesday"; "Vinoth"; "gym"; "7am"]].

Definition mock_fields (raw : string) : option Grid := Some mock_grid.

Definition mock_url_text (r : Response) : option string :=
  if status_code r =? 200 then Some (text r) else None.

(** The keyword [k] occurs in [text], in any case. *)
Definition occurs (k : string) (text : list ascii) : Prop :=
  exists l1 w l2, text = l1 ++ w ++ l2 /\ keyword k w.

(** The same, as a test: is [k] (in lower case) found in [text]? *)
Fixpoint starts_with (k text : list ascii) : bool :=
  match k, text with
  | [], _ => true
  | c :: k', x :: text' => Ascii.eqb (Regex.lower_ascii x) c && starts_with k' text'
  | _ :: _, [] => false
  end.

Fixpoint found (k text : list ascii) : bool :=
  starts_with k text
  || match text with
     | [] => false
     | _ :: text' => found k text'
     end.

(** A row of the table shown has this label. *)
Definition has_label (selected_label : string) (r : list cell) : bool :=
  String.eqb (label COLUMNS r) selected_label.

(* ================================================================== *)
(** * Properties *)
(* ================================================================== *)

Example iso_2024 :
  PyDate.isoformat (PyDate.mkdate 2024 1 3) = "2024-01-03"
  /\ PyDate.day_name (PyDate.mkdate 2024 1 3) = "Wednesday"
  /\ PyDate.toordinal (PyDate.mkdate 9999 12 31) = PyDate.MAXORDINAL
  /\ PyDate.fromordinal 738888 = PyDate.mkdate 2024 1 3
  /\ PyDate.add_days (PyDate.mkdate 2024 2 28) 2 = Some (PyDate.mkdate 2024 3 1).
Proof. repeat split; reflexivity. Qed.

(** *** Dates *)

Lemma days_before_year_nonneg y : 1 <= y -> 0 <= days_before_year y.
Proof.
  intros Hy. unfold days_before_year. cbv zeta.
  Z.div_mod_to_equations. lia.
Qed.

Lemma month_cases m :
  1 <= m <= 12 ->
  m = 1 \/ m = 2 \/ m = 3 \/ m = 4 \/ m = 5 \/ m = 6 \/
  m = 7 \/ m = 8 \/ m = 9 \/ m = 10 \/ m = 11 \/ m = 12.
Proof. lia. Qed.

Lemma days_before_month_nonneg y m : 1 <= m <= 12 -> 0 <= days_before_month y m.
Proof.
  intros Hm. unfold days_before_month.
  destruct (month_cases m Hm) as [->|[->|[->|[->|[->|[->|[->|[->|[->|[->|[->| ->]]]]]]]]]]];
    cbn; destruct (is_leap y); cbn; lia.
Qed.

Lemma valid_bounds d :
  valid d = true ->
  1 <= year d <= 9999 /\ 1 <= month d <= 12
  /\ 1 <= day d <= days_in_month (year d) (month d).
Proof.
  unfold valid, MINYEAR, MAXYEAR. intros H.
  repeat (apply andb_prop in H; destruct H as [H ?]).
  repeat match goal with
         | H : (_ <=? _) = true |- _ => apply Z.leb_le in H
         end.
  lia.
Qed.

Lemma toordinal_pos d : valid d = true -> 1 <= toordinal d.
Proof.
  intros H. apply valid_bounds in H. destruct H as (Hy & Hm & Hd).
  unfold toordinal, ymd2ord.
  pose proof (days_before_year_nonneg (year d)).
  pose proof (days_before_month_nonneg (year d) (month d)).
  lia.
Qed.

Lemma range_length n : List.length (range n) = Z.to_nat n.
Proof. unfold range. now rewrite length_map, length_seq. Qed.

Lemma range_In n i : In i (range n) <-> 0 <= i < n.
Proof.
  unfold range. rewrite in_map_iff. split.
  - intros (k & <- & Hk). apply in_seq in Hk. lia.
  - intros Hi. exists (Z.to_nat i). split; [lia|]. apply in_seq. lia.
Qed.

Lemma range_nth n i : 0 <= i < n -> nth_error (range n) (Z.to_nat i) = Some i.
Proof.
  intros Hi. unfold range.
  rewrite nth_error_map, nth_error_seq.
  destruct (Nat.ltb_spec (Z.to_nat i) (Z.to_nat n)) as [_|H]; [|lia].
  cbn. f_equal. lia.
Qed.

(** The ordinal of a date and the date of an ordinal are inverse on the
    ordinals Python accepts; the month and day part is checked on the 366
    days of a year. *)

Lemma month_day_table :
  forallb (month_day_check false) (range 365) = true
  /\ forallb (month_day_check true) (range 366) = true.
Proof. split; vm_compute; reflexivity. Qed.

Lemma month_day_spec (leap : bool) n :
  0 <= n < (if leap then 366 else 365) ->
  let (m, dd) := month_day n leap in
  1 <= m <= 12 /\ 1 <= dd <= (if (m =? 2) && leap then 29 else DAYS_IN_MONTH m)
  /\ DAYS_BEFORE_MONTH m + (if (2 <? m) && leap then 1 else 0) + dd = n + 1.
Proof.
  intros Hn.
  assert (Hc : month_day_check leap n = true).
  { destruct month_day_table as [H0 H1].
    destruct leap; [rewrite forallb_forall in H1; apply H1
                   | rewrite forallb_forall in H0; apply H0];
      apply range_In; lia. }
  unfold month_day_check in Hc. destruct (month_day n leap) as [m dd].
  repeat (apply andb_prop in Hc; destruct Hc as [Hc ?]).
  repeat match goal with
         | H : (_ <=? _) = true |- _ => apply Z.leb_le in H
         | H : (_ =? _) = true |- _ => apply Z.eqb_eq in H
         end.
  lia.
Qed.

Lemma days_before_year_split a b c e :
  0 <= a -> 0 <= b <= 3 -> 0 <= c <= 24 -> 0 <= e <= 3 ->
  days_before_year (400 * a + 100 * b + 4 * c + e + 1)
  = 146097 * a + 36524 * b + 1461 * c + 365 * e.
Proof.
  intros. unfold days_before_year. cbv zeta.
  replace (400 * a + 100 * b + 4 * c + e + 1 - 1) with (400 * a + 100 * b + 4 * c + e) by lia.
  assert ((400 * a + 100 * b + 4 * c + e) / 4 = 100 * a + 25 * b + c)
    by (Z.div_mod_to_equations; lia).
  assert ((400 * a + 100 * b + 4 * c + e) / 100 = 4 * a + b)
    by (Z.div_mod_to_equations; lia).
  assert ((400 * a + 100 * b + 4 * c + e) / 400 = a)
    by (Z.div_mod_to_equations; lia).
  lia.
Qed.

Lemma is_leap_split a b c e :
  0 <= a -> 0 <= b <= 3 -> 0 <= c <= 24 -> 0 <= e <= 3 ->
  is_leap (400 * a + 100 * b + 4 * c + e + 1)
  = (e =? 3) && (negb (c =? 24) || (b =? 3)).
Proof.
  intros. unfold is_leap.
  destruct (Z.eqb_spec e 3), (Z.eqb_spec c 24), (Z.eqb_spec b 3);
    repeat match goal with
           | |- context [?x mod ?k =? 0] => destruct (Z.eqb_spec (x mod k) 0)
           end; cbn; try reflexivity; exfalso;
    Z.div_mod_to_equations; lia.
Qed.

Lemma fromordinal_toordinal n :
  1 <= n <= MAXORDINAL ->
  valid (fromordinal n) = true /\ toordinal (fromordinal n) = n.
Proof.
  unfold MAXORDINAL. intros Hn.
  unfold fromordinal, ord2ymd, DI400Y, DI100Y, DI4Y. cbv zeta.
  pose proof (Z.div_mod (n - 1) 146097 ltac:(lia)) as E1.
  pose proof (Z.mod_pos_bound (n - 1) 146097 ltac:(lia)) as B1.
  set (a := (n - 1) / 146097) in *. set (r1 := (n - 1) mod 146097) in *.
  pose proof (Z.div_mod r1 36524 ltac:(lia)) as E2.
  pose proof (Z.mod_pos_bound r1 36524 ltac:(lia)) as B2.
  set (b := r1 / 36524) in *. set (r2 := r1 mod 36524) in *.
  pose proof (Z.div_mod r2 1461 ltac:(lia)) as E3.
  pose proof (Z.mod_pos_bound r2 1461 ltac:(lia)) as B3.
  set (c := r2 / 1461) in *. set (r3 := r2 mod 1461) in *.
  pose proof (Z.div_mod r3 365 ltac:(lia)) as E4.
  pose proof (Z.mod_pos_bound r3 365 ltac:(lia)) as B4.
  set (e := r3 / 365) in *. set (r := r3 mod 365) in *.
  clearbody a r1 b r2 c r3 e r.
  assert (Ha : 0 <= a) by lia.
  assert (Hb : 0 <= b <= 4) by lia.
  assert (Hc : 0 <= c <= 24) by lia.
  assert (He : 0 <= e <= 4) by lia.
  destruct (Z.eqb_spec e 4) as [He4|He4]; cbn [orb].
  - (* the last day of a leap year closing a 4-year cycle *)
    assert (r = 0) by lia. assert (b <= 3) by lia.
    replace (a * 400 + 1 + b * 100 + c * 4 + e - 1)
      with (400 * a + 100 * b + 4 * c + 3 + 1) by lia.
    unfold valid, toordinal, ymd2ord, days_before_month, days_in_month.
    cbn [year month day].
    rewrite days_before_year_split by lia.
    rewrite is_leap_split by lia.
    destruct (Z.eqb_spec c 24) as [Hc24|_]; [lia|].
    unfold MINYEAR, MAXYEAR. cbn -[Z.add Z.mul Z.leb].
    split; [|lia].
    repeat (apply andb_true_intro; split); try apply Z.leb_le; lia.
  - destruct (Z.eqb_spec b 4) as [Hb4|Hb4].
    + (* the last day of a 400-year cycle *)
      assert (r2 = 0) by lia. assert (c = 0) by lia. assert (e = 0) by lia.
      assert (r = 0) by lia. subst.
      replace (a * 400 + 1 + 4 * 100 + 0 * 4 + 0 - 1)
        with (400 * a + 100 * 3 + 4 * 24 + 3 + 1) by lia.
      unfold valid, toordinal, ymd2ord, days_before_month, days_in_month.
      cbn [year month day].
      rewrite days_before_year_split by lia.
      rewrite is_leap_split by lia.
      unfold MINYEAR, MAXYEAR. cbn -[Z.add Z.mul Z.leb].
      split; [|lia].
      repeat (apply andb_true_intro; split); try apply Z.leb_le; lia.
    + assert (Hb3 : b <= 3) by lia. assert (He3 : e <= 3) by lia.
      set (leap := (e =? 3) && (negb (c =? 24) || (b =? 3))).
      assert (Hr : 0 <= r < (if leap then 366 else 365)) by (destruct leap; lia).
      pose proof (month_day_spec leap r Hr) as Hmd.
      destruct (month_day r leap) as [m dd]. destruct Hmd as (Hm & Hd & Hsum).
      replace (a * 400 + 1 + b * 100 + c * 4 + e)
        with (400 * a + 100 * b + 4 * c + e + 1) by lia.
      unfold valid, toordinal, ymd2ord, days_before_month, days_in_month.
      cbn [year month day].
      rewrite days_before_year_split by lia.
      rewrite is_leap_split by lia. fold leap.
      unfold MINYEAR, MAXYEAR.
      split; [|lia].
      repeat (apply andb_true_intro; split); try apply Z.leb_le; lia.
Qed.

(** *** The recurrence expander *)

Lemma new_date_in_range d recurrence i :
  valid d = true -> 0 <= i ->
  toordinal d + step_days recurrence * i <= MAXORDINAL ->
  new_date d recurrence i = Some (occurrence d recurrence i).
Proof.
  intros Hv Hi Hmax. pose proof (toordinal_pos d Hv) as Hpos.
  unfold new_date, occurrence, step_days, add_days in *.
  destruct (String.eqb recurrence "Daily").
  - replace ((0 <? toordinal d + i) && (toordinal d + i <=? MAXORDINAL)) with true;
      [reflexivity|].
    symmetry. apply andb_true_iff. split; [apply Z.ltb_lt | apply Z.leb_le]; lia.
  - destruct (String.eqb recurrence "Weekly"); [|reflexivity].
    replace ((0 <? toordinal d + 7 * i) && (toordinal d + 7 * i <=? MAXORDINAL))
      with true; [reflexivity|].
    symmetry. apply andb_true_iff. split; [apply Z.ltb_lt | apply Z.leb_le]; lia.
Qed.

Lemma new_date_occurrence d recurrence i nd :
  new_date d recurrence i = Some nd -> nd = occurrence d recurrence i.
Proof.
  unfold new_date, occurrence, add_days.
  destruct (String.eqb recurrence "Daily").
  - destruct (_ && _); [|discriminate]. now intros [= <-].
  - destruct (String.eqb recurrence "Weekly").
    + destruct (_ && _); [|discriminate]. now intros [= <-].
    + now intros [= <-].
Qed.

Lemma event_row_in_bounds in_bounds nd name activity time :
  in_bounds nd = true ->
  event_row in_bounds nd name activity time = Some (event_cells nd name activity time).
Proof. intros H. unfold event_row, weekday_name. now rewrite H. Qed.

Lemma event_row_some in_bounds nd name activity time row :
  event_row in_bounds nd name activity time = Some row ->
  in_bounds nd = true /\ row = event_cells nd name activity time.
Proof.
  unfold event_row, weekday_name. destruct (in_bounds nd); [|discriminate].
  intros [= <-]. now split.
Qed.

Lemma event_row_out_of_bounds in_bounds nd name activity time :
  in_bounds nd = false -> event_row in_bounds nd name activity time = None.
Proof. intros H. unfold event_row, weekday_name. now rewrite H. Qed.

Lemma expand_loop_ok in_bounds d name activity time recurrence :
  forall idx rows,
    (forall i, In i idx ->
       new_date d recurrence i = Some (occurrence d recurrence i)
       /\ in_bounds (occurrence d recurrence i) = true) ->
    expand_loop in_bounds d name activity time recurrence idx rows
    = Some (rows ++ map (fun i => event_cells (occurrence d recurrence i) name activity time)
                        idx).
Proof.
  induction idx as [|i idx IH]; intros rows Hall; cbn [expand_loop map].
  - now rewrite app_nil_r.
  - destruct (Hall i (or_introl eq_refl)) as [-> Hb].
    rewrite (event_row_in_bounds _ _ _ _ _ Hb).
    rewrite IH by (intros j Hj; apply Hall; now right).
    now rewrite <- app_assoc.
Qed.

(** C4 (as amended): as long as no occurrence is past 9999-12-31, the
    last date there is, and every occurrence is a date the timestamps of
    pandas hold, the expander returns the five canonical columns and
    exactly [count] rows; row [i] carries the start date itself for a
    one-off event, the date [i] days later for "Daily" and [i] weeks
    later for "Weekly", and the weekday name of that very date. *)
Theorem expand_recurring_events_rows in_bounds d name activity time recurrence count :
  valid d = true ->
  0 < count ->
  toordinal d + step_days recurrence * (count - 1) <= MAXORDINAL ->
  (forall i, 0 <= i < count -> in_bounds (occurrence d recurrence i) = true) ->
  exists df,
    expand_recurring_events in_bounds d name activity time recurrence count = Some df
    /\ columns df = COLUMNS
    /\ Z.of_nat (List.length (data df)) = count
    /\ forall i, 0 <= i < count ->
         let nd := occurrence d recurrence i in
         nth_error (data df) (Z.to_nat i)
         = Some [Date nd; Str (day_name nd); Str name; Str activity; Str time]
         /\ valid nd = true
         /\ toordinal nd = toordinal d + step_days recurrence * i.
Proof.
  intros Hv Hcount Hmax Hbounds.
  pose proof (toordinal_pos d Hv) as Hpos.
  assert (Hstep : 0 <= step_days recurrence).
  { unfold step_days. repeat destruct (String.eqb _ _); lia. }
  assert (Hin : forall i, 0 <= i < count ->
                  toordinal d + step_days recurrence * i <= MAXORDINAL) by nia.
  unfold expand_recurring_events.
  rewrite expand_loop_ok.
  2:{ intros i Hi. apply range_In in Hi. split.
      - apply new_date_in_range; [assumption | lia | apply Hin; lia].
      - apply Hbounds. lia. }
  eexists. split; [reflexivity|]. cbn [columns data app].
  split; [reflexivity|]. split.
  - rewrite length_map, range_length. lia.
  - intros i Hi. cbv zeta. split.
    + rewrite nth_error_map, range_nth by assumption. reflexivity.
    + specialize (Hin i Hi). unfold occurrence, step_days in *.
      destruct (String.eqb recurrence "Daily").
      * replace (toordinal d + 1 * i) with (toordinal d + i) in * by lia.
        apply fromordinal_toordinal. lia.
      * destruct (String.eqb recurrence "Weekly").
        -- apply fromordinal_toordinal. nia.
        -- split; [assumption | lia].
Qed.

Lemma expand_recurring_events_rows_witness :
  exists df,
    expand_recurring_events ns_bounds (mkdate 2024 1 3) "Vinoth" "gym" "7am" "Weekly" 3
    = Some df
    /\ columns df = COLUMNS
    /\ Z.of_nat (List.length (data df)) = 3
    /\ forall i, 0 <= i < 3 ->
         let nd := occurrence (mkdate 2024 1 3) "Weekly" i in
         nth_error (data df) (Z.to_nat i)
         = Some [Date nd; Str (day_name nd); Str "Vinoth"; Str "gym"; Str "7am"]
         /\ valid nd = true
         /\ toordinal nd = toordinal (mkdate 2024 1 3) + step_days "Weekly" * i.
Proof.
  apply (expand_recurring_events_rows ns_bounds (mkdate 2024 1 3) "Vinoth" "gym" "7am"
           "Weekly" 3).
  - reflexivity.
  - lia.
  - vm_compute. discriminate.
  - intros i Hi.
    assert (Hc : i = 0 \/ i = 1 \/ i = 2) by lia.
    destruct Hc as [->|[->| ->]]; reflexivity.
Defined.

(** C4 (as stated) fails where the dates end.  The second daily
    occurrence of an event on 9999-12-31 overflows, whatever dates the
    timestamps hold; and with the timestamps of pandas 2 a single event
    on 2300-01-01 is out of bounds.  No table is returned. *)
Lemma expand_recurring_events_overflow :
  valid (mkdate 9999 12 31) = true
  /\ 0 < 2
  /\ expand_recurring_events no_bounds (mkdate 9999 12 31) "Vinoth" "gym" "7am" "Daily" 2
     = None
  /\ expand_recurring_events ns_bounds (mkdate 9999 12 31) "Vinoth" "gym" "7am" "Daily" 2
     = None
  /\ valid (mkdate 2300 1 1) = true
  /\ 0 < 1
  /\ expand_recurring_events ns_bounds (mkdate 2300 1 1) "Vinoth" "gym" "7am" "None" 1
     = None.
Proof. repeat split. Qed.

Example expand_daily_5 :
  expand_recurring_events ns_bounds (mkdate 2024 2 27) "Vinoth" "gym" "7am" "Daily" 5
  = Some (mkDF COLUMNS
      [ [Date (mkdate 2024 2 27); Str "Tuesday"; Str "Vinoth"; Str "gym"; Str "7am"];
        [Date (mkdate 2024 2 28); Str "Wednesday"; Str "Vinoth"; Str "gym"; Str "7am"];
        [Date (mkdate 2024 2 29); Str "Thursday"; Str "Vinoth"; Str "gym"; Str "7am"];
        [Date (mkdate 2024 3 1); Str "Friday"; Str "Vinoth"; Str "gym"; Str "7am"];
        [Date (mkdate 2024 3 2); Str "Saturday"; Str "Vinoth"; Str "gym"; Str "7am"] ]).
Proof. reflexivity. Qed.

(** *** Columns of a row *)

Lemma pick_notin c cols : forall row, ~ In c cols -> pick c cols row = [].
Proof.
  induction cols as [|k cols IH]; intros [|x row] Hn; cbn; try reflexivity.
  destruct (String.eqb_spec k c) as [->|_].
  - exfalso. apply Hn. now left.
  - apply IH. intros H. apply Hn. now right.
Qed.

Lemma pick_unique c cols :
  forall row, NoDup cols -> In c cols -> List.length row = List.length cols ->
              pick c cols row = [cell_of c cols row].
Proof.
  unfold cell_of.
  induction cols as [|k cols IH]; intros [|x row] Hnd Hin Hlen; cbn in *;
    try contradiction; try discriminate.
  inversion Hnd as [|? ? Hk Hnd']; subst.
  destruct (String.eqb_spec k c) as [->|Hne].
  - now rewrite pick_notin.
  - destruct Hin as [->|Hin]; [contradiction|].
    apply IH; auto.
Qed.

Lemma pick_nil c cols : pick c cols [] = [].
Proof. now destruct cols. Qed.

Lemma pick_keep keep c cols :
  forall row, pick c (filter keep cols) (keep_cells keep cols row)
              = if keep c then pick c cols row else [].
Proof.
  induction cols as [|k cols IH]; intros [|x row]; cbn.
  - now destruct (keep c).
  - now destruct (keep c).
  - rewrite !pick_nil. now destruct (keep c).
  - destruct (keep k) eqn:Hk; cbn; rewrite IH.
    + destruct (String.eqb_spec k c) as [->|_]; [now rewrite Hk|reflexivity].
    + destruct (String.eqb_spec k c) as [->|_]; [now rewrite Hk|reflexivity].
Qed.

Lemma keep_cells_length {A} keep cols :
  forall row : list A, List.length row = List.length cols ->
              List.length (keep_cells keep cols row) = List.length (filter keep cols).
Proof.
  induction cols as [|k cols IH]; intros [|x row] Hlen; cbn in *; try discriminate;
    try reflexivity.
  destruct (keep k); cbn; auto.
Qed.

Lemma pick_snoc c cols k v :
  forall row, List.length row = List.length cols ->
              pick c (cols ++ [k]) (row ++ [v])
              = pick c cols row ++ (if String.eqb k c then [v] else []).
Proof.
  induction cols as [|k0 cols IH]; intros [|x row] Hlen; cbn in *; try discriminate.
  - now destruct (String.eqb k c).
  - destruct (String.eqb k0 c); cbn; rewrite IH by lia; reflexivity.
Qed.

Lemma filter_eqb_unique c cols :
  NoDup cols -> In c cols -> filter (String.eqb c) cols = [c].
Proof.
  induction cols as [|k cols IH]; intros Hnd Hin; [contradiction|].
  inversion Hnd as [|? ? Hk Hnd']; subst. cbn.
  destruct (String.eqb_spec c k) as [->|Hne].
  - f_equal. clear IH Hin Hnd. induction cols as [|j cols IH]; [reflexivity|].
    cbn. destruct (String.eqb_spec k j) as [->|_].
    + exfalso. apply Hk. now left.
    + apply IH; [intros H; apply Hk; now right | now inversion Hnd'].
  - destruct Hin as [->|Hin]; [contradiction|]. auto.
Qed.

Lemma has_column_In c df : has_column c df = true <-> In c (columns df).
Proof.
  unfold has_column. rewrite existsb_exists. split.
  - intros (k & Hin & Hk). apply String.eqb_eq in Hk. now subst.
  - intros Hin. exists c. split; [assumption | apply String.eqb_refl].
Qed.

(** *** Normalisation, row by row *)

Lemma canonical_named c : In c COLUMNS -> keep_named c = true.
Proof.
  intros H. repeat (destruct H as [<-|H]; [reflexivity|]). contradiction.
Qed.

Section EnsureColumns.

Variable cols : list string.
Hypothesis cols_nodup : NoDup cols.

Lemma shaped_loc : shaped cols (filter keep_named cols) (keep_cells keep_named cols).
Proof.
  constructor.
  - now apply NoDup_filter.
  - intros c Hin Hk. apply filter_In. now split.
  - intros r Hr. now apply keep_cells_length.
  - intros c r Hr Hc Hin. apply filter_In in Hin. destruct Hin as [Hin Hk].
    rewrite pick_keep, Hk. now apply pick_unique.
Qed.

Lemma shaped_ensure cols' g c0 rows :
  In c0 COLUMNS -> shaped cols cols' g ->
  exists cols'' g'',
    ensure_column (mkDF cols' (map g rows)) c0 = mkDF cols'' (map g'' rows)
    /\ shaped cols cols'' g'' /\ In c0 cols'' /\ (forall c, In c cols' -> In c cols'').
Proof.
  intros Hc0 Hs. unfold ensure_column.
  destruct (has_column c0 (mkDF cols' (map g rows))) eqn:Hhas.
  - apply has_column_In in Hhas. cbn in Hhas.
    exists cols', g. split; [reflexivity|]. split; [assumption|]. split; auto.
  - assert (Hnot : ~ In c0 cols').
    { intros Hin. apply (has_column_In c0 (mkDF cols' (map g rows))) in Hin.
      congruence. }
    exists (cols' ++ [c0]), (fun r => g r ++ [NA]).
    split; [unfold add_column; cbn; now rewrite map_map|].
    split; [|split; [apply in_or_app; right; now left
                    | intros c Hc; apply in_or_app; now left]].
    destruct Hs as [Hnd Hnamed Hlen Hpick]. constructor.
    + apply NoDup_app; repeat split; auto.
      * constructor; [intros []|constructor].
      * intros c Hc [<-|[]]. contradiction.
    + intros c Hin Hk. apply in_or_app. left. auto.
    + intros r Hr. rewrite !length_app, Hlen by assumption. reflexivity.
    + intros c r Hr Hc Hin. rewrite pick_snoc by auto.
      destruct (String.eqb_spec c0 c) as [->|Hne].
      * rewrite pick_notin by assumption. cbn. unfold cell_of.
        rewrite pick_notin; [reflexivity|].
        intros Hcols. apply Hnot. apply Hnamed; [assumption|].
        now apply canonical_named.
      * rewrite app_nil_r. apply Hpick; auto.
        apply in_app_or in Hin. destruct Hin as [Hin|[->|[]]]; [assumption|contradiction].
Qed.

Lemma shaped_fold rows : forall cs cols' g,
  (forall c, In c cs -> In c COLUMNS) -> shaped cols cols' g ->
  exists cols'' g'',
    fold_left ensure_column cs (mkDF cols' (map g rows)) = mkDF cols'' (map g'' rows)
    /\ shaped cols cols'' g'' /\ (forall c, In c cs -> In c cols'')
    /\ (forall c, In c cols' -> In c cols'').
Proof.
  induction cs as [|c0 cs IH]; intros cols' g Hcs Hs; cbn [fold_left].
  - exists cols', g. split; [reflexivity|]. split; [assumption|].
    split; [intros c []|auto].
  - destruct (shaped_ensure cols' g c0 rows (Hcs c0 (or_introl eq_refl)) Hs)
      as (cols1 & g1 & -> & Hs1 & Hin1 & Hmono1).
    destruct (IH cols1 g1 (fun c H => Hcs c (or_intror H)) Hs1)
      as (cols2 & g2 & -> & Hs2 & Hin2 & Hmono2).
    exists cols2, g2. split; [reflexivity|]. split; [assumption|].
    split; [intros c [<-|Hc]; auto|auto].
Qed.

End EnsureColumns.

Section FiveColumns.

Context {X : Type} (a b c d e : X -> cell).

Let row5 (x : X) : list cell := [a x; b x; c x; d x; e x].

Lemma getitem_Date_rows xs :
  getitem "Date" (mkDF COLUMNS (map row5 xs)) = Some (map a xs).
Proof.
  unfold getitem. cbn. f_equal.
  induction xs as [|x xs IH]; cbn; [reflexivity|now rewrite IH].
Qed.

Lemma setitem_Date_rows (F : cell -> cell) xs :
  setitem "Date" (map F (map a xs)) (mkDF COLUMNS (map row5 xs))
  = mkDF COLUMNS (map (fun x => [F (a x); b x; c x; d x; e x]) xs).
Proof.
  unfold setitem. cbn. f_equal.
  induction xs as [|x xs IH]; cbn; [reflexivity|now rewrite IH].
Qed.

Lemma setitem_Weekday_rows (F : cell -> cell) xs :
  setitem "Weekday" (map F (map a xs)) (mkDF COLUMNS (map row5 xs))
  = mkDF COLUMNS (map (fun x => [a x; F (a x); c x; d x; e x]) xs).
Proof.
  unfold setitem. cbn. f_equal.
  induction xs as [|x xs IH]; cbn; [reflexivity|now rewrite IH].
Qed.

End FiveColumns.

Section SanitizeFacts.

Variable to_datetime : cell -> option PyDate.date.

Lemma sanitize_rows df :
  wf df -> NoDup (columns df) ->
  sanitize_remote_df to_datetime (Some df)
  = Some (mkDF COLUMNS (map (sanitized_row to_datetime (columns df)) (data df))).
Proof.
  intros Hwf Hnd. destruct df as [cols rows]. cbn [columns data] in *.
  unfold sanitize_remote_df.
  change (loc_columns (fun c => negb (is_unnamed c)) (mkDF cols rows))
    with (mkDF (filter keep_named cols) (map (keep_cells keep_named cols) rows)).
  destruct (shaped_fold cols rows COLUMNS _ _ (fun c H => H) (shaped_loc cols Hnd))
    as (cols2 & g2 & -> & Hs & Hall & _).
  destruct Hs as [Hnd2 _ Hlen2 Hpick2].
  assert (Hget : getitem_list COLUMNS (mkDF cols2 (map g2 rows))
                 = Some (mkDF COLUMNS
                           (map (fun r => [cell_of "Date" cols r; cell_of "Weekday" cols r;
                                           cell_of "Name" cols r; cell_of "Activity" cols r;
                                           cell_of "Time" cols r]) rows))).
  { unfold getitem_list.
    replace (forallb (fun c => has_column c (mkDF cols2 (map g2 rows))) COLUMNS)
      with true.
    2:{ symmetry. apply forallb_forall. intros c Hc. apply has_column_In. cbn. auto. }
    f_equal. cbn [columns data]. f_equal.
    - unfold COLUMNS. cbn [flat_map].
      rewrite !filter_eqb_unique by (auto; apply Hall; cbn; tauto). reflexivity.
    - rewrite map_map. apply map_ext_in. intros r Hr.
      assert (Hr' : List.length r = List.length cols)
        by (unfold wf in Hwf; cbn in Hwf; rewrite Forall_forall in Hwf; auto).
      unfold COLUMNS. cbn [flat_map].
      rewrite !Hpick2 by (auto; try apply Hall; cbn; tauto). reflexivity. }
  rewrite Hget.
  rewrite getitem_Date_rows, setitem_Date_rows.
  rewrite (getitem_Date_rows
             (fun r => dt_date (to_datetime (cell_of "Date" cols r)))).
  rewrite (setitem_Weekday_rows
             (fun r => dt_date (to_datetime (cell_of "Date" cols r)))).
  reflexivity.
Qed.

End SanitizeFacts.



(** C3: in every row of a normalised table the Weekday cell is the
    English weekday name of the row's Date cell, and it is null exactly
    when the Date cell is null; the Weekday cells read from the store
    play no part. *)
Theorem sanitize_weekday_from_date
  (to_datetime : cell -> option PyDate.date) (df : option DataFrame) out :
  to_datetime NaT = None ->
  (forall c d, to_datetime c = Some d -> to_datetime (Date d) = Some d) ->
  (forall d, df = Some d -> table d) ->
  sanitize_remote_df to_datetime df = Some out ->
  Forall (fun o => exists date weekday name activity time,
              o = [date; weekday; name; activity; time]
              /\ ((exists d, date = Date d /\ weekday = Str (day_name d))
                  \/ (date = NaT /\ weekday = NaN))
              /\ (isna weekday = true <-> isna date = true))
         (data out).
Proof.
  intros Hnat Hidem Hdf Hout. destruct df as [d|].
  - destruct (Hdf d eq_refl) as [Hwf Hnd].
    rewrite (sanitize_rows to_datetime d Hwf Hnd) in Hout. injection Hout as <-.
    cbn [data]. apply Forall_forall. intros o Ho.
    apply in_map_iff in Ho. destruct Ho as (r & <- & _).
    unfold sanitized_row. cbv zeta.
    destruct (to_datetime (cell_of "Date" (columns d) r)) as [x|] eqn:Hx; cbn [dt_date].
    + rewrite (Hidem _ _ Hx). cbn [dt_strftime_A].
      do 5 eexists. split; [reflexivity|]. split; [left; eauto|].
      cbn. split; discriminate.
    + rewrite Hnat. cbn [dt_strftime_A].
      do 5 eexists. split; [reflexivity|]. split; [right; auto|].
      cbn. split; reflexivity.
  - cbn in Hout. injection Hout as <-. constructor.
Qed.

Lemma parse_iso_valid s d : parse_iso s = Some d -> valid d = true.
Proof.
  unfold parse_iso.
  repeat match goal with
         | |- context [match ?l with [] => _ | _ :: _ => _ end] =>
             destruct l; try discriminate
         end.
  destruct (_ && _); [|discriminate].
  repeat match goal with
         | |- context [match ?o with Some _ => _ | None => _ end] =>
             destruct o; try discriminate
         end.
  destruct (valid _) eqn:Hv; [|discriminate].
  intros H. injection H as <-. exact Hv.
Qed.

Lemma to_datetime_iso_again c d :
  to_datetime_iso c = Some d -> to_datetime_iso (Date d) = Some d.
Proof.
  intros H. assert (Hv : valid d = true).
  { destruct c; cbn in H; try discriminate.
    - now apply parse_iso_valid in H.
    - destruct (valid d0) eqn:Hv; [|discriminate]. now injection H as <-. }
  cbn. now rewrite Hv.
Qed.

Lemma sanitize_weekday_from_date_witness :
  Forall (fun o => exists date weekday name activity time,
              o = [date; weekday; name; activity; time]
              /\ ((exists d, date = Date d /\ weekday = Str (day_name d))
                  \/ (date = NaT /\ weekday = NaN))
              /\ (isna weekday = true <-> isna date = true))
         [[Date (mkdate 2024 1 3); Str "Wednesday"; Str "Vinoth"; Str "gym"; NaN];
          [NaT; NaN; Str "Divya"; Str "yoga"; Str "6pm"]].
Proof.
  apply (sanitize_weekday_from_date to_datetime_iso
           (Some (mkDF ["Date"; "Weekday"; "Name"; "Activity"; "Time"]
                       [[Str "2024-01-03"; Str "Friday"; Str "Vinoth"; Str "gym"; NaN];
                        [NaN; Str "Monday"; Str "Divya"; Str "yoga"; Str "6pm"]]))
           (mkDF COLUMNS
                 [[Date (mkdate 2024 1 3); Str "Wednesday"; Str "Vinoth"; Str "gym"; NaN];
                  [NaT; NaN; Str "Divya"; Str "yoga"; Str "6pm"]])).
  - reflexivity.
  - exact to_datetime_iso_again.
  - intros d Hd. injection Hd as <-. split.
    + repeat constructor.
    + repeat constructor; cbn; intuition discriminate.
  - vm_compute. reflexivity.
Defined.

(** *** Writing the table and reading it back *)

Lemma digit_value_digit n : digit_value (digit n) = Some (n mod 10).
Proof.
  unfold digit_value, digit.
  pose proof (Z.mod_pos_bound n 10 ltac:(lia)) as Hb.
  rewrite nat_ascii_embedding by lia.
  replace ((48 <=? 48 + Z.to_nat (n mod 10))%nat
           && (48 + Z.to_nat (n mod 10) <=? 57)%nat) with true.
  - f_equal. lia.
  - symmetry. apply andb_true_iff. split; apply Nat.leb_le; lia.
Qed.

Lemma number_pad2 n : 0 <= n <= 99 -> number (list_ascii_of_string (pad2 n)) = Some n.
Proof.
  intros Hn. unfold number, pad2. cbn [list_ascii_of_string fold_left].
  rewrite !digit_value_digit. f_equal. Z.div_mod_to_equations. lia.
Qed.

Lemma number_pad4 n : 0 <= n <= 9999 -> number (list_ascii_of_string (pad4 n)) = Some n.
Proof.
  intros Hn. unfold number, pad4, pad2. cbn [list_ascii_of_string fold_left].
  rewrite !digit_value_digit. f_equal. Z.div_mod_to_equations. lia.
Qed.

Lemma days_in_month_le y m : days_in_month y m <= 31.
Proof.
  unfold days_in_month. destruct ((m =? 2) && is_leap y); [lia|].
  unfold DAYS_IN_MONTH.
  repeat match goal with
         | |- context [match ?x with _ => _ end] => destruct x; try lia
         end.
Qed.

Lemma parse_iso_isoformat d : valid d = true -> parse_iso (isoformat d) = Some d.
Proof.
  intros Hv. pose proof (valid_bounds d Hv) as (Hy & Hm & Hd).
  pose proof (days_in_month_le (year d) (month d)).
  destruct d as [y m dd]. cbn [year month day] in *.
  unfold parse_iso, isoformat. cbn [year month day].
  change (list_ascii_of_string (pad4 y ++ "-" ++ pad2 m ++ "-" ++ pad2 dd)%string)
    with (list_ascii_of_string (pad4 y) ++ ["-"%char]
          ++ list_ascii_of_string (pad2 m) ++ ["-"%char]
          ++ list_ascii_of_string (pad2 dd)).
  unfold pad4 at 1, pad2 at 1 2 3. cbn [list_ascii_of_string app].
  cbn [Ascii.eqb Bool.eqb andb].
  pose proof (number_pad4 y ltac:(lia)) as E4.
  pose proof (number_pad2 m ltac:(lia)) as E2.
  pose proof (number_pad2 dd ltac:(lia)) as E2'.
  unfold pad4, pad2 in E4, E2, E2'. cbn [list_ascii_of_string] in E4, E2, E2'.
  rewrite E4, E2, E2', Hv. reflexivity.
Qed.

Lemma default_na_short s : default_na s = true -> (String.length s <= 8)%nat.
Proof.
  unfold default_na. rewrite existsb_exists. intros (k & Hin & Hk).
  apply String.eqb_eq in Hk. subst k.
  repeat (destruct Hin as [<-|Hin]; [cbn; lia|]). contradiction.
Qed.

Lemma default_na_isoformat d : default_na (isoformat d) = false.
Proof.
  destruct (default_na (isoformat d)) eqn:H; [|reflexivity].
  apply default_na_short in H. cbn in H. lia.
Qed.

Section RoundTrip.

Variable to_datetime : cell -> option PyDate.date.
Variable na_value : string -> bool.

Hypothesis null_is_NaT : forall c, isna c = true -> to_datetime c = None.
Hypothesis iso_is_read :
  forall d, valid d = true -> to_datetime (Str (isoformat d)) = to_datetime (Date d).
Hypothesis empty_is_na : na_value "" = true.
Hypothesis iso_is_not_na : forall d, valid d = true -> na_value (isoformat d) = false.

Lemma upload_rows {X} (a b c d e : X -> cell) xs :
  option_map (fun u => of_grid na_value (to_grid u))
    (upload_df (mkDF COLUMNS (map (fun x => [a x; b x; c x; d x; e x]) xs)))
  = Some (mkDF COLUMNS
            (map (fun x => [reread na_value (date_text (a x)); reread na_value (b x); reread na_value (c x);
                            reread na_value (d x); reread na_value (e x)]) xs)).
Proof.
  unfold upload_df.
  rewrite getitem_Date_rows, setitem_Date_rows.
  cbn [option_map]. unfold of_grid, to_grid. cbn [header records columns data].
  rewrite !map_map. reflexivity.
Qed.

Lemma canonical_rows t :
  canonical t ->
  t = mkDF COLUMNS (map (fun r => [nth 0 r NA; nth 1 r NA; nth 2 r NA;
                                   nth 3 r NA; nth 4 r NA])%nat (data t)).
Proof.
  intros [Hcols Hrows]. destruct t as [cols rows]. cbn [columns data] in *. subst cols.
  f_equal. rewrite <- (map_id rows) at 1. apply map_ext_in. intros r Hr.
  rewrite Forall_forall in Hrows.
  destruct (Hrows r Hr) as (a & b & c & d & e & -> & _). reflexivity.
Qed.

Lemma upload_canonical t :
  canonical t ->
  option_map (fun u => of_grid na_value (to_grid u)) (upload_df t)
  = Some (mkDF COLUMNS
            (map (fun r => [reread na_value (date_text (nth 0 r NA)); reread na_value (nth 1 r NA);
                            reread na_value (nth 2 r NA); reread na_value (nth 3 r NA);
                            reread na_value (nth 4 r NA)])%nat (data t))).
Proof.
  intros Hc. rewrite (canonical_rows t Hc) at 1. apply upload_rows.
Qed.

Lemma reread_text c : survives_csv na_value c -> same_cell (reread na_value c) c.
Proof.
  unfold reread, to_csv_field. intros [Hna|(s & -> & Hs)].
  - rewrite Hna, empty_is_na. right. now split.
  - cbn. rewrite Hs. now left.
Qed.

Lemma reread_date c :
  isna c = true \/ (exists d, c = Date d /\ valid d = true) ->
  to_datetime (reread na_value (date_text c)) = to_datetime c.
Proof.
  unfold reread, to_csv_field, date_text. intros [Hna|(d & -> & Hv)].
  - rewrite Hna. cbn. rewrite empty_is_na.
    rewrite (null_is_NaT NaN eq_refl). symmetry. now apply null_is_NaT.
  - cbn [isna str_of_cell]. rewrite (iso_is_not_na d Hv). now apply iso_is_read.
Qed.

End RoundTrip.

Lemma canonical_wf t : canonical t -> wf t /\ NoDup (columns t).
Proof.
  intros [Hcols Hrows]. split.
  - unfold wf. rewrite Hcols. eapply Forall_impl; [|exact Hrows].
    intros r (a & b & c & d & e & -> & _). reflexivity.
  - rewrite Hcols. repeat constructor; cbn; intuition discriminate.
Qed.

Lemma Forall2_map_in {A B} (R : B -> B -> Prop) (f g : A -> B) l :
  (forall x, In x l -> R (f x) (g x)) -> Forall2 R (map f l) (map g l).
Proof.
  induction l as [|x l IH]; intros H; cbn [map]; constructor.
  - apply H. now left.
  - apply IH. intros y Hy. apply H. now right.
Qed.

Lemma row_round_trip
  (to_datetime : cell -> option PyDate.date) (na_value : string -> bool) r :
  (forall c, isna c = true -> to_datetime c = None) ->
  (forall d, valid d = true ->
             to_datetime (Str (isoformat d)) = to_datetime (Date d)) ->
  na_value "" = true ->
  (forall d, valid d = true -> na_value (isoformat d) = false) ->
  canonical_row r ->
  survives_csv na_value (nth 2 r NA) /\ survives_csv na_value (nth 3 r NA)
  /\ survives_csv na_value (nth 4 r NA) ->
  Forall2 same_cell
    (sanitized_row to_datetime COLUMNS
       [reread na_value (date_text (nth 0 r NA)); reread na_value (nth 1 r NA);
        reread na_value (nth 2 r NA); reread na_value (nth 3 r NA);
        reread na_value (nth 4 r NA)])
    (sanitized_row to_datetime COLUMNS r).
Proof.
  intros Hnull Hiso Hempty Hnotna (dc & wc & n & a & tm & -> & Hdc & _) (Hn & Ha & Htm).
  cbn [nth] in *. unfold sanitized_row. cbv zeta.
  change (cell_of "Date" COLUMNS [?x0; ?x1; ?x2; ?x3; ?x4]) with x0.
  change (cell_of "Name" COLUMNS [?x0; ?x1; ?x2; ?x3; ?x4]) with x2.
  change (cell_of "Activity" COLUMNS [?x0; ?x1; ?x2; ?x3; ?x4]) with x3.
  change (cell_of "Time" COLUMNS [?x0; ?x1; ?x2; ?x3; ?x4]) with x4.
  rewrite (reread_date to_datetime na_value Hnull Hiso Hempty Hnotna dc Hdc).
  constructor; [now left|]. constructor; [now left|].
  repeat (constructor; [now apply (reread_text na_value Hempty)|]).
  constructor.
Qed.


Lemma to_datetime_iso_null c : isna c = true -> to_datetime_iso c = None.
Proof. destruct c; cbn; intros H; try reflexivity; discriminate. Qed.

Lemma to_datetime_iso_isoformat d :
  valid d = true -> to_datetime_iso (Str (isoformat d)) = to_datetime_iso (Date d).
Proof.
  intros Hv. cbn [to_datetime_iso]. now rewrite parse_iso_isoformat, Hv.
Qed.



(** The layout matters: an Activity that ends in a carriage return
    passes every test on the cells, but in a layout that does not quote
    it the carriage return ends the record, and two rows are read where
    one was written. *)
Example carriage_return_splits_the_row :
  let cr := String (ascii_of_nat 13) EmptyString in
  let t := mkDF COLUMNS
             [[Date (mkdate 2024 1 3); Str "Wednesday"; Str "Vinoth";
               Str ("x" ++ cr); Str "7am"]] in
  survives_csv default_na (Str ("x" ++ cr))
  /\ ~ fields_come_back plain_csv_text plain_csv_fields t
  /\ through_csv plain_csv_text plain_csv_fields to_datetime_iso default_na t
     = Some (mkDF COLUMNS
          [[Date (mkdate 2024 1 3); Str "Wednesday"; Str "Vinoth"; Str "x"; NaN];
           [NaT; NaN; NaN; NaN; NaN]]).
Proof.
  cbv zeta. split; [|split].
  - right. eexists. split; reflexivity.
  - intros H. specialize (H _ eq_refl). vm_compute in H. discriminate.
  - reflexivity.
Qed.

(** *** The store client *)

Lemma run_get_github_sha {S} (serve : Request -> S -> Response * S) (s : S) token :
  let g := serve (GET API_URL (auth_headers token)) s in
  run serve (get_github_sha token) s
  = (if not_json (fst g) then None else Some (sha_of_response (fst g)),
     snd g, [GET API_URL (auth_headers token)]).
Proof.
  cbv zeta. unfold get_github_sha, not_json, sha_of_response. cbn [run].
  destruct (serve (GET API_URL (auth_headers token)) s) as [r s1]. cbn [fst snd].
  destruct (status_code r =? 200); [|reflexivity].
  destruct (json r); reflexivity.
Qed.

Lemma run_bind {S A B} (serve : Request -> S -> Response * S) (m : io A) (f : A -> io B) :
  forall s,
    run serve (Http.bind m f) s
    = match run serve m s with
      | (Some a, s1, log1) =>
          let '(b, s2, log2) := run serve (f a) s1 in (b, s2, log1 ++ log2)
      | (None, s1, log1) => (None, s1, log1)
      end.
Proof.
  induction m as [a| |rq k IH]; intros s; cbn [Http.bind run].
  - destruct (run serve (f a) s) as [[b s2] log2]. reflexivity.
  - reflexivity.
  - destruct (serve rq s) as [r s1]. rewrite IH.
    destruct (run serve (k r) s1) as [[[a|] s2] log1]; [|reflexivity].
    destruct (run serve (f a) s2) as [[b s3] log2]. reflexivity.
Qed.

Lemma run_update {S} (csv_text : Grid -> string) (b64encode : string -> string)
  (serve : Request -> S -> Response * S) (s : S) df token message doc :
  truthy token = true ->
  csv_content csv_text df = Some doc ->
  run serve (update_schedule_on_github csv_text b64encode df token message) s
  = let g := serve (GET API_URL (auth_headers token)) s in
    if not_json (fst g) then (None, snd g, [GET API_URL (auth_headers token)])
    else
      let payload := put_payload message (b64encode doc) (sha_of_response (fst g)) in
      let p := serve (PUT API_URL payload (put_headers token)) (snd g) in
      (Some ((status_code (fst p) =? 200) || (status_code (fst p) =? 201),
             Some (status_code (fst p)), text (fst p)),
       snd p,
       [GET API_URL (auth_headers token); PUT API_URL payload (put_headers token)]).
Proof.
  intros Htok Hcsv. unfold update_schedule_on_github.
  rewrite Htok, Hcsv. cbn [negb]. rewrite run_bind, run_get_github_sha. cbv zeta.
  destruct (serve (GET API_URL (auth_headers token)) s) as [r1 s1]. cbn [fst snd].
  destruct (not_json r1); [reflexivity|].
  cbn [run]. unfold put_payload, put_headers.
  destruct (serve _ s1) as [r2 s2]. reflexivity.
Qed.

(** C1: the write re-fetches the sha itself, right before the PUT: run
    against any store in any state, it sends one GET and then one PUT, and
    the payload of the PUT carries the message, the encoded table and,
    under "sha", the sha of that GET's response; the "sha" field is there
    exactly when that response gave a (non-empty) sha.  No sha seen
    earlier is an input of the write.  (When the GET is answered by a 200
    whose body is not JSON, the lookup raises and no PUT is sent.) *)
Theorem update_sends_fresh_sha {S : Type}
  (csv_text : Grid -> string) (b64encode : string -> string)
  (serve : Request -> S -> Response * S) (s : S)
  df token message doc :
  truthy token = true ->
  csv_content csv_text df = Some doc ->
  let r1 := fst (serve (GET API_URL (auth_headers token)) s) in
  let s1 := snd (serve (GET API_URL (auth_headers token)) s) in
  let fresh := sha_of_response r1 in
  (not_json r1 = false ->
   exists payload,
     let r2 := fst (serve (PUT API_URL payload (put_headers token)) s1) in
     let s2 := snd (serve (PUT API_URL payload (put_headers token)) s1) in
     run serve (update_schedule_on_github csv_text b64encode df token message) s
     = (Some ((status_code r2 =? 200) || (status_code r2 =? 201),
              Some (status_code r2), text r2),
        s2,
        [GET API_URL (auth_headers token); PUT API_URL payload (put_headers token)])
     /\ payload_get "message" payload = Some message
     /\ payload_get "content" payload = Some (b64encode doc)
     /\ payload_get "sha" payload = (if truthy fresh then fresh else None)
     /\ (truthy fresh = true <-> exists v, In ("sha", v) payload))
  /\ (not_json r1 = true ->
      run serve (update_schedule_on_github csv_text b64encode df token message) s
      = (None, s1, [GET API_URL (auth_headers token)])).
Proof.
  intros Htok Hcsv. cbv zeta.
  rewrite (run_update csv_text b64encode serve s df token message doc Htok Hcsv).
  cbv zeta. split; intros Hjson; rewrite Hjson; [|reflexivity].
  set (fresh := sha_of_response (fst (serve (GET API_URL (auth_headers token)) s))).
  exists (put_payload message (b64encode doc) fresh).
  split; [reflexivity|].
  unfold put_payload. cbn. destruct fresh as [v|]; cbn.
  - destruct (String.eqb v "") eqn:Hv; cbn.
    + repeat split; try discriminate.
      intros (w & [H|[H|[]]]); discriminate.
    + repeat split; eauto.
  - repeat split; try discriminate.
    intros (w & [H|[H|[]]]); discriminate.
Qed.

Lemma update_sends_fresh_sha_witness :
  exists payload,
    run mock_serve
      (update_schedule_on_github plain_csv_text mock_encode
         (mkDF COLUMNS [[Date (mkdate 2024 1 3); Str "Wednesday"; Str "Vinoth";
                         Str "gym"; Str "7am"]])
         (Some "secret") "Add event(s) via UI") ["S2"; "S3"]
    = (Some (true, Some 200, "updated"), ["S3"],
       [GET API_URL [("Authorization", "token secret")];
        PUT API_URL payload (put_headers (Some "secret"))])
    /\ payload_get "sha" payload = Some "S2".
Proof.
  destruct (update_sends_fresh_sha plain_csv_text mock_encode mock_serve ["S2"; "S3"]
              (mkDF COLUMNS [[Date (mkdate 2024 1 3); Str "Wednesday"; Str "Vinoth";
                              Str "gym"; Str "7am"]])
              (Some "secret") "Add event(s) via UI" _
              eq_refl eq_refl) as [Hput _].
  destruct (Hput eq_refl) as (payload & Hrun & _ & _ & Hsha & _).
  exists payload. split; [exact Hrun | exact Hsha].
Defined.

(** The write after an earlier fetch: the fetch saw S1, another writer
    moved the blob to S2, and the PUT carries S2. *)
Example stale_sha_not_sent :
  run mock_serve
    (x <- fetch_remote_csv_via_api plain_csv_fields default_na mock_decode (Some "secret") ;;
     update_schedule_on_github plain_csv_text mock_encode
       (mkDF COLUMNS [[Date (mkdate 2024 1 3); Str "Wednesday"; Str "Vinoth";
                       Str "gym"; Str "7am"]])
       (Some "secret") "Add event(s) via UI")
    ["S1"; "S2"]
  = (Some (true, Some 200, "updated"), [],
     [GET API_URL [("Authorization", "token secret")];
      GET API_URL [("Authorization", "token secret")];
      PUT API_URL
        [("message", "Add event(s) via UI");
         ("content",
          plain_csv_text
            (mkGrid COLUMNS [["2024-01-03"; "Wednesday"; "Vinoth"; "gym"; "7am"]]));
         ("sha", "S2")]
        (put_headers (Some "secret"))]).
Proof. reflexivity. Qed.

(** Behind a gateway that answers the GET for the sha with a page of its
    own, the write raises and sends no PUT. *)
Example update_behind_gateway :
  run gateway_serve
    (update_schedule_on_github plain_csv_text mock_encode
       (mkDF COLUMNS [[Date (mkdate 2024 1 3); Str "Wednesday"; Str "Vinoth";
                       Str "gym"; Str "7am"]])
       (Some "secret") "Add event(s) via UI") 0%nat
  = (None, 1%nat, [GET API_URL [("Authorization", "token secret")]]).
Proof. reflexivity. Qed.

(** C7: without a token the write returns (False, None, "Missing token")
    at once: no request reaches the store, neither the GET for the sha
    nor the PUT, and the store stays as it was. *)
Theorem update_without_token {S : Type}
  (csv_text : Grid -> string) (b64encode : string -> string)
  (serve : Request -> S -> Response * S) (s : S)
  df token message :
  truthy token = false ->
  update_schedule_on_github csv_text b64encode df token message
  = Ret (false, None, "Missing token")
  /\ run serve (update_schedule_on_github csv_text b64encode df token message) s
     = (Some (false, None, "Missing token"), s, []).
Proof.
  intros Htok. unfold update_schedule_on_github. rewrite Htok. split; reflexivity.
Qed.

Lemma update_without_token_witness :
  run mock_serve
    (update_schedule_on_github plain_csv_text mock_encode
       (mkDF COLUMNS [[Date (mkdate 2024 1 3); Str "Wednesday"; Str "Vinoth";
                       Str "gym"; Str "7am"]]) None "Delete event") ["S1"]
  = (Some (false, None, "Missing token"), ["S1"], []).
Proof.
  apply (update_without_token plain_csv_text mock_encode mock_serve ["S1"]
           (mkDF COLUMNS [[Date (mkdate 2024 1 3); Str "Wednesday"; Str "Vinoth";
                           Str "gym"; Str "7am"]]) None "Delete event").
  reflexivity.
Defined.

Lemma run_fetch {S} (csv_fields : string -> option Grid) (na_value : string -> bool)
  (b64decode : string -> option string)
  (serve : Request -> S -> Response * S) (s : S) token :
  let g := serve (GET API_URL (auth_headers token)) s in
  run serve (fetch_remote_csv_via_api csv_fields na_value b64decode token) s
  = (if negb (status_code (fst g) =? 200) then Some (None, None)
     else match json (fst g) with
          | None => None
          | Some j =>
              Some (Some (match decoded csv_fields na_value b64decode (fst g) with
                          | Some df => df
                          | None => mkDF COLUMNS []
                          end),
                    dict_get "sha" j)
          end,
     snd g, [GET API_URL (auth_headers token)]).
Proof.
  cbv zeta. unfold fetch_remote_csv_via_api, decoded. cbn [run].
  destruct (serve (GET API_URL (auth_headers token)) s) as [r s1]. cbn [fst snd].
  destruct (status_code r =? 200); [|reflexivity]. cbn [negb].
  destruct (json r) as [j|]; [|reflexivity]. cbn [run].
  destruct (dict_get_default "content" "" j) as [c|]; [|reflexivity].
  destruct (b64decode c) as [raw|]; [|reflexivity].
  destruct (read_csv csv_fields na_value raw); reflexivity.
Qed.

(** C6: the fetch sends one GET.  It returns (None, None) exactly when
    the status of the response is not 200.  On a 200 whose body is a
    JSON object it returns the sha of that response with the table read
    from its payload, or with the empty canonical table when the payload
    does not decode or does not read as CSV.  On a 200 whose body is not
    JSON it raises: [r.json()] is called before the [try]. *)
Theorem fetch_remote_csv_result {S : Type}
  (csv_fields : string -> option Grid) (na_value : string -> bool)
  (b64decode : string -> option string)
  (serve : Request -> S -> Response * S) (s : S) token :
  let r := fst (serve (GET API_URL (auth_headers token)) s) in
  let s1 := snd (serve (GET API_URL (auth_headers token)) s) in
  exists res,
    run serve (fetch_remote_csv_via_api csv_fields na_value b64decode token) s
    = (res, s1, [GET API_URL (auth_headers token)])
    /\ (res = Some (None, None) <-> status_code r <> 200)
    /\ (status_code r = 200 -> json r = None -> res = None)
    /\ (status_code r = 200 ->
        forall j, json r = Some j ->
          (decoded csv_fields na_value b64decode r = None ->
           res = Some (Some (mkDF COLUMNS []), dict_get "sha" j))
          /\ (forall df, decoded csv_fields na_value b64decode r = Some df ->
                         res = Some (Some df, dict_get "sha" j))).
Proof.
  cbv zeta. rewrite run_fetch. cbv zeta.
  destruct (serve (GET API_URL (auth_headers token)) s) as [r s1]. cbn [fst snd].
  eexists. split; [reflexivity|].
  destruct (Z.eqb_spec (status_code r) 200) as [H200|H200]; cbn [negb].
  - split; [|split].
    + split; [|contradiction]. destruct (json r); discriminate.
    + intros _ ->. reflexivity.
    + intros _ j ->. split.
      * now intros ->.
      * now intros df ->.
  - split; [split; auto|]. split; intros; contradiction.
Qed.

Lemma fetch_remote_csv_result_witness :
  run garbled_serve
    (fetch_remote_csv_via_api plain_csv_fields default_na mock_decode (Some "secret")) 0%nat
  = (Some (Some (mkDF COLUMNS []), Some "S1"), 1%nat,
     [GET API_URL [("Authorization", "token secret")]])
  /\ run gateway_serve
       (fetch_remote_csv_via_api plain_csv_fields default_na mock_decode (Some "secret"))
       0%nat
     = (None, 1%nat, [GET API_URL [("Authorization", "token secret")]]).
Proof.
  split.
  - destruct (fetch_remote_csv_result plain_csv_fields default_na mock_decode
                garbled_serve 0%nat (Some "secret")) as (res & Hrun & _ & _ & Hjson).
    destruct (Hjson eq_refl _ eq_refl) as [Hnone _].
    rewrite Hrun, (Hnone eq_refl). reflexivity.
  - destruct (fetch_remote_csv_result plain_csv_fields default_na mock_decode
                gateway_serve 0%nat (Some "secret")) as (res & Hrun & _ & Hraise & _).
    rewrite Hrun, (Hraise eq_refl eq_refl). reflexivity.
Defined.

(** *** Deleting by label *)

Lemma label_cell_snoc r l :
  List.length r = 5%nat -> cell_of "Label" (COLUMNS ++ ["Label"]) (r ++ [Str l]) = Str l.
Proof.
  intros Hr. do 5 (destruct r as [|? r]; [discriminate|]).
  destruct r; [reflexivity|discriminate].
Qed.

Lemma drop_label_snoc (r : list cell) (x : cell) :
  List.length r = 5%nat ->
  keep_cells (fun k => negb (String.eqb k "Label")) (COLUMNS ++ ["Label"]) (r ++ [x]) = r.
Proof.
  intros Hr. do 5 (destruct r as [|? r]; [discriminate|]).
  destruct r; [reflexivity|discriminate].
Qed.

Lemma filter_with_label (q : cell -> bool) rows :
  Forall (fun r => List.length r = 5%nat) rows ->
  map (keep_cells (fun k => negb (String.eqb k "Label")) (COLUMNS ++ ["Label"]))
      (filter (fun r => q (cell_of "Label" (COLUMNS ++ ["Label"]) r))
              (map (fun r => r ++ [Str (label COLUMNS r)]) rows))
  = filter (fun r => q (Str (label COLUMNS r))) rows.
Proof.
  induction 1 as [|r rows Hr _ IH]; [reflexivity|].
  cbn [map filter]. rewrite label_cell_snoc by assumption.
  destruct (q (Str (label COLUMNS r))); cbn [map];
    [rewrite drop_label_snoc by assumption|]; now rewrite IH.
Qed.

(** C10: on a table with the canonical columns, when some row has the
    selected label, the table uploaded by the delete is the table
    fetched with exactly the rows of that label filtered out: every row
    whose label is the selected one is gone, duplicates included, and
    the rows with another label are all there, unchanged and in their
    order. *)
Theorem delete_selected_filters latest_df selected_label :
  columns latest_df = COLUMNS ->
  wf latest_df ->
  (exists r, In r (data latest_df) /\ label COLUMNS r = selected_label) ->
  exists updated_df,
    delete_selected latest_df selected_label = Some updated_df
    /\ columns updated_df = COLUMNS
    /\ data updated_df
       = filter (fun r => negb (String.eqb (label COLUMNS r) selected_label))
                (data latest_df)
    /\ (forall r, In r (data updated_df) -> label COLUMNS r <> selected_label)
    /\ (forall r, In r (data latest_df) -> label COLUMNS r <> selected_label ->
                  In r (data updated_df)).
Proof.
  intros Hcols Hwf (r0 & Hin0 & Hl0).
  destruct latest_df as [cols rows]. cbn [columns data] in *. subst cols.
  assert (H5 : Forall (fun r => List.length r = 5%nat) rows) by exact Hwf.
  unfold delete_selected, with_label, filter_rows, drop_column, loc_columns, label_is.
  cbn [columns data].
  destruct (filter _ (map _ rows)) as [|x xs] eqn:Hdel.
  - exfalso.
    assert (Hx : In (r0 ++ [Str (label COLUMNS r0)])
                    (filter (fun r => match cell_of "Label" (COLUMNS ++ ["Label"]) r with
                                      | Str l => String.eqb l selected_label
                                      | _ => false
                                      end)
                            (map (fun r => r ++ [Str (label COLUMNS r)]) rows))).
    { apply filter_In. split; [apply in_map_iff; exists r0; now split|].
      rewrite Forall_forall in H5. rewrite label_cell_snoc by auto.
      now apply String.eqb_eq. }
    rewrite Hdel in Hx. contradiction.
  - clear Hdel x xs. eexists. split; [reflexivity|]. cbn [columns data].
    split; [reflexivity|].
    pose proof (filter_with_label
                  (fun c => negb match c with
                                 | Str l => String.eqb l selected_label
                                 | _ => false
                                 end) rows H5) as E.
    cbv beta in E. rewrite E. clear E.
    split; [reflexivity|]. split.
    + intros r Hr. apply filter_In in Hr. destruct Hr as [_ Hr].
      apply negb_true_iff, String.eqb_neq in Hr. exact Hr.
    + intros r Hr Hne. apply filter_In. split; [assumption|].
      now apply negb_true_iff, String.eqb_neq.
Qed.

Lemma delete_selected_filters_witness :
  exists updated_df,
    delete_selected
      (mkDF COLUMNS
         [[Date (mkdate 2024 1 3); Str "Wednesday"; Str "Vinoth"; Str "gym"; Str "7am"];
          [NaT; NaN; Str "Divya"; Str "yoga"; NaN];
          [Date (mkdate 2024 1 3); Str "Wednesday"; Str "Vinoth"; Str "gym"; Str "7am"]])
      "2024-01-03 | Wednesday | Vinoth - gym @ 7am" = Some updated_df
    /\ data updated_df = [[NaT; NaN; Str "Divya"; Str "yoga"; NaN]].
Proof.
  destruct (delete_selected_filters
              (mkDF COLUMNS
                 [[Date (mkdate 2024 1 3); Str "Wednesday"; Str "Vinoth"; Str "gym";
                   Str "7am"];
                  [NaT; NaN; Str "Divya"; Str "yoga"; NaN];
                  [Date (mkdate 2024 1 3); Str "Wednesday"; Str "Vinoth"; Str "gym";
                   Str "7am"]])
              "2024-01-03 | Wednesday | Vinoth - gym @ 7am")
    as (u & Hu & _ & Hdata & _).
  - reflexivity.
  - repeat constructor.
  - eexists. split; [left; reflexivity | reflexivity].
  - exists u. split; [exact Hu | exact Hdata].
Defined.

(** *** The matcher finds the matches *)

Section MatcherFacts.

Context {R : Type}.

Lemma plus_greedy_sound p (k : list ascii -> option R) : forall s x,
  plus_greedy p k s = Some x ->
  exists w rest, s = w ++ rest /\ w <> [] /\ forallb p w = true /\ k rest = Some x.
Proof.
  induction s as [|c s IH]; intros x H; cbn in H; [discriminate|].
  destruct (p c) eqn:Hc; [|discriminate].
  destruct (plus_greedy p k s) as [y|] eqn:Hrec.
  - injection H as <-. destruct (IH y eq_refl) as (w & rest & -> & _ & Hw & Hk).
    exists (c :: w), rest. cbn. rewrite Hc, Hw. repeat split; auto. discriminate.
  - exists [c], s. cbn. rewrite Hc. repeat split; auto. discriminate.
Qed.

Lemma plus_lazy_sound p (k : list ascii -> option R) : forall s x,
  plus_lazy p k s = Some x ->
  exists w rest, s = w ++ rest /\ w <> [] /\ forallb p w = true /\ k rest = Some x.
Proof.
  induction s as [|c s IH]; intros x H; cbn in H; [discriminate|].
  destruct (p c) eqn:Hc; [|discriminate].
  destruct (k s) as [y|] eqn:Hk.
  - injection H as <-. exists [c], s. cbn. rewrite Hc. repeat split; auto. discriminate.
  - destruct (IH x H) as (w & rest & -> & _ & Hw & Hk').
    exists (c :: w), rest. cbn. rewrite Hc, Hw. repeat split; auto. discriminate.
Qed.

Lemma plus_greedy_complete p (k : list ascii -> option R) rest :
  (exists x, k rest = Some x) ->
  forall w, w <> [] -> forallb p w = true ->
            exists x, plus_greedy p k (w ++ rest) = Some x.
Proof.
  intros [x Hk]. induction w as [|c w IH]; intros Hne Hw; [contradiction|].
  cbn in *. apply andb_prop in Hw. destruct Hw as [Hc Hw]. rewrite Hc.
  destruct w as [|c' w].
  - cbn. destruct (plus_greedy p k rest); eauto.
  - destruct (IH ltac:(discriminate) Hw) as [y ->]. eauto.
Qed.

Lemma plus_lazy_complete p (k : list ascii -> option R) rest :
  (exists x, k rest = Some x) ->
  forall w, w <> [] -> forallb p w = true ->
            exists x, plus_lazy p k (w ++ rest) = Some x.
Proof.
  intros [x Hk]. induction w as [|c w IH]; intros Hne Hw; [contradiction|].
  cbn in *. apply andb_prop in Hw. destruct Hw as [Hc Hw]. rewrite Hc.
  destruct w as [|c' w].
  - cbn. rewrite Hk. eauto.
  - destruct (k ((c' :: w) ++ rest)); [eauto|].
    apply IH; [discriminate | assumption].
Qed.

Lemma exec_sound : forall r s caps (k : list ascii -> captures -> option R) x,
  exec r s caps k = Some x ->
  exists w rest caps',
    s = w ++ rest /\ matches r w rest caps caps' /\ k rest caps' = Some x.
Proof.
  induction r as [p|r1 IH1 r2 IH2|p|p|r IH|n r IH|]; intros s caps k x H; cbn [exec] in H.
  - destruct s as [|c s]; [discriminate|]. destruct (p c) eqn:Hc; [|discriminate].
    exists [c], s, caps. repeat split; auto. now constructor.
  - apply IH1 in H. destruct H as (w1 & rest1 & caps1 & -> & Hm1 & H).
    apply IH2 in H. destruct H as (w2 & rest & caps2 & -> & Hm2 & H).
    exists (w1 ++ w2), rest, caps2. rewrite app_assoc. repeat split; auto.
    econstructor; eauto.
  - apply plus_greedy_sound in H. destruct H as (w & rest & -> & Hne & Hw & H).
    exists w, rest, caps. repeat split; auto. now constructor.
  - apply plus_lazy_sound in H. destruct H as (w & rest & -> & Hne & Hw & H).
    exists w, rest, caps. repeat split; auto. now constructor.
  - destruct (exec r s caps k) as [y|] eqn:Hin.
    + injection H as <-. apply IH in Hin.
      destruct Hin as (w & rest & caps' & -> & Hm & Hk).
      exists w, rest, caps'. repeat split; auto. now apply m_opt_in.
    + exists [], s, caps. repeat split; auto. apply m_opt_out.
  - apply IH in H. destruct H as (w & rest & caps' & -> & Hm & H).
    exists w, rest, ((n, w) :: caps'). repeat split; [now constructor|].
    rewrite length_app, Nat.add_sub, firstn_app, Nat.sub_diag, firstn_all in H.
    cbn in H. now rewrite app_nil_r in H.
  - destruct s as [|c [|c' s]].
    + exists [], [], caps. repeat split; auto. constructor. now left.
    + destruct (Ascii.eqb_spec c newline) as [->|]; [|discriminate].
      exists [], [newline], caps. repeat split; auto. constructor. now right.
    + discriminate.
Qed.

Lemma exec_complete r w rest caps caps' :
  matches r w rest caps caps' ->
  forall k : list ascii -> captures -> option R,
    (exists x, k rest caps' = Some x) ->
    exists x, exec r (w ++ rest) caps k = Some x.
Proof.
  induction 1 as [p c rest caps Hc
                 |r1 r2 w1 w2 rest caps caps1 caps2 _ IH1 _ IH2
                 |p w rest caps Hne Hw
                 |p w rest caps Hne Hw
                 |r w rest caps caps' _ IH
                 |r rest caps
                 |n r w rest caps caps' _ IH
                 |rest caps Hrest]; intros k Hk; cbn [exec].
  - cbn. now rewrite Hc.
  - rewrite <- app_assoc. apply IH1. apply IH2. exact Hk.
  - now apply plus_greedy_complete.
  - now apply plus_lazy_complete.
  - destruct (IH k Hk) as [x ->]. eauto.
  - cbn. destruct (exec r rest caps k); eauto.
  - apply IH.
    rewrite length_app, Nat.add_sub, firstn_app, Nat.sub_diag, firstn_all.
    cbn. now rewrite app_nil_r.
  - destruct Hrest as [->| ->]; cbn; assumption.
Qed.


(** A repeat that fails has no split after which the rest goes on. *)
Lemma plus_greedy_none p (k : list ascii -> option R) w rest :
  plus_greedy p k (w ++ rest) = None ->
  w <> [] -> forallb p w = true -> k rest = None.
Proof.
  intros H Hne Hw. destruct (k rest) as [x|] eqn:Hk; [|reflexivity].
  destruct (plus_greedy_complete p k rest (ex_intro _ x Hk) w Hne Hw) as [y Hy].
  congruence.
Qed.

Lemma plus_lazy_none p (k : list ascii -> option R) w rest :
  plus_lazy p k (w ++ rest) = None ->
  w <> [] -> forallb p w = true -> k rest = None.
Proof.
  intros H Hne Hw. destruct (k rest) as [x|] eqn:Hk; [|reflexivity].
  destruct (plus_lazy_complete p k rest (ex_intro _ x Hk) w Hne Hw) as [y Hy].
  congruence.
Qed.

(** A lazy repeat stops at the first split after which the rest goes
    on: after every shorter one it does not. *)
Lemma plus_lazy_first p (k : list ascii -> option R) : forall s x,
  plus_lazy p k s = Some x ->
  exists w rest,
    s = w ++ rest /\ w <> [] /\ forallb p w = true /\ k rest = Some x
    /\ forall w' rest',
         s = w' ++ rest' -> w' <> [] -> (List.length w' < List.length w)%nat ->
         k rest' = None.
Proof.
  induction s as [|c s IH]; intros x H; cbn in H; [discriminate|].
  destruct (p c) eqn:Hc; [|discriminate].
  destruct (k s) as [y|] eqn:Hk.
  - injection H as <-. exists [c], s. cbn. rewrite Hc.
    repeat split; auto; [discriminate|].
    intros [|c' w'] rest' _ Hne Hlen; [contradiction | cbn in Hlen; lia].
  - destruct (IH x H) as (w & rest & -> & _ & Hw & Hk' & Hmin).
    exists (c :: w), rest. cbn. rewrite Hc, Hw.
    repeat split; auto; [discriminate|].
    intros [|c' w'] rest' E Hne Hlen; [contradiction|].
    cbn in E. injection E as <- E. destruct w' as [|c'' w'].
    + cbn in E. now subst rest'.
    + apply (Hmin (c'' :: w') rest' E); [discriminate | cbn in *; lia].
Qed.

(** A greedy repeat stops at the last split after which the rest goes
    on: after every longer one it does not. *)
Lemma plus_greedy_first p (k : list ascii -> option R) : forall s x,
  plus_greedy p k s = Some x ->
  exists w rest,
    s = w ++ rest /\ w <> [] /\ forallb p w = true /\ k rest = Some x
    /\ forall w' rest',
         s = w' ++ rest' -> forallb p w' = true ->
         (List.length w < List.length w')%nat ->
         k rest' = None.
Proof.
  induction s as [|c s IH]; intros x H; cbn in H; [discriminate|].
  destruct (p c) eqn:Hc; [|discriminate].
  destruct (plus_greedy p k s) as [y|] eqn:Hrec.
  - injection H as <-. destruct (IH y eq_refl) as (w & rest & -> & _ & Hw & Hk & Hmax).
    exists (c :: w), rest. cbn. rewrite Hc, Hw.
    repeat split; auto; [discriminate|].
    intros [|c' w'] rest' E Hw' Hlen; [cbn in Hlen; lia|].
    cbn in E. injection E as <- E. cbn in Hw'. apply andb_prop in Hw'.
    apply (Hmax w' rest' E); [apply Hw' | cbn in Hlen; lia].
  - exists [c], s. cbn. rewrite Hc. repeat split; auto; [discriminate|].
    intros [|c' w'] rest' E Hw' Hlen; [cbn in Hlen; lia|].
    cbn in E. injection E as <- E. cbn in Hw'. apply andb_prop in Hw'.
    subst s. apply (plus_greedy_none p k w' rest' Hrec); [|apply Hw'].
    destruct w'; [cbn in Hlen; lia | discriminate].
Qed.

Lemma exec_word_sound l r : forall s caps (k : list ascii -> captures -> option R) x,
  exec (word l r) s caps k = Some x ->
  exists a s', s = a ++ s' /\ map Regex.lower_ascii a = l /\ exec r s' caps k = Some x.
Proof.
  induction l as [|c l IH]; intros s caps k x H; cbn [word] in H.
  - exists [], s. auto.
  - cbn [exec letter] in H. destruct s as [|y s]; [discriminate|].
    destruct (Ascii.eqb_spec (Regex.lower_ascii y) c) as [Hy|]; [|discriminate].
    destruct (IH _ _ _ _ H) as (a & s' & -> & Ha & Hr).
    exists (y :: a), s'. cbn. rewrite Hy, Ha. auto.
Qed.

Lemma exec_word l r : forall a s' caps (k : list ascii -> captures -> option R),
  map Regex.lower_ascii a = l ->
  exec (word l r) (a ++ s') caps k = exec r s' caps k.
Proof.
  induction l as [|c l IH]; intros [|y a] s' caps k Ha; cbn in Ha; try discriminate.
  - reflexivity.
  - injection Ha as Hy Ha. cbn [word app exec letter].
    rewrite Hy, Ascii.eqb_refl. now apply IH.
Qed.

End MatcherFacts.

Lemma firstn_head {A} (w rest : list A) :
  firstn (List.length (w ++ rest) - List.length rest) (w ++ rest) = w.
Proof.
  rewrite length_app, Nat.add_sub, firstn_app, Nat.sub_diag, firstn_all.
  cbn. now rewrite app_nil_r.
Qed.

(** [re.search] takes the leftmost start that has a match. *)
Lemma search_first r : forall s caps,
  search r s = Some caps ->
  exists pre s',
    s = pre ++ s' /\ exec r s' [] found_match = Some caps
    /\ forall pre' s'',
         s = pre' ++ s'' -> (List.length pre' < List.length pre)%nat ->
         exec r s'' [] found_match = None.
Proof.
  induction s as [|c s IH]; intros caps H; cbn [search] in H.
  - destruct (exec r [] [] _) as [y|] eqn:He; [|discriminate].
    injection H as <-. exists [], []. repeat split; auto.
    intros pre' s'' _ Hlen. cbn in Hlen. lia.
  - destruct (exec r (c :: s) [] _) as [y|] eqn:He.
    + injection H as <-. exists [], (c :: s). repeat split; auto.
      intros pre' s'' _ Hlen. cbn in Hlen. lia.
    + destruct (IH caps H) as (pre & s' & -> & Hs' & Hleft).
      exists (c :: pre), s'. repeat split; auto.
      intros [|c' pre'] s'' E Hlen.
      * cbn in E. now subst s''.
      * cbn in E. injection E as <- E. apply (Hleft pre' s'' E). cbn in Hlen. lia.
Qed.

Lemma search_finds r s' :
  (exists x, exec r s' [] found_match = Some x) ->
  forall pre, exists caps, search r (pre ++ s') = Some caps.
Proof.
  intros [x Hx]. induction pre as [|c pre IH].
  - cbn [app]. unfold found_match in Hx.
    destruct s'; cbn [search]; rewrite Hx; eauto.
  - cbn [app search]. destruct (exec r (c :: pre ++ s') [] _); eauto.
Qed.

Lemma search_nothing r : forall s,
  search r s = None ->
  forall pre s', s = pre ++ s' -> exec r s' [] found_match = None.
Proof.
  intros s H pre s' ->.
  destruct (exec r s' [] found_match) as [x|] eqn:Hx; [|reflexivity].
  destruct (search_finds r s' (ex_intro _ x Hx) pre) as [caps Hc]. congruence.
Qed.

(** *** The pattern of parse_event and its grammar *)

(** The pattern is read from its end: for each piece, the matcher
    succeeds on every text the grammar reads, and where it succeeds it
    has taken the first reading. *)

Lemma event_pattern_pieces :
  event_pattern
  = word (list_ascii_of_string "add") (Seq (Plus is_space) activity_pattern).
Proof. reflexivity. Qed.

Lemma then_end_sound s caps x : then_end s caps = Some x -> ending s /\ x = caps.
Proof.
  unfold then_end, found_match. cbn [exec]. destruct s as [|c [|c' s]].
  - intros [= <-]. split; [now left | reflexivity].
  - destruct (Ascii.eqb_spec c newline) as [->|]; [|discriminate].
    intros [= <-]. split; [now right | reflexivity].
  - discriminate.
Qed.

Lemma then_end_complete s caps : ending s -> then_end s caps = Some caps.
Proof. intros [->| ->]; reflexivity. Qed.

Lemma exec_at_pattern s caps :
  exec at_pattern s caps found_match
  = match exec at_inner s caps then_end with
    | Some x => Some x
    | None => then_end s caps
    end.
Proof. reflexivity. Qed.

Lemma at_inner_first s caps x :
  exec at_inner s caps then_end = Some x ->
  exists t, first_at s (Some t) /\ x = (4%nat, t) :: caps.
Proof.
  unfold at_inner. cbn [exec]. intros H.
  apply plus_greedy_sound in H. destruct H as (w1 & s1 & -> & Hne1 & Hw1 & H).
  apply exec_word_sound in H. destruct H as (a & s2 & -> & Ha & H).
  cbn [exec] in H.
  apply plus_greedy_first in H. destruct H as (w2 & s3 & -> & Hne2 & Hw2 & H & Hmax).
  apply plus_greedy_sound in H. destruct H as (t & nl & -> & Hnet & Ht & H).
  apply then_end_sound in H. destruct H as [Hnl ->].
  rewrite firstn_head. exists t. split; [|reflexivity].
  exists w1, a, w2, nl. repeat split; auto.
  intros w' rest' E Hw' Hlen (t' & nl' & -> & [Hnet' Ht'] & Hnl').
  specialize (Hmax w' (t' ++ nl') E Hw' Hlen).
  apply (plus_greedy_none _ _ t' nl') in Hmax; [|assumption|assumption].
  cbv beta in Hmax. rewrite then_end_complete in Hmax by assumption. discriminate.
Qed.

Lemma first_at_reads s time : first_at s time -> reads_at s time.
Proof.
  destruct time as [t|]; cbn; [|auto].
  intros (w1 & a & w2 & nl & E & H1 & Ha & H2 & Ht & Hnl & _).
  exists w1, a, w2, nl. repeat split; auto; apply H1 || apply H2 || apply Ht.
Qed.

Lemma at_inner_complete s t caps :
  reads_at s (Some t) -> exists x, exec at_inner s caps then_end = Some x.
Proof.
  intros (w1 & a & w2 & nl & -> & [Hne1 Hw1] & Ha & [Hne2 Hw2] & [Hnet Ht] & Hnl).
  unfold at_inner. cbn [exec].
  apply plus_greedy_complete; [|assumption|assumption].
  rewrite (exec_word _ _ a _ _ _ Ha). cbn [exec].
  apply plus_greedy_complete; [|assumption|assumption].
  apply plus_greedy_complete; [|assumption|assumption].
  rewrite then_end_complete by assumption. eauto.
Qed.

Lemma at_pattern_first s caps x :
  exec at_pattern s caps found_match = Some x ->
  exists time, first_at s time /\ x = time_group time ++ caps.
Proof.
  rewrite exec_at_pattern. destruct (exec at_inner s caps then_end) as [y|] eqn:Hin.
  - intros [= <-]. apply at_inner_first in Hin. destruct Hin as (t & Ht & ->).
    exists (Some t). auto.
  - intros H. apply then_end_sound in H. destruct H as [Hs ->].
    exists None. auto.
Qed.

Lemma at_pattern_complete s caps :
  (exists time, reads_at s time) -> exists x, exec at_pattern s caps found_match = Some x.
Proof.
  intros [[t|] H]; rewrite exec_at_pattern.
  - destruct (at_inner_complete s t caps H) as [x ->]. eauto.
  - destruct (exec at_inner s caps then_end); [eauto|].
    cbn in H. rewrite then_end_complete by assumption. eauto.
Qed.

Lemma name_pattern_first s caps x :
  exec name_pattern s caps found_match = Some x ->
  exists name time,
    first_name s name time /\ x = time_group time ++ (3%nat, name) :: caps.
Proof.
  unfold name_pattern. cbn [exec]. intros H.
  apply plus_lazy_first in H. destruct H as (name & rest & -> & Hne & Hn & H & Hmin).
  rewrite firstn_head in H. apply at_pattern_first in H. destruct H as (time & Ht & ->).
  exists name, time. split; [|reflexivity].
  exists rest. repeat split; auto.
  intros w' rest' E Hne' Hlen Hread.
  specialize (Hmin w' rest' E Hne' Hlen).
  destruct (at_pattern_complete rest'
              ((3%nat, firstn (List.length (name ++ rest) - List.length rest')
                              (name ++ rest)) :: caps) Hread) as [y Hy].
  congruence.
Qed.

Lemma name_pattern_complete s caps :
  (exists name time, reads_name s name time) ->
  exists x, exec name_pattern s caps found_match = Some x.
Proof.
  intros (name & time & rest & -> & [Hne Hn] & Ht).
  unfold name_pattern. cbn [exec].
  apply plus_lazy_complete; [|assumption|assumption].
  apply at_pattern_complete. eauto.
Qed.

Lemma for_pattern_first s caps x :
  exec for_pattern s caps found_match = Some x ->
  exists name time,
    first_for s name time /\ x = time_group time ++ (3%nat, name) :: caps.
Proof.
  unfold for_pattern. intros H.
  apply exec_word_sound in H. destruct H as (f & s1 & -> & Hf & H).
  cbn [exec] in H.
  apply plus_greedy_first in H. destruct H as (w & rest & -> & Hne & Hw & H & Hmax).
  apply name_pattern_first in H. destruct H as (name & time & Hfirst & ->).
  exists name, time. split; [|reflexivity].
  exists f, w, rest. repeat split; auto.
  intros w' rest' E Hw' Hlen Hread.
  specialize (Hmax w' rest' E Hw' Hlen).
  destruct (name_pattern_complete rest' caps Hread) as [y Hy]. congruence.
Qed.

Lemma for_pattern_complete s caps :
  (exists name time, reads_for s name time) ->
  exists x, exec for_pattern s caps found_match = Some x.
Proof.
  intros (name & time & f & w & rest & -> & Hf & [Hne Hw] & Hn).
  unfold for_pattern. rewrite (exec_word _ _ f _ _ _ Hf). cbn [exec].
  apply plus_greedy_complete; [|assumption|assumption].
  apply name_pattern_complete. eauto.
Qed.

Lemma first_name_reads s name time : first_name s name time -> reads_name s name time.
Proof. intros (rest & E & Hn & Ht & _). exists rest. auto using first_at_reads. Qed.

Lemma first_for_reads s name time : first_for s name time -> reads_for s name time.
Proof.
  intros (f & w & rest & E & Hf & Hw & Hn & _).
  exists f, w, rest. auto using first_name_reads.
Qed.

Lemma date_pattern_first s caps x :
  exec date_pattern s caps then_for = Some x ->
  exists p name time,
    first_date s p name time
    /\ x = time_group time ++ (3%nat, name) :: (2%nat, p) :: caps.
Proof.
  unfold date_pattern. cbn [exec]. intros H.
  apply plus_lazy_first in H. destruct H as (p & s1 & -> & Hne & Hp & H & Hmin).
  apply plus_greedy_sound in H. destruct H as (w & rest & -> & Hnew & Hw & H).
  rewrite firstn_head in H. unfold then_for in H.
  apply for_pattern_first in H. destruct H as (name & time & Hfirst & ->).
  exists p, name, time. split; [|reflexivity].
  exists w, rest. repeat split; auto.
  intros p' rest' E Hne' Hlen (w' & r' & n & t & -> & [Hnew' Hw'] & Hread).
  specialize (Hmin p' (w' ++ r') E Hne' Hlen).
  apply (plus_greedy_none _ _ w' r') in Hmin; [|assumption|assumption].
  unfold then_for in Hmin.
  destruct (for_pattern_complete r'
              ((2%nat, firstn (List.length (p ++ w ++ rest) - List.length (w' ++ r'))
                              (p ++ w ++ rest)) :: caps)
              (ex_intro _ n (ex_intro _ t Hread))) as [y Hy].
  congruence.
Qed.

Lemma date_pattern_complete s caps :
  (exists p name time, reads_date s p name time) ->
  exists x, exec date_pattern s caps then_for = Some x.
Proof.
  intros (p & name & time & w & rest & -> & [Hne Hp] & [Hnew Hw] & Hf).
  unfold date_pattern. cbn [exec].
  apply plus_lazy_complete; [|assumption|assumption].
  apply plus_greedy_complete; [|assumption|assumption].
  unfold then_for. apply for_pattern_complete. eauto.
Qed.

Lemma first_date_reads s p name time : first_date s p name time -> reads_date s p name time.
Proof.
  intros (w & rest & E & Hp & Hw & Hf & _).
  exists w, rest. auto using first_for_reads.
Qed.

Lemma exec_on_pattern s caps :
  exec on_pattern s caps found_match
  = match exec on_inner s caps then_for with
    | Some x => Some x
    | None => then_for s caps
    end.
Proof. reflexivity. Qed.

Lemma on_inner_first s caps x :
  exec on_inner s caps then_for = Some x ->
  exists p name time,
    first_on s (Some p) name time
    /\ x = time_group time ++ (3%nat, name) :: (2%nat, p) :: caps.
Proof.
  unfold on_inner. intros H.
  apply exec_word_sound in H. destruct H as (o & s1 & -> & Ho & H).
  cbn [exec] in H.
  apply plus_greedy_first in H. destruct H as (w & rest & -> & Hne & Hw & H & Hmax).
  apply date_pattern_first in H. destruct H as (p & name & time & Hfirst & ->).
  exists p, name, time. split; [|reflexivity].
  exists o, w, rest. repeat split; auto.
  intros w' rest' E Hw' Hlen Hread.
  specialize (Hmax w' rest' E Hw' Hlen).
  destruct (date_pattern_complete rest' caps Hread) as [y Hy]. congruence.
Qed.

Lemma on_inner_complete s caps p name time :
  reads_on s (Some p) name time -> exists x, exec on_inner s caps then_for = Some x.
Proof.
  intros (o & w & rest & -> & Ho & [Hne Hw] & Hd).
  unfold on_inner. rewrite (exec_word _ _ o _ _ _ Ho). cbn [exec].
  apply plus_greedy_complete; [|assumption|assumption].
  apply date_pattern_complete. eauto.
Qed.

Lemma on_pattern_first s caps x :
  exec on_pattern s caps found_match = Some x ->
  exists dp name time,
    first_on s dp name time
    /\ x = time_group time ++ (3%nat, name) :: date_group dp ++ caps.
Proof.
  rewrite exec_on_pattern. destruct (exec on_inner s caps then_for) as [y|] eqn:Hin.
  - intros [= <-]. apply on_inner_first in Hin.
    destruct Hin as (p & name & time & Hfirst & ->).
    exists (Some p), name, time. auto.
  - intros H. unfold then_for in H. apply for_pattern_first in H.
    destruct H as (name & time & Hfirst & ->).
    exists None, name, time. auto.
Qed.

Lemma on_pattern_complete s caps :
  (exists dp name time, reads_on s dp name time) ->
  exists x, exec on_pattern s caps found_match = Some x.
Proof.
  intros ([p|] & name & time & H); rewrite exec_on_pattern.
  - destruct (on_inner_complete s caps p name time H) as [x ->]. eauto.
  - destruct (exec on_inner s caps then_for); [eauto|].
    unfold then_for. apply for_pattern_complete. eauto.
Qed.

Lemma first_on_reads s dp name time : first_on s dp name time -> reads_on s dp name time.
Proof.
  destruct dp as [p|]; cbn.
  - intros (o & w & rest & E & Ho & Hw & Hd & _).
    exists o, w, rest. auto using first_date_reads.
  - apply first_for_reads.
Qed.

Lemma activity_pattern_first s caps x :
  exec activity_pattern s caps found_match = Some x ->
  exists activity dp name time,
    first_activity s activity dp name time
    /\ x = time_group time ++ (3%nat, name) :: date_group dp ++ (1%nat, activity) :: caps.
Proof.
  unfold activity_pattern. cbn [exec]. intros H.
  apply plus_lazy_first in H. destruct H as (act & s1 & -> & Hne & Hact & H & Hmin).
  apply plus_greedy_sound in H. destruct H as (w & rest & -> & Hnew & Hw & H).
  rewrite firstn_head in H.
  apply on_pattern_first in H. destruct H as (dp & name & time & Hfirst & ->).
  exists act, dp, name, time. split; [|reflexivity].
  exists w, rest. repeat split; auto.
  intros act' rest' E Hne' Hlen (w' & r' & dp' & n & t & -> & [Hnew' Hw'] & Hread).
  specialize (Hmin act' (w' ++ r') E Hne' Hlen).
  apply (plus_greedy_none _ _ w' r') in Hmin; [|assumption|assumption].
  destruct (on_pattern_complete r'
              ((1%nat, firstn (List.length (act ++ w ++ rest) - List.length (w' ++ r'))
                              (act ++ w ++ rest)) :: caps)
              (ex_intro _ dp' (ex_intro _ n (ex_intro _ t Hread)))) as [y Hy].
  congruence.
Qed.

Lemma activity_pattern_complete s caps :
  (exists activity dp name time, reads_activity s activity dp name time) ->
  exists x, exec activity_pattern s caps found_match = Some x.
Proof.
  intros (act & dp & name & time & w & rest & -> & [Hne Hact] & [Hnew Hw] & Hon).
  unfold activity_pattern. cbn [exec].
  apply plus_lazy_complete; [|assumption|assumption].
  apply plus_greedy_complete; [|assumption|assumption].
  apply on_pattern_complete. eauto.
Qed.

Lemma first_activity_reads s activity dp name time :
  first_activity s activity dp name time -> reads_activity s activity dp name time.
Proof.
  intros (w & rest & E & Ha & Hw & Hon & _).
  exists w, rest. auto using first_on_reads.
Qed.

Lemma event_pattern_first s x :
  exec event_pattern s [] found_match = Some x ->
  exists activity dp name time,
    first_add s activity dp name time /\ x = groups_of activity dp name time.
Proof.
  rewrite event_pattern_pieces. intros H.
  apply exec_word_sound in H. destruct H as (a & s1 & -> & Ha & H).
  cbn [exec] in H.
  apply plus_greedy_first in H. destruct H as (w & rest & -> & Hne & Hw & H & Hmax).
  apply activity_pattern_first in H. destruct H as (act & dp & name & time & Hfirst & ->).
  exists act, dp, name, time. split; [|reflexivity].
  exists a, w, rest. repeat split; auto.
  intros w' rest' E Hw' Hlen Hread.
  specialize (Hmax w' rest' E Hw' Hlen).
  destruct (activity_pattern_complete rest' [] Hread) as [y Hy]. congruence.
Qed.

Lemma event_pattern_complete s :
  (exists activity dp name time, reads_add s activity dp name time) ->
  exists x, exec event_pattern s [] found_match = Some x.
Proof.
  intros (act & dp & name & time & a & w & rest & -> & Ha & [Hne Hw] & Hact).
  rewrite event_pattern_pieces, (exec_word _ _ a _ _ _ Ha). cbn [exec].
  apply plus_greedy_complete; [|assumption|assumption].
  apply activity_pattern_complete. eauto.
Qed.

Lemma first_add_reads s activity dp name time :
  first_add s activity dp name time -> reads_add s activity dp name time.
Proof.
  intros (a & w & rest & E & Ha & Hw & Hact & _).
  exists a, w, rest. auto using first_activity_reads.
Qed.

Lemma first_sentence_reads text activity dp name time :
  first_sentence text activity dp name time -> sentence text activity dp name time.
Proof.
  intros (pre & s & E & Hadd & _). exists pre, s. auto using first_add_reads.
Qed.

Lemma group_groups_of activity dp name tm :
  group 1 (groups_of activity dp name tm) = Some activity
  /\ group 2 (groups_of activity dp name tm) = dp
  /\ group 3 (groups_of activity dp name tm) = Some name
  /\ group 4 (groups_of activity dp name tm) = tm.
Proof. destruct dp, tm; repeat split. Qed.

(** What [re.search] finds is the first reading of the text. *)
Lemma search_event_pattern text caps :
  search event_pattern text = Some caps ->
  exists activity dp name tm,
    first_sentence text activity dp name tm /\ caps = groups_of activity dp name tm.
Proof.
  intros H. apply search_first in H. destruct H as (pre & s & -> & Hs & Hleft).
  apply event_pattern_first in Hs.
  destruct Hs as (activity & dp & name & tm & Hfirst & ->).
  exists activity, dp, name, tm. split; [|reflexivity].
  exists pre, s. repeat split; auto.
  intros pre' s' E Hlen Hread.
  specialize (Hleft pre' s' E Hlen).
  destruct (event_pattern_complete s' Hread) as [y Hy]. congruence.
Qed.

Lemma sentence_found text activity dp name tm :
  sentence text activity dp name tm ->
  exists caps, search event_pattern text = Some caps.
Proof.
  intros (pre & s & -> & Hadd).
  apply search_finds. apply event_pattern_complete. eauto.
Qed.

Lemma sentence_phrases text activity dp name tm :
  sentence text activity dp name tm ->
  (forall p, dp = Some p -> p <> []) /\ (forall t, tm = Some t -> t <> []).
Proof.
  intros (pre & s & _ & a & w1 & s1 & _ & _ & _ & w2 & s2 & _ & _ & _ & Hon).
  assert (Hfor : forall s0, reads_for s0 name tm -> forall t, tm = Some t -> t <> []).
  { intros s0 (f & w3 & s3 & _ & _ & _ & r & _ & _ & Hat) t ->.
    destruct Hat as (? & ? & ? & ? & _ & _ & _ & _ & [Ht _] & _). exact Ht. }
  destruct dp as [p|]; cbn in Hon.
  - destruct Hon as (o & v1 & s3 & _ & _ & _ & v2 & s4 & _ & [Hp _] & _ & Hf).
    split; [now intros ? [= <-] | exact (Hfor _ Hf)].
  - split; [discriminate | exact (Hfor _ Hon)].
Qed.

(** *** A text has one first reading *)

Lemma app_same_length {A} (w w' r r' : list A) :
  w ++ r = w' ++ r' -> List.length w = List.length w' -> w = w' /\ r = r'.
Proof.
  revert w'. induction w as [|x w IH]; intros [|y w'] E Hlen; cbn in *;
    try discriminate; [now split|].
  injection E as -> E. injection Hlen as Hlen.
  destruct (IH w' E Hlen) as [-> ->]. now split.
Qed.

Lemma keyword_length k w : keyword k w -> List.length w = String.length k.
Proof.
  unfold keyword. intros H. rewrite <- (length_map Regex.lower_ascii), H.
  clear. induction k as [|c k IH]; cbn; congruence.
Qed.

Lemma keyword_head k w c k' :
  keyword k w -> list_ascii_of_string k = c :: k' ->
  exists x w', w = x :: w' /\ Regex.lower_ascii x = c.
Proof.
  unfold keyword. intros H E. rewrite E in H.
  destruct w as [|x w']; [discriminate|]. injection H as Hx _. eauto.
Qed.

Lemma lower_space x : is_space x = true -> Regex.lower_ascii x = x.
Proof.
  destruct x as [[] [] [] [] [] [] [] []]; vm_compute; intros H;
    reflexivity || discriminate.
Qed.

Lemma keyword_starts_with_letter k w r c k' :
  keyword k w -> list_ascii_of_string k = c :: k' -> is_space c = false ->
  starts_with_letter (w ++ r).
Proof.
  intros Hk E Hc. destruct (keyword_head k w c k' Hk E) as (x & w' & -> & Hx).
  exists x, (w' ++ r). split; [reflexivity|].
  destruct (is_space x) eqn:Hs; [|reflexivity].
  rewrite (lower_space x Hs) in Hx. congruence.
Qed.

Lemma spaces_then_letter w r w' r' :
  w ++ r = w' ++ r' ->
  forallb is_space w = true -> forallb is_space w' = true ->
  starts_with_letter r -> starts_with_letter r' ->
  w = w' /\ r = r'.
Proof.
  revert w'. induction w as [|x w IH]; intros [|y w'] E Hw Hw' Hr Hr'; cbn in *.
  - now split.
  - destruct Hr as (c & r0 & -> & Hc). injection E as <- _.
    apply andb_prop in Hw'. destruct Hw' as [Hy _]. congruence.
  - destruct Hr' as (c & r0 & -> & Hc). injection E as -> _.
    apply andb_prop in Hw. destruct Hw as [Hx _]. congruence.
  - injection E as -> E. apply andb_prop in Hw, Hw'.
    destruct (IH w' E (proj2 Hw) (proj2 Hw') Hr Hr') as [-> ->]. now split.
Qed.

Lemma phrase_then_ending t nl t' nl' :
  t ++ nl = t' ++ nl' ->
  forallb is_dot t = true -> forallb is_dot t' = true ->
  ending nl -> ending nl' ->
  t = t' /\ nl = nl'.
Proof.
  revert t'. induction t as [|c t IH]; intros [|c' t'] E Ht Ht' Hnl Hnl'; cbn in *.
  - now split.
  - apply andb_prop in Ht'. destruct Ht' as [Hc _].
    destruct Hnl as [->| ->]; [discriminate|]. injection E as <- _. discriminate.
  - apply andb_prop in Ht. destruct Ht as [Hc _].
    destruct Hnl' as [->| ->]; [discriminate|]. injection E as -> _. discriminate.
  - injection E as -> E. apply andb_prop in Ht, Ht'.
    destruct (IH t' E (proj2 Ht) (proj2 Ht') Hnl Hnl') as [-> ->]. now split.
Qed.

Lemma reads_for_starts s name time : reads_for s name time -> starts_with_letter s.
Proof.
  intros (f & w & rest & -> & Hf & _).
  now apply (keyword_starts_with_letter "for" f _ "f"%char (list_ascii_of_string "or")).
Qed.

Lemma reads_on_starts s dp name time : reads_on s dp name time -> starts_with_letter s.
Proof.
  destruct dp as [p|]; cbn; [|apply reads_for_starts].
  intros (o & w & rest & -> & Ho & _).
  now apply (keyword_starts_with_letter "on" o _ "o"%char (list_ascii_of_string "n")).
Qed.

Lemma first_at_unique s t1 t2 : first_at s t1 -> first_at s t2 -> t1 = t2.
Proof.
  assert (Hno : forall t, ending s -> first_at s (Some t) -> False).
  { intros t Hs (w1 & a & w2 & nl & E & [Hne _] & Ha & _).
    apply keyword_length in Ha. apply (f_equal (@List.length ascii)) in E.
    rewrite !length_app, Ha in E. cbn in E.
    destruct w1; [contradiction|].
    destruct Hs as [->| ->]; cbn in E; lia. }
  destruct t1 as [t1|], t2 as [t2|]; cbn; intros H1 H2;
    try reflexivity; try (now destruct (Hno _ H1 H2)); try (now destruct (Hno _ H2 H1)).
  destruct H1 as (w1 & a & w2 & nl & -> & [_ Hw1] & Ha & [_ Hw2] & [Hne Ht] & Hnl & Hmax).
  destruct H2 as (w1' & a' & w2' & nl' & E & [_ Hw1'] & Ha' & [_ Hw2'] & [Hne' Ht']
                  & Hnl' & Hmax').
  assert (Hat : forall x r, keyword "at" x -> starts_with_letter (x ++ r)).
  { intros x r Hx.
    now apply (keyword_starts_with_letter "at" x _ "a"%char (list_ascii_of_string "t")). }
  destruct (spaces_then_letter _ _ _ _ E Hw1 Hw1' (Hat _ _ Ha) (Hat _ _ Ha')) as [-> E1].
  destruct (app_same_length _ _ _ _ E1) as [-> E2].
  { now rewrite (keyword_length _ _ Ha), (keyword_length _ _ Ha'). }
  assert (Hlen : List.length w2 = List.length w2').
  { destruct (Nat.lt_total (List.length w2) (List.length w2')) as [Hlt|[Heq|Hgt]];
      [exfalso|exact Heq|exfalso].
    - apply (Hmax w2' (t2 ++ nl') E2 Hw2' Hlt). exists t2, nl'. repeat split; auto.
    - apply (Hmax' w2 (t1 ++ nl) (eq_sym E2) Hw2 Hgt). exists t1, nl. repeat split; auto. }
  destruct (app_same_length _ _ _ _ E2 Hlen) as [-> E3].
  destruct (phrase_then_ending _ _ _ _ E3 Ht Ht' Hnl Hnl') as [-> _]. reflexivity.
Qed.


Lemma first_name_unique s n1 t1 n2 t2 :
  first_name s n1 t1 -> first_name s n2 t2 -> n1 = n2 /\ t1 = t2.
Proof.
  intros (r1 & -> & [Hne1 _] & Hat1 & Hmin1) (r2 & E & [Hne2 _] & Hat2 & Hmin2).
  assert (Hlen : List.length n1 = List.length n2).
  { destruct (Nat.lt_total (List.length n1) (List.length n2)) as [Hlt|[Heq|Hgt]];
      [exfalso|exact Heq|exfalso].
    - apply (Hmin2 n1 r1 (eq_sym E) Hne1 Hlt). eauto using first_at_reads.
    - apply (Hmin1 n2 r2 E Hne2 Hgt). eauto using first_at_reads. }
  destruct (app_same_length _ _ _ _ E Hlen) as [-> ->].
  split; [reflexivity | exact (first_at_unique _ _ _ Hat1 Hat2)].
Qed.

Lemma first_for_unique s n1 t1 n2 t2 :
  first_for s n1 t1 -> first_for s n2 t2 -> n1 = n2 /\ t1 = t2.
Proof.
  intros (f1 & w1 & r1 & -> & Hf1 & [_ Hw1] & Hn1 & Hmax1)
         (f2 & w2 & r2 & E & Hf2 & [_ Hw2] & Hn2 & Hmax2).
  destruct (app_same_length _ _ _ _ E) as [-> E1].
  { now rewrite (keyword_length _ _ Hf1), (keyword_length _ _ Hf2). }
  assert (Hlen : List.length w1 = List.length w2).
  { destruct (Nat.lt_total (List.length w1) (List.length w2)) as [Hlt|[Heq|Hgt]];
      [exfalso|exact Heq|exfalso].
    - apply (Hmax1 w2 r2 E1 Hw2 Hlt). eauto using first_name_reads.
    - apply (Hmax2 w1 r1 (eq_sym E1) Hw1 Hgt). eauto using first_name_reads. }
  destruct (app_same_length _ _ _ _ E1 Hlen) as [-> ->].
  exact (first_name_unique _ _ _ _ _ Hn1 Hn2).
Qed.

Lemma first_date_unique s p1 n1 t1 p2 n2 t2 :
  first_date s p1 n1 t1 -> first_date s p2 n2 t2 -> p1 = p2 /\ n1 = n2 /\ t1 = t2.
Proof.
  intros (w1 & r1 & -> & [Hne1 _] & Hs1 & Hf1 & Hmin1)
         (w2 & r2 & E & [Hne2 _] & Hs2 & Hf2 & Hmin2).
  assert (Hlen : List.length p1 = List.length p2).
  { destruct (Nat.lt_total (List.length p1) (List.length p2)) as [Hlt|[Heq|Hgt]];
      [exfalso|exact Heq|exfalso].
    - apply (Hmin2 p1 (w1 ++ r1) (eq_sym E) Hne1 Hlt).
      exists w1, r1, n1, t1. auto using first_for_reads.
    - apply (Hmin1 p2 (w2 ++ r2) E Hne2 Hgt).
      exists w2, r2, n2, t2. auto using first_for_reads. }
  destruct (app_same_length _ _ _ _ E Hlen) as [-> E1].
  destruct (spaces_then_letter _ _ _ _ E1 (proj2 Hs1) (proj2 Hs2)) as [-> ->].
  { exact (reads_for_starts _ _ _ (first_for_reads _ _ _ Hf1)). }
  { exact (reads_for_starts _ _ _ (first_for_reads _ _ _ Hf2)). }
  split; [reflexivity | exact (first_for_unique _ _ _ _ _ Hf1 Hf2)].
Qed.

Lemma first_on_unique s dp1 n1 t1 dp2 n2 t2 :
  first_on s dp1 n1 t1 -> first_on s dp2 n2 t2 -> dp1 = dp2 /\ n1 = n2 /\ t1 = t2.
Proof.
  assert (Hno : forall p n t n' t',
             first_on s (Some p) n t -> first_on s None n' t' -> False).
  { intros p n t n' t' (o & w & r & -> & Ho & _) (f & w' & r' & E & Hf & _).
    destruct (keyword_head "on" o "o"%char (list_ascii_of_string "n") Ho eq_refl)
      as (x & o' & -> & Hx).
    destruct (keyword_head "for" f "f"%char (list_ascii_of_string "or") Hf eq_refl)
      as (y & f' & -> & Hy).
    cbn in E. injection E as -> _. rewrite Hx in Hy. discriminate. }
  destruct dp1 as [p1|], dp2 as [p2|]; intros H1 H2;
    try (now destruct (Hno _ _ _ _ _ H1 H2)); try (now destruct (Hno _ _ _ _ _ H2 H1)).
  - destruct H1 as (o1 & w1 & r1 & -> & Ho1 & [_ Hw1] & Hd1 & Hmax1).
    destruct H2 as (o2 & w2 & r2 & E & Ho2 & [_ Hw2] & Hd2 & Hmax2).
    destruct (app_same_length _ _ _ _ E) as [-> E1].
    { now rewrite (keyword_length _ _ Ho1), (keyword_length _ _ Ho2). }
    assert (Hlen : List.length w1 = List.length w2).
    { destruct (Nat.lt_total (List.length w1) (List.length w2)) as [Hlt|[Heq|Hgt]];
        [exfalso|exact Heq|exfalso].
      - apply (Hmax1 w2 r2 E1 Hw2 Hlt). eauto using first_date_reads.
      - apply (Hmax2 w1 r1 (eq_sym E1) Hw1 Hgt). eauto using first_date_reads. }
    destruct (app_same_length _ _ _ _ E1 Hlen) as [-> ->].
    destruct (first_date_unique _ _ _ _ _ _ _ Hd1 Hd2) as (-> & -> & ->). auto.
  - destruct (first_for_unique _ _ _ _ _ H1 H2) as [-> ->]. auto.
Qed.

Lemma first_activity_unique s a1 dp1 n1 t1 a2 dp2 n2 t2 :
  first_activity s a1 dp1 n1 t1 -> first_activity s a2 dp2 n2 t2 ->
  a1 = a2 /\ dp1 = dp2 /\ n1 = n2 /\ t1 = t2.
Proof.
  intros (w1 & r1 & -> & [Hne1 _] & Hs1 & Hon1 & Hmin1)
         (w2 & r2 & E & [Hne2 _] & Hs2 & Hon2 & Hmin2).
  assert (Hlen : List.length a1 = List.length a2).
  { destruct (Nat.lt_total (List.length a1) (List.length a2)) as [Hlt|[Heq|Hgt]];
      [exfalso|exact Heq|exfalso].
    - apply (Hmin2 a1 (w1 ++ r1) (eq_sym E) Hne1 Hlt).
      exists w1, r1, dp1, n1, t1. auto using first_on_reads.
    - apply (Hmin1 a2 (w2 ++ r2) E Hne2 Hgt).
      exists w2, r2, dp2, n2, t2. auto using first_on_reads. }
  destruct (app_same_length _ _ _ _ E Hlen) as [-> E1].
  destruct (spaces_then_letter _ _ _ _ E1 (proj2 Hs1) (proj2 Hs2)) as [-> ->].
  { exact (reads_on_starts _ _ _ _ (first_on_reads _ _ _ _ Hon1)). }
  { exact (reads_on_starts _ _ _ _ (first_on_reads _ _ _ _ Hon2)). }
  split; [reflexivity | exact (first_on_unique _ _ _ _ _ _ _ Hon1 Hon2)].
Qed.

Lemma first_add_unique s a1 dp1 n1 t1 a2 dp2 n2 t2 :
  first_add s a1 dp1 n1 t1 -> first_add s a2 dp2 n2 t2 ->
  a1 = a2 /\ dp1 = dp2 /\ n1 = n2 /\ t1 = t2.
Proof.
  intros (k1 & w1 & r1 & -> & Hk1 & [_ Hw1] & Ha1 & Hmax1)
         (k2 & w2 & r2 & E & Hk2 & [_ Hw2] & Ha2 & Hmax2).
  destruct (app_same_length _ _ _ _ E) as [-> E1].
  { now rewrite (keyword_length _ _ Hk1), (keyword_length _ _ Hk2). }
  assert (Hlen : List.length w1 = List.length w2).
  { destruct (Nat.lt_total (List.length w1) (List.length w2)) as [Hlt|[Heq|Hgt]];
      [exfalso|exact Heq|exfalso].
    - apply (Hmax1 w2 r2 E1 Hw2 Hlt). eauto 6 using first_activity_reads.
    - apply (Hmax2 w1 r1 (eq_sym E1) Hw1 Hgt). eauto 6 using first_activity_reads. }
  destruct (app_same_length _ _ _ _ E1 Hlen) as [-> ->].
  exact (first_activity_unique _ _ _ _ _ _ _ _ _ Ha1 Ha2).
Qed.

(** The first reading of a text is one reading: the order of the
    matcher leaves no choice. *)
Lemma first_sentence_unique text a1 dp1 n1 t1 a2 dp2 n2 t2 :
  first_sentence text a1 dp1 n1 t1 -> first_sentence text a2 dp2 n2 t2 ->
  a1 = a2 /\ dp1 = dp2 /\ n1 = n2 /\ t1 = t2.
Proof.
  intros (pre1 & s1 & -> & Hadd1 & Hleft1) (pre2 & s2 & E & Hadd2 & Hleft2).
  assert (Hlen : List.length pre1 = List.length pre2).
  { destruct (Nat.lt_total (List.length pre1) (List.length pre2)) as [Hlt|[Heq|Hgt]];
      [exfalso|exact Heq|exfalso].
    - apply (Hleft2 pre1 s1 eq_refl Hlt). eauto 6 using first_add_reads.
    - apply (Hleft1 pre2 s2 E Hgt). eauto 6 using first_add_reads. }
  destruct (app_same_length _ _ _ _ E Hlen) as [-> ->].
  exact (first_add_unique _ _ _ _ _ _ _ _ _ Hadd1 Hadd2).
Qed.

Section ParseEventFacts.

Variable dateparser_parse : string -> result (option PyDate.date).
Variable in_bounds : PyDate.date -> bool.

Lemma parse_event_reading text activity dp name tm :
  sentence (list_ascii_of_string text) activity dp name tm ->
  search event_pattern (list_ascii_of_string text)
  = Some (groups_of activity dp name tm) ->
  parse_event dateparser_parse in_bounds text
  = parsed_as dateparser_parse in_bounds activity dp name tm.
Proof.
  intros Hs Hsearch. destruct (sentence_phrases _ _ _ _ _ Hs) as [Hdp _].
  unfold parse_event, parsed_as. rewrite Hsearch.
  destruct (group_groups_of activity dp name tm) as (-> & -> & -> & ->).
  assert (E2 : match dp with
               | Some ((_ :: _) as w) => stripped w
               | _ => "today"
               end = phrase_to_resolve dp).
  { destruct dp as [[|c p]|]; try reflexivity. now destruct (Hdp [] eq_refl). }
  assert (E4 : match tm with
               | Some ((_ :: _) as w) => stripped w
               | _ => ""
               end = match tm with Some t => stripped t | None => "" end).
  { destruct tm as [[|c t]|]; reflexivity. }
  cbv zeta. rewrite E2, E4.
  destruct (dateparser_parse (phrase_to_resolve dp)) as [[d|]|]; try reflexivity.
  unfold weekday_name. destruct (in_bounds d); reflexivity.
Qed.

(** Every text is parsed by its first reading, if it has a reading at
    all. *)
Lemma parse_event_first text :
  (search event_pattern (list_ascii_of_string text) = None
   /\ parse_event dateparser_parse in_bounds text = Returned None)
  \/ (exists activity dp name tm,
        search event_pattern (list_ascii_of_string text)
        = Some (groups_of activity dp name tm)
        /\ first_sentence (list_ascii_of_string text) activity dp name tm
        /\ parse_event dateparser_parse in_bounds text
           = parsed_as dateparser_parse in_bounds activity dp name tm).
Proof.
  destruct (search event_pattern (list_ascii_of_string text)) as [caps|] eqn:Hs.
  - right. destruct (search_event_pattern _ _ Hs) as (activity & dp & name & tm & Hf & ->).
    exists activity, dp, name, tm. repeat split; auto.
    apply parse_event_reading; [now apply first_sentence_reads | assumption].
  - left. split; [reflexivity|]. unfold parse_event. now rewrite Hs.
Qed.

Lemma parsed_as_some activity dp name tm ev :
  parsed_as dateparser_parse in_bounds activity dp name tm = Returned (Some ev) ->
  exists d,
    dateparser_parse (phrase_to_resolve dp) = Returned (Some d)
    /\ in_bounds d = true
    /\ ev = event_of d activity name tm.
Proof.
  unfold parsed_as.
  destruct (dateparser_parse (phrase_to_resolve dp)) as [[d|]|]; try discriminate.
  destruct (in_bounds d) eqn:Hb; [|discriminate].
  intros [= <-]. eauto.
Qed.

Lemma parsed_as_raised activity dp name tm :
  parsed_as dateparser_parse in_bounds activity dp name tm = Raised
  <-> dateparser_parse (phrase_to_resolve dp) = Raised
      \/ exists d, dateparser_parse (phrase_to_resolve dp) = Returned (Some d)
                   /\ in_bounds d = false.
Proof.
  unfold parsed_as.
  destruct (dateparser_parse (phrase_to_resolve dp)) as [[d|]|].
  - destruct (in_bounds d) eqn:Hb; split.
    + discriminate.
    + intros [H|(d' & H & Hb')]; [discriminate|]. injection H as <-. congruence.
    + intros _. right. eauto.
    + reflexivity.
  - split; [discriminate|]. intros [H|(d & H & _)]; discriminate.
  - split; [now left | reflexivity].
Qed.

End ParseEventFacts.

Lemma parse_event_some dateparser_parse in_bounds text ev :
  parse_event dateparser_parse in_bounds text = Returned (Some ev) ->
  exists activity dp name tm d,
    first_sentence (list_ascii_of_string text) activity dp name tm
    /\ dateparser_parse (phrase_to_resolve dp) = Returned (Some d)
    /\ in_bounds d = true
    /\ ev = event_of d activity name tm.
Proof.
  intros H.
  destruct (parse_event_first dateparser_parse in_bounds text)
    as [[_ Hn]|(activity & dp & name & tm & _ & Hf & Hp)]; [congruence|].
  rewrite Hp in H. apply parsed_as_some in H. destruct H as (d & Hd & Hb & ->).
  exists activity, dp, name, tm, d. auto.
Qed.

Lemma parse_event_sentence dateparser_parse in_bounds text activity dp name tm :
  sentence (list_ascii_of_string text) activity dp name tm ->
  exists activity' dp' name' tm',
    first_sentence (list_ascii_of_string text) activity' dp' name' tm'
    /\ parse_event dateparser_parse in_bounds text
       = parsed_as dateparser_parse in_bounds activity' dp' name' tm'.
Proof.
  intros Hsen.
  destruct (parse_event_first dateparser_parse in_bounds text)
    as [[Hs _]|(activity' & dp' & name' & tm' & _ & Hf & Hp)].
  - destruct (sentence_found _ _ _ _ _ Hsen) as [caps Hc]. congruence.
  - exists activity', dp', name', tm'. auto.
Qed.

Lemma groups_of_inj a dp n t a' dp' n' t' :
  groups_of a dp n t = groups_of a' dp' n' t' -> a = a' /\ dp = dp' /\ n = n' /\ t = t'.
Proof.
  intros E.
  destruct (group_groups_of a dp n t) as (H1 & H2 & H3 & H4).
  destruct (group_groups_of a' dp' n' t') as (H1' & H2' & H3' & H4').
  rewrite E in H1, H2, H3, H4. repeat split; congruence.
Qed.

Lemma search_reads text activity dp name tm :
  search event_pattern text = Some (groups_of activity dp name tm) ->
  first_sentence text activity dp name tm.
Proof.
  intros H. destruct (search_event_pattern _ _ H) as (a & d & n & t & Hf & E).
  apply groups_of_inj in E. destruct E as (-> & -> & -> & ->). exact Hf.
Qed.

(** C8 (as amended): [parse_event] implements the grammar
    [add <activity> [on <date-phrase>] for <name> [at <time-phrase>]],
    keywords in any case.  Every event it returns comes from the first
    reading of the text by that grammar, in the order of the matcher
    (the leftmost start; white space before a phrase as long, and the
    phrase as short, as the rest of the text allows: a final "at ..." is
    the time, not a part of the name), and a text has one first reading
    only.  Activity and name are the stripped phrases, the date is what
    the resolver gives for the stripped date-phrase, or for "today"
    without an "on" clause, the weekday is the day name of that date,
    and the time is the stripped time-phrase, or empty without an "at"
    clause.  Every text the grammar reads is parsed so by its first
    reading: the event is returned when the resolver resolves the
    date-phrase to a date that the timestamps of pandas hold; for a date
    out of their bounds [parse_event] raises.  "Add gym on Wednesday for
    Vinoth" gives activity "gym", name "Vinoth", no time and the date
    resolved for "Wednesday"; "add gym for Bob at 7" gives name "Bob"
    and time "7". *)
Theorem parse_event_grammar
  (dateparser_parse : string -> result (option PyDate.date))
  (in_bounds : PyDate.date -> bool) :
  (forall text ev,
      parse_event dateparser_parse in_bounds text = Returned (Some ev) ->
      exists activity dp name tm d,
        first_sentence (list_ascii_of_string text) activity dp name tm
        /\ dateparser_parse (phrase_to_resolve dp) = Returned (Some d)
        /\ in_bounds d = true
        /\ ev = mkEvent d (day_name d) (stripped name) (stripped activity)
                        (match tm with Some t => stripped t | None => "" end))
  /\ (forall text activity dp name tm,
         sentence (list_ascii_of_string text) activity dp name tm ->
         exists activity' dp' name' tm',
           first_sentence (list_ascii_of_string text) activity' dp' name' tm'
           /\ parse_event dateparser_parse in_bounds text
              = match dateparser_parse (phrase_to_resolve dp') with
                | Returned (Some d) =>
                    if in_bounds d
                    then Returned
                           (Some (mkEvent d (day_name d) (stripped name')
                                    (stripped activity')
                                    (match tm' with Some t => stripped t | None => "" end)))
                    else Raised
                | Returned None => Returned None
                | Raised => Raised
                end)
  /\ (forall text activity dp name tm activity' dp' name' tm',
         first_sentence text activity dp name tm ->
         first_sentence text activity' dp' name' tm' ->
         activity = activity' /\ dp = dp' /\ name = name' /\ tm = tm')
  /\ parse_event dateparser_parse in_bounds "Add gym on Wednesday for Vinoth"
     = match dateparser_parse "Wednesday" with
       | Returned (Some d) =>
           if in_bounds d
           then Returned (Some (mkEvent d (day_name d) "Vinoth" "gym" ""))
           else Raised
       | Returned None => Returned None
       | Raised => Raised
       end
  /\ parse_event dateparser_parse in_bounds "add gym for Bob at 7"
     = match dateparser_parse "today" with
       | Returned (Some d) =>
           if in_bounds d
           then Returned (Some (mkEvent d (day_name d) "Bob" "gym" "7"))
           else Raised
       | Returned None => Returned None
       | Raised => Raised
       end.
Proof.
  split; [|split; [|split; [|split]]].
  - intros text ev H. exact (parse_event_some dateparser_parse in_bounds text ev H).
  - intros text activity dp name tm Hsen.
    exact (parse_event_sentence dateparser_parse in_bounds text activity dp name tm Hsen).
  - intros text. apply first_sentence_unique.
  - rewrite (parse_event_reading dateparser_parse in_bounds
               "Add gym on Wednesday for Vinoth"
               (list_ascii_of_string "gym") (Some (list_ascii_of_string "Wednesday"))
               (list_ascii_of_string "Vinoth") None).
    + reflexivity.
    + apply first_sentence_reads, search_reads. vm_compute. reflexivity.
    + vm_compute. reflexivity.
  - rewrite (parse_event_reading dateparser_parse in_bounds
               "add gym for Bob at 7"
               (list_ascii_of_string "gym") None
               (list_ascii_of_string "Bob") (Some (list_ascii_of_string "7"))).
    + reflexivity.
    + apply first_sentence_reads, search_reads. vm_compute. reflexivity.
    + vm_compute. reflexivity.
Qed.

Lemma parse_event_grammar_witness :
  parse_event mock_resolver ns_bounds "Add gym on Wednesday for Vinoth"
  = Returned (Some (mkEvent (mkdate 2024 1 3) "Wednesday" "Vinoth" "gym" ""))
  /\ parse_event mock_resolver ns_bounds "add gym for Bob at 7"
     = Returned (Some (mkEvent (mkdate 2024 1 1) "Monday" "Bob" "gym" "7"))
  /\ exists activity dp name tm,
       first_sentence (list_ascii_of_string "add gym for Bob at 7") activity dp name tm
       /\ mock_resolver (phrase_to_resolve dp) = Returned (Some (mkdate 2024 1 1))
       /\ stripped activity = "gym" /\ stripped name = "Bob"
       /\ match tm with Some t => stripped t | None => "" end = "7".
Proof.
  destruct (parse_event_grammar mock_resolver ns_bounds) as (Hsound & _ & _ & Hex1 & Hex2).
  split; [rewrite Hex1; reflexivity|]. split; [rewrite Hex2; reflexivity|].
  destruct (Hsound "add gym for Bob at 7"
              (mkEvent (mkdate 2024 1 1) "Monday" "Bob" "gym" "7"))
    as (activity & dp & name & tm & d & Hsen & Hd & _ & Hev).
  - rewrite Hex2. reflexivity.
  - exists activity, dp, name, tm. injection Hev as Hdate _ Hname Hact Htm.
    subst d. auto.
Defined.

(** C8 (as stated) fails where the timestamps of pandas end: the text
    below is read by the grammar and the resolver resolves its
    date-phrase, but with the timestamps of pandas 2 no record is
    returned: [parse_event] raises. *)
Lemma parse_event_out_of_bounds :
  sentence (list_ascii_of_string "Add gym on 1 January 2300 for Vinoth")
           (list_ascii_of_string "gym") (Some (list_ascii_of_string "1 January 2300"))
           (list_ascii_of_string "Vinoth") None
  /\ mock_resolver "1 January 2300" = Returned (Some (mkdate 2300 1 1))
  /\ valid (mkdate 2300 1 1) = true
  /\ parse_event mock_resolver ns_bounds "Add gym on 1 January 2300 for Vinoth" = Raised.
Proof.
  split; [|repeat split].
  apply first_sentence_reads, search_reads. vm_compute. reflexivity.
Qed.

(** C9 (as amended): [parse_event] returns None for every text the
    grammar does not read, and for every text whose match has a
    date-phrase the resolver finds no date for; the groups it strips
    without a test, 1 and 3, are set in every match.  It raises on a
    match only, and then exactly when the resolver raises or resolves
    the date-phrase to a date out of the bounds of the timestamps of
    pandas.  "walk the dog" gives None. *)
Theorem parse_event_none
  (dateparser_parse : string -> result (option PyDate.date))
  (in_bounds : PyDate.date -> bool) :
  (forall text,
      (forall activity dp name tm,
          ~ sentence (list_ascii_of_string text) activity dp name tm) ->
      parse_event dateparser_parse in_bounds text = Returned None)
  /\ (forall text pattern,
         search event_pattern (list_ascii_of_string text) = Some pattern ->
         (group 1 pattern <> None /\ group 3 pattern <> None)
         /\ (dateparser_parse (phrase_to_resolve (group 2 pattern)) = Returned None ->
             parse_event dateparser_parse in_bounds text = Returned None)
         /\ (parse_event dateparser_parse in_bounds text = Raised
             <-> dateparser_parse (phrase_to_resolve (group 2 pattern)) = Raised
                 \/ exists d,
                      dateparser_parse (phrase_to_resolve (group 2 pattern))
                      = Returned (Some d)
                      /\ in_bounds d = false))
  /\ (forall text,
         parse_event dateparser_parse in_bounds text = Raised ->
         exists pattern, search event_pattern (list_ascii_of_string text) = Some pattern)
  /\ parse_event dateparser_parse in_bounds "walk the dog" = Returned None.
Proof.
  split; [|split; [|split]].
  - intros text Hno.
    destruct (parse_event_first dateparser_parse in_bounds text)
      as [[_ Hn]|(activity & dp & name & tm & _ & Hf & _)]; [exact Hn|].
    now destruct (Hno activity dp name tm (first_sentence_reads _ _ _ _ _ Hf)).
  - intros text pattern Hs.
    destruct (parse_event_first dateparser_parse in_bounds text)
      as [[Hn _]|(activity & dp & name & tm & Hs' & Hf & Hp)]; [congruence|].
    rewrite Hs in Hs'. injection Hs' as ->.
    destruct (group_groups_of activity dp name tm) as (E1 & E2 & E3 & _).
    rewrite E1, E2, E3, Hp. split; [split; discriminate|]. split.
    + intros Hd. unfold parsed_as. now rewrite Hd.
    + apply parsed_as_raised.
  - intros text H.
    destruct (parse_event_first dateparser_parse in_bounds text)
      as [[_ Hn]|(activity & dp & name & tm & Hs & _)]; [congruence | eauto].
  - reflexivity.
Qed.

Lemma parse_event_none_witness :
  parse_event mock_resolver ns_bounds "walk the dog" = Returned None
  /\ parse_event mock_resolver ns_bounds "add gym on someday for Vinoth" = Returned None.
Proof.
  destruct (parse_event_none mock_resolver ns_bounds) as (_ & Hres & _ & Hex).
  split; [exact Hex|].
  apply (Hres "add gym on someday for Vinoth"
           (groups_of (list_ascii_of_string "gym") (Some (list_ascii_of_string "someday"))
                      (list_ascii_of_string "Vinoth") None)).
  - vm_compute. reflexivity.
  - reflexivity.
Defined.

(** C9 (as stated) fails where the timestamps of pandas begin: the
    resolver resolves "1 Jan 0001" to a date, and with the timestamps of
    pandas 2 [parse_event] raises on it. *)
Lemma parse_event_raises :
  mock_resolver "1 Jan 0001" = Returned (Some (mkdate 1 1 1))
  /\ valid (mkdate 1 1 1) = true
  /\ parse_event mock_resolver ns_bounds "add gym on 1 Jan 0001 for bob" = Raised.
Proof. repeat split. Qed.

(** *** More on dates *)

Lemma days_before_year_succ y :
  days_before_year (y + 1) = days_before_year y + 365 + (if is_leap y then 1 else 0).
Proof.
  unfold days_before_year, is_leap. cbv zeta.
  replace (y + 1 - 1) with y by lia.
  destruct (Z.eqb_spec (y mod 4) 0), (Z.eqb_spec (y mod 100) 0),
    (Z.eqb_spec (y mod 400) 0); cbn; Z.div_mod_to_equations; lia.
Qed.

Lemma days_before_year_mono a b : a <= b -> days_before_year a <= days_before_year b.
Proof.
  intros H. unfold days_before_year. cbv zeta. Z.div_mod_to_equations. lia.
Qed.

Lemma days_before_month_succ y m :
  1 <= m <= 11 ->
  days_before_month y (m + 1) = days_before_month y m + days_in_month y m.
Proof.
  intros Hm. unfold days_before_month, days_in_month.
  assert (Hc : m = 1 \/ m = 2 \/ m = 3 \/ m = 4 \/ m = 5 \/ m = 6 \/
               m = 7 \/ m = 8 \/ m = 9 \/ m = 10 \/ m = 11) by lia.
  destruct Hc as [->|[->|[->|[->|[->|[->|[->|[->|[->|[->| ->]]]]]]]]]];
    cbn; destruct (is_leap y); reflexivity.
Qed.

Lemma days_in_month_pos y m : 1 <= m <= 12 -> 28 <= days_in_month y m.
Proof.
  intros Hm. unfold days_in_month.
  destruct (month_cases m Hm) as [->|[->|[->|[->|[->|[->|[->|[->|[->|[->|[->| ->]]]]]]]]]]];
    cbn; destruct (is_leap y); cbn; lia.
Qed.

Lemma days_before_month_lt y m m' :
  1 <= m -> m < m' -> m' <= 12 ->
  days_before_month y m + days_in_month y m <= days_before_month y m'.
Proof.
  intros H1 Hlt H12.
  replace m' with (m + 1 + Z.of_nat (Z.to_nat (m' - m - 1))) by lia.
  assert (Hk : m + 1 + Z.of_nat (Z.to_nat (m' - m - 1)) <= 12) by lia.
  revert Hk. generalize (Z.to_nat (m' - m - 1)) as k. clear m' Hlt H12.
  induction k as [|k IH]; intros Hk.
  - rewrite Z.add_0_r, days_before_month_succ by lia. lia.
  - replace (m + 1 + Z.of_nat (S k)) with (m + 1 + Z.of_nat k + 1) by lia.
    rewrite days_before_month_succ by lia.
    pose proof (days_in_month_pos y (m + 1 + Z.of_nat k) ltac:(lia)).
    specialize (IH ltac:(lia)). lia.
Qed.

Lemma days_in_year y m :
  1 <= m <= 12 ->
  days_before_month y m + days_in_month y m <= 365 + (if is_leap y then 1 else 0).
Proof.
  intros Hm. unfold days_before_month, days_in_month.
  destruct (month_cases m Hm) as [->|[->|[->|[->|[->|[->|[->|[->|[->|[->|[->| ->]]]]]]]]]]];
    cbn; destruct (is_leap y); cbn; lia.
Qed.

Lemma toordinal_injective d d' :
  valid d = true -> valid d' = true -> toordinal d = toordinal d' -> d = d'.
Proof.
  intros Hv Hv' He.
  apply valid_bounds in Hv, Hv'.
  destruct d as [y m dd], d' as [y' m' dd']. cbn [year month day] in *.
  unfold toordinal, ymd2ord in He. cbn [year month day] in He.
  destruct Hv as (Hy & Hm & Hd), Hv' as (Hy' & Hm' & Hd').
  pose proof (days_in_year y m Hm). pose proof (days_in_year y' m' Hm').
  pose proof (days_before_month_nonneg y m Hm).
  pose proof (days_before_month_nonneg y' m' Hm').
  pose proof (days_before_year_succ y). pose proof (days_before_year_succ y').
  assert (y = y').
  { destruct (Z.lt_trichotomy y y') as [Hlt|[E|Hgt]]; [|exact E|].
    - pose proof (days_before_year_mono (y + 1) y' ltac:(lia)). lia.
    - pose proof (days_before_year_mono (y' + 1) y ltac:(lia)). lia. }
  subst y'.
  assert (m = m').
  { destruct (Z.lt_trichotomy m m') as [Hlt|[E|Hgt]]; [|exact E|].
    - pose proof (days_before_month_lt y m m' ltac:(lia) Hlt ltac:(lia)). lia.
    - pose proof (days_before_month_lt y m' m ltac:(lia) Hgt ltac:(lia)). lia. }
  subst m'. f_equal. lia.
Qed.

Lemma toordinal_max d : valid d = true -> toordinal d <= MAXORDINAL.
Proof.
  intros Hv. apply valid_bounds in Hv. destruct Hv as (Hy & Hm & Hd).
  unfold toordinal, ymd2ord, MAXORDINAL.
  pose proof (days_in_year (year d) (month d) Hm).
  pose proof (days_before_year_succ (year d)).
  pose proof (days_before_year_mono (year d + 1) 10000 ltac:(lia)).
  change (days_before_year 10000) with 3652059 in *. lia.
Qed.

Lemma toordinal_fromordinal d : valid d = true -> fromordinal (toordinal d) = d.
Proof.
  intros Hv.
  pose proof (toordinal_pos d Hv). pose proof (toordinal_max d Hv).
  destruct (fromordinal_toordinal (toordinal d) ltac:(lia)) as [Hv' He].
  now apply toordinal_injective.
Qed.

(** *** More on the recurrence expander *)

Lemma add_days_some d k nd :
  valid d = true -> add_days d k = Some nd ->
  valid nd = true /\ toordinal nd = toordinal d + k.
Proof.
  unfold add_days. intros Hv H.
  destruct ((0 <? toordinal d + k) && (toordinal d + k <=? MAXORDINAL)) eqn:Hr;
    [|discriminate].
  injection H as <-. apply andb_prop in Hr. destruct Hr as [H0 H1].
  apply Z.ltb_lt in H0. apply Z.leb_le in H1.
  apply fromordinal_toordinal. lia.
Qed.

Lemma add_days_zero d : valid d = true -> add_days d 0 = Some d.
Proof.
  intros Hv. unfold add_days. rewrite Z.add_0_r.
  pose proof (toordinal_pos d Hv). pose proof (toordinal_max d Hv).
  replace ((0 <? toordinal d) && (toordinal d <=? MAXORDINAL)) with true.
  - now rewrite toordinal_fromordinal.
  - symmetry. apply andb_true_iff. split; [apply Z.ltb_lt | apply Z.leb_le]; lia.
Qed.

Lemma expand_loop_some in_bounds d name activity time recurrence : forall idx rows out,
  expand_loop in_bounds d name activity time recurrence idx rows = Some out ->
  exists ds,
    Forall2 (fun i nd => new_date d recurrence i = Some nd /\ in_bounds nd = true) idx ds
    /\ out = rows ++ map (fun nd => event_cells nd name activity time) ds.
Proof.
  induction idx as [|i idx IH]; intros rows out H; cbn [expand_loop] in H.
  - injection H as <-. exists []. split; [constructor | now rewrite app_nil_r].
  - destruct (new_date d recurrence i) as [nd|] eqn:Hnd; [|discriminate].
    destruct (event_row in_bounds nd name activity time) as [row|] eqn:Hrow;
      [|discriminate].
    apply event_row_some in Hrow. destruct Hrow as [Hb ->].
    destruct (IH _ _ H) as (ds & Hds & ->).
    exists (nd :: ds). split; [now constructor|].
    now rewrite <- app_assoc.
Qed.

Lemma expand_loop_none in_bounds d name activity time recurrence : forall idx rows i,
  In i idx ->
  match new_date d recurrence i with
  | Some nd => in_bounds nd = false
  | None => True
  end ->
  expand_loop in_bounds d name activity time recurrence idx rows = None.
Proof.
  induction idx as [|j idx IH]; intros rows i Hin Hi; [contradiction|].
  cbn [expand_loop]. destruct Hin as [->|Hin].
  - destruct (new_date d recurrence i) as [nd|]; [|reflexivity].
    now rewrite (event_row_out_of_bounds _ _ _ _ _ Hi).
  - destruct (new_date d recurrence j) as [nd|]; [|reflexivity].
    destruct (event_row in_bounds nd name activity time); [eauto | reflexivity].
Qed.

Lemma Forall2_nth_error {A B} (P : A -> B -> Prop) l l' :
  Forall2 P l l' ->
  forall n a, nth_error l n = Some a -> exists b, nth_error l' n = Some b /\ P a b.
Proof.
  induction 1 as [|x y l l' Hxy _ IH]; intros [|n] a Hn; cbn in *; try discriminate.
  - injection Hn as <-. eauto.
  - eauto.
Qed.

Lemma weekday_shift d nd k :
  toordinal nd = toordinal d + k -> weekday nd = (weekday d + k) mod 7.
Proof.
  intros H. unfold weekday. rewrite H.
  rewrite Zplus_mod_idemp_l. f_equal. lia.
Qed.

Lemma out_of_bounds_spec in_bounds d recurrence count :
  out_of_bounds in_bounds d recurrence count = true
  <-> exists i, 0 <= i < count /\ in_bounds (occurrence d recurrence i) = false.
Proof.
  unfold out_of_bounds. rewrite existsb_exists. split.
  - intros (i & Hi & Hb). apply range_In in Hi. apply negb_true_iff in Hb. eauto.
  - intros (i & Hi & Hb). exists i. split; [now apply range_In | now rewrite Hb].
Qed.

(** X1: with a valid start date and a positive count, the expander
    raises exactly when the last occurrence would fall after
    9999-12-31, or some occurrence is a date out of the bounds of the
    timestamps of pandas. *)
Theorem expand_recurring_events_raises_iff in_bounds d name activity time recurrence count :
  valid d = true ->
  0 < count ->
  (expand_recurring_events in_bounds d name activity time recurrence count = None
   <-> MAXORDINAL < toordinal d + step_days recurrence * (count - 1)
       \/ exists i, 0 <= i < count /\ in_bounds (occurrence d recurrence i) = false).
Proof.
  intros Hv Hcount. pose proof (toordinal_pos d Hv) as Hpos.
  pose proof (toordinal_max d Hv) as Hmax.
  assert (Hstep : 0 <= step_days recurrence).
  { unfold step_days. repeat destruct (String.eqb _ _); lia. }
  unfold expand_recurring_events. split.
  - intros H.
    destruct (Z.lt_ge_cases MAXORDINAL (toordinal d + step_days recurrence * (count - 1)))
      as [Hlt|Hge]; [now left|right].
    apply out_of_bounds_spec.
    destruct (out_of_bounds in_bounds d recurrence count) eqn:Hout; [reflexivity|exfalso].
    rewrite expand_loop_ok in H; [discriminate|].
    intros i Hi. split.
    + apply range_In in Hi. apply new_date_in_range; [assumption | lia | nia].
    + unfold out_of_bounds in Hout.
      destruct (in_bounds (occurrence d recurrence i)) eqn:Hb; [reflexivity|].
      assert (Hex : existsb (fun i => negb (in_bounds (occurrence d recurrence i)))
                            (range count) = true).
      { apply existsb_exists. exists i. split; [assumption | now rewrite Hb]. }
      congruence.
  - intros [Hlt|(i & Hi & Hb)].
    + rewrite (expand_loop_none in_bounds d name activity time recurrence (range count) []
                 (count - 1)); [reflexivity | apply range_In; lia |].
      replace (new_date d recurrence (count - 1)) with (@None PyDate.date); [exact I|].
      unfold new_date, step_days, add_days in *.
      destruct (String.eqb recurrence "Daily").
      * replace (toordinal d + (count - 1) <=? MAXORDINAL) with false;
          [now rewrite andb_false_r|].
        symmetry. apply Z.leb_gt. lia.
      * destruct (String.eqb recurrence "Weekly"); [|lia].
        replace (toordinal d + 7 * (count - 1) <=? MAXORDINAL) with false;
          [now rewrite andb_false_r|].
        symmetry. apply Z.leb_gt. lia.
    + rewrite (expand_loop_none in_bounds d name activity time recurrence (range count) []
                 i); [reflexivity | now apply range_In |].
      destruct (new_date d recurrence i) as [nd|] eqn:Hnd; [|exact I].
      apply new_date_occurrence in Hnd. now subst nd.
Qed.

Lemma expand_recurring_events_raises_iff_witness :
  (expand_recurring_events ns_bounds (mkdate 2262 4 10) "Vinoth" "gym" "7am" "Daily" 3
   = None
   <-> MAXORDINAL < toordinal (mkdate 2262 4 10) + step_days "Daily" * (3 - 1)
       \/ exists i, 0 <= i < 3
                    /\ ns_bounds (occurrence (mkdate 2262 4 10) "Daily" i) = false)
  /\ expand_recurring_events ns_bounds (mkdate 2262 4 10) "Vinoth" "gym" "7am" "Daily" 3
     = None
  /\ ns_bounds (occurrence (mkdate 2262 4 10) "Daily" 2) = false.
Proof.
  split; [|split; reflexivity].
  apply (expand_recurring_events_raises_iff ns_bounds (mkdate 2262 4 10));
    [reflexivity | lia].
Defined.

(** X2: whenever the expander returns a table for a valid start date
    and a positive count, its first row carries the start date itself,
    in every mode. *)
Theorem expand_recurring_events_first_row
  in_bounds d name activity time recurrence count df :
  valid d = true ->
  0 < count ->
  expand_recurring_events in_bounds d name activity time recurrence count = Some df ->
  nth_error (data df) 0
  = Some [Date d; Str (day_name d); Str name; Str activity; Str time].
Proof.
  intros Hv Hcount H. unfold expand_recurring_events in H.
  destruct (expand_loop _ _ _ _ _ _ _ _) as [rows|] eqn:Hloop; [|discriminate].
  injection H as <-. cbn [data].
  apply expand_loop_some in Hloop. destruct Hloop as (ds & Hds & ->).
  destruct (Forall2_nth_error _ _ _ Hds 0%nat 0 (range_nth count 0 ltac:(lia)))
    as (nd & Hnth & Hnd & _).
  assert (E : new_date d recurrence 0 = Some d).
  { unfold new_date. rewrite Z.mul_0_r, add_days_zero by assumption.
    now repeat destruct (String.eqb _ _). }
  rewrite E in Hnd. injection Hnd as <-.
  cbn [app]. destruct ds as [|x ds]; cbn in Hnth; [discriminate|].
  injection Hnth as ->. reflexivity.
Qed.

Lemma expand_recurring_events_first_row_witness :
  nth_error
    (data (mkDF COLUMNS
       [[Date (mkdate 2024 2 29); Str "Thursday"; Str "Vinoth"; Str "gym"; Str "7am"];
        [Date (mkdate 2024 3 1); Str "Friday"; Str "Vinoth"; Str "gym"; Str "7am"]])) 0
  = Some [Date (mkdate 2024 2 29); Str (day_name (mkdate 2024 2 29)); Str "Vinoth";
          Str "gym"; Str "7am"].
Proof.
  apply (expand_recurring_events_first_row ns_bounds (mkdate 2024 2 29) "Vinoth" "gym"
           "7am" "Daily" 2); [reflexivity | lia | reflexivity].
Defined.

(** X3: every row of a weekly expansion falls on the weekday of the
    start date. *)
Theorem expand_weekly_same_weekday in_bounds d name activity time count df :
  valid d = true ->
  expand_recurring_events in_bounds d name activity time "Weekly" count = Some df ->
  Forall (fun r => nth_error r 1 = Some (Str (day_name d))) (data df).
Proof.
  intros Hv H. unfold expand_recurring_events in H.
  destruct (expand_loop _ _ _ _ _ _ _ _) as [rows|] eqn:Hloop; [|discriminate].
  injection H as <-. cbn [data].
  apply expand_loop_some in Hloop. destruct Hloop as (ds & Hds & ->).
  cbn [app]. apply Forall_forall. intros r Hr.
  apply in_map_iff in Hr. destruct Hr as (nd & <- & Hnd).
  cbn. do 2 f_equal.
  clear name activity time.
  induction Hds as [|i x idx ds [Hx _] _ IH]; [contradiction|].
  destruct Hnd as [->|Hnd]; [|auto].
  cbn in Hx. destruct (add_days_some d (7 * i) nd Hv Hx) as [_ Hord].
  unfold day_name. rewrite (weekday_shift d nd (7 * i) Hord).
  replace ((weekday d + 7 * i) mod 7) with (weekday d); [reflexivity|].
  unfold weekday. rewrite Z.add_comm, Z.mul_comm, Z_mod_plus_full.
  now rewrite Zmod_mod.
Qed.

Lemma expand_weekly_same_weekday_witness :
  Forall (fun r => nth_error r 1 = Some (Str (day_name (mkdate 2024 1 3))))
    (data (mkDF COLUMNS
       [[Date (mkdate 2024 1 3); Str "Wednesday"; Str "Vinoth"; Str "gym"; Str "7am"];
        [Date (mkdate 2024 1 10); Str "Wednesday"; Str "Vinoth"; Str "gym"; Str "7am"];
        [Date (mkdate 2024 1 17); Str "Wednesday"; Str "Vinoth"; Str "gym"; Str "7am"]])).
Proof.
  apply (expand_weekly_same_weekday ns_bounds (mkdate 2024 1 3) "Vinoth" "gym" "7am" 3);
    reflexivity.
Defined.

(** X4: in a daily expansion the weekday moves on by one from each row
    to the next: row [i] falls on weekday number (start + i) mod 7. *)
Theorem expand_daily_weekdays in_bounds d name activity time count df i :
  valid d = true ->
  expand_recurring_events in_bounds d name activity time "Daily" count = Some df ->
  0 <= i < count ->
  exists nd,
    nth_error (data df) (Z.to_nat i)
    = Some [Date nd; Str (day_name nd); Str name; Str activity; Str time]
    /\ weekday nd = (weekday d + i) mod 7.
Proof.
  intros Hv H Hi. unfold expand_recurring_events in H.
  destruct (expand_loop _ _ _ _ _ _ _ _) as [rows|] eqn:Hloop; [|discriminate].
  injection H as <-. cbn [data].
  apply expand_loop_some in Hloop. destruct Hloop as (ds & Hds & ->).
  destruct (Forall2_nth_error _ _ _ Hds _ _ (range_nth count i Hi))
    as (nd & Hnth & Hnd & _).
  exists nd. cbn [app]. rewrite nth_error_map, Hnth. split; [reflexivity|].
  cbn in Hnd. destruct (add_days_some d i nd Hv Hnd) as [_ Hord].
  now apply weekday_shift.
Qed.

Lemma expand_daily_weekdays_witness :
  exists nd,
    nth_error
      (data (mkDF COLUMNS
         [[Date (mkdate 2024 2 29); Str "Thursday"; Str "Vinoth"; Str "gym"; Str "7am"];
          [Date (mkdate 2024 3 1); Str "Friday"; Str "Vinoth"; Str "gym"; Str "7am"]]))
      (Z.to_nat 1)
    = Some [Date nd; Str (day_name nd); Str "Vinoth"; Str "gym"; Str "7am"]
    /\ weekday nd = (weekday (mkdate 2024 2 29) + 1) mod 7.
Proof.
  apply (expand_daily_weekdays ns_bounds (mkdate 2024 2 29) "Vinoth" "gym" "7am" 2);
    [reflexivity | reflexivity | lia].
Defined.

(** X5: a recurrence that is neither "Daily" nor "Weekly" is no
    recurrence: nothing is added to the date, and no date overflows.
    For any date and any count the expander returns the start date
    [count] times (no row for a count below 1), unless the start date
    is out of the bounds of the timestamps of pandas and a row is asked
    for: then it raises. *)
Theorem expand_other_recurrence in_bounds d name activity time recurrence count :
  recurrence <> "Daily" ->
  recurrence <> "Weekly" ->
  expand_recurring_events in_bounds d name activity time recurrence count
  = if (0 <? count) && negb (in_bounds d) then None
    else Some (mkDF COLUMNS
                 (repeat [Date d; Str (day_name d); Str name; Str activity; Str time]
                         (Z.to_nat count))).
Proof.
  intros Hd Hw. apply String.eqb_neq in Hd, Hw.
  unfold expand_recurring_events.
  destruct (in_bounds d) eqn:Hb; cbn [negb]; rewrite ?andb_true_r, ?andb_false_r.
  - assert (E : forall idx rows,
               expand_loop in_bounds d name activity time recurrence idx rows
               = Some (rows ++ repeat (event_cells d name activity time)
                                      (List.length idx))).
    { induction idx as [|i idx IH]; intros rows; cbn [expand_loop List.length repeat].
      - now rewrite app_nil_r.
      - unfold new_date. rewrite Hd, Hw, (event_row_in_bounds _ _ _ _ _ Hb), IH,
          <- app_assoc. reflexivity. }
    rewrite E, range_length. reflexivity.
  - destruct (Z.ltb_spec 0 count) as [Hpos|Hneg].
    + rewrite (expand_loop_none in_bounds d name activity time recurrence (range count)
                 [] 0); [reflexivity | apply range_In; lia |].
      unfold new_date. now rewrite Hd, Hw.
    + unfold range. replace (Z.to_nat count) with 0%nat by lia. reflexivity.
Qed.

Lemma expand_other_recurrence_witness :
  expand_recurring_events ns_bounds (mkdate 2262 4 11) "Vinoth" "gym" "7am" "None" 2
  = Some (mkDF COLUMNS
            (repeat [Date (mkdate 2262 4 11); Str (day_name (mkdate 2262 4 11));
                     Str "Vinoth"; Str "gym"; Str "7am"] (Z.to_nat 2)))
  /\ expand_recurring_events ns_bounds (mkdate 9999 12 31) "Vinoth" "gym" "7am" "None" 2
     = None.
Proof.
  split.
  - apply (expand_other_recurrence ns_bounds (mkdate 2262 4 11) "Vinoth" "gym" "7am"
             "None" 2); discriminate.
  - apply (expand_other_recurrence ns_bounds (mkdate 9999 12 31) "Vinoth" "gym" "7am"
             "None" 2); discriminate.
Defined.

(** *** More on normalisation *)

Lemma sanitized_rows_wf (to_datetime : cell -> option PyDate.date) cols rows :
  table (mkDF COLUMNS (map (sanitized_row to_datetime cols) rows)).
Proof.
  split.
  - unfold wf. cbn [columns data]. apply Forall_forall. intros r Hr.
    apply in_map_iff in Hr. destruct Hr as (r0 & <- & _). reflexivity.
  - cbn [columns]. repeat constructor; cbn; intuition discriminate.
Qed.

(** X6: normalising a normalised table changes nothing. *)
Theorem sanitize_remote_df_idempotent
  (to_datetime : cell -> option PyDate.date) df out :
  to_datetime NaT = None ->
  (forall c d, to_datetime c = Some d -> to_datetime (Date d) = Some d) ->
  table df ->
  sanitize_remote_df to_datetime (Some df) = Some out ->
  sanitize_remote_df to_datetime (Some out) = Some out.
Proof.
  intros Hnat Hidem [Hwf Hnd] Hout.
  rewrite (sanitize_rows to_datetime df Hwf Hnd) in Hout. injection Hout as <-.
  destruct (sanitized_rows_wf to_datetime (columns df) (data df)) as [Hwf' Hnd'].
  rewrite (sanitize_rows to_datetime _ Hwf' Hnd'). cbn [columns data].
  do 2 f_equal. rewrite map_map. apply map_ext. intros r.
  unfold sanitized_row at 1. cbv zeta.
  change (cell_of "Date" COLUMNS (sanitized_row to_datetime (columns df) r))
    with (dt_date (to_datetime (cell_of "Date" (columns df) r))).
  change (cell_of "Name" COLUMNS (sanitized_row to_datetime (columns df) r))
    with (cell_of "Name" (columns df) r).
  change (cell_of "Activity" COLUMNS (sanitized_row to_datetime (columns df) r))
    with (cell_of "Activity" (columns df) r).
  change (cell_of "Time" COLUMNS (sanitized_row to_datetime (columns df) r))
    with (cell_of "Time" (columns df) r).
  unfold sanitized_row. cbv zeta.
  destruct (to_datetime (cell_of "Date" (columns df) r)) as [d|] eqn:Hd; cbn [dt_date].
  - rewrite !(Hidem _ _ Hd). cbn [dt_date]. now rewrite !(Hidem _ _ Hd).
  - rewrite !Hnat. cbn [dt_date]. now rewrite !Hnat.
Qed.

Lemma sanitize_remote_df_idempotent_witness :
  sanitize_remote_df to_datetime_iso
    (Some (mkDF COLUMNS
       [[Date (mkdate 2024 1 3); Str "Wednesday"; NA; NA; Str "7am"];
        [NaT; NaN; NA; NA; NaN]]))
  = Some (mkDF COLUMNS
       [[Date (mkdate 2024 1 3); Str "Wednesday"; NA; NA; Str "7am"];
        [NaT; NaN; NA; NA; NaN]]).
Proof.
  apply (sanitize_remote_df_idempotent to_datetime_iso
           (mkDF ["Unnamed: 0"; "Time"; "Date"]
                  [[Str "0"; Str "7am"; Str "2024-01-03"];
                   [Str "1"; NaN; Str "soon"]])).
  - reflexivity.
  - exact to_datetime_iso_again.
  - split; [repeat constructor | repeat constructor; cbn; intuition discriminate].
  - reflexivity.
Defined.

(** X7: normalisation keeps every row, in its place, with its Name,
    Activity and Time cells as they were stored; under a column the
    stored table lacks the cell is pd.NA. *)
Theorem sanitize_remote_df_keeps_text
  (to_datetime : cell -> option PyDate.date) df out :
  table df ->
  sanitize_remote_df to_datetime (Some df) = Some out ->
  Forall2 (fun r o =>
             nth_error o 2 = Some (cell_of "Name" (columns df) r)
             /\ nth_error o 3 = Some (cell_of "Activity" (columns df) r)
             /\ nth_error o 4 = Some (cell_of "Time" (columns df) r))
          (data df) (data out).
Proof.
  intros [Hwf Hnd] Hout.
  rewrite (sanitize_rows to_datetime df Hwf Hnd) in Hout. injection Hout as <-.
  cbn [data]. clear. induction (data df) as [|r rows IH]; cbn [map]; constructor; auto.
Qed.

Lemma sanitize_remote_df_keeps_text_witness :
  Forall2 (fun r o =>
             nth_error o 2 = Some (cell_of "Name" ["Unnamed: 0"; "Time"; "Date"] r)
             /\ nth_error o 3 = Some (cell_of "Activity" ["Unnamed: 0"; "Time"; "Date"] r)
             /\ nth_error o 4 = Some (cell_of "Time" ["Unnamed: 0"; "Time"; "Date"] r))
          [[Str "0"; Str "7am"; Str "2024-01-03"]; [Str "1"; NaN; Str "soon"]]
          [[Date (mkdate 2024 1 3); Str "Wednesday"; NA; NA; Str "7am"];
           [NaT; NaN; NA; NA; NaN]].
Proof.
  apply (sanitize_remote_df_keeps_text to_datetime_iso
           (mkDF ["Unnamed: 0"; "Time"; "Date"]
                 [[Str "0"; Str "7am"; Str "2024-01-03"]; [Str "1"; NaN; Str "soon"]])
           (mkDF COLUMNS
                 [[Date (mkdate 2024 1 3); Str "Wednesday"; NA; NA; Str "7am"];
                  [NaT; NaN; NA; NA; NaN]])).
  - split; [repeat constructor | repeat constructor; cbn; intuition discriminate].
  - reflexivity.
Defined.

(** X8: labels are taken as they are written: in a stored table with no
    column labelled exactly "Date" (a "date" column, say), every row comes
    out with a null Date and a null Weekday. *)
Theorem sanitize_remote_df_without_date
  (to_datetime : cell -> option PyDate.date) df out :
  to_datetime NA = None ->
  to_datetime NaT = None ->
  table df ->
  ~ In "Date" (columns df) ->
  sanitize_remote_df to_datetime (Some df) = Some out ->
  Forall (fun o => nth_error o 0 = Some NaT /\ nth_error o 1 = Some NaN) (data out).
Proof.
  intros Hna Hnat [Hwf Hnd] Hno Hout.
  rewrite (sanitize_rows to_datetime df Hwf Hnd) in Hout. injection Hout as <-.
  cbn [data]. apply Forall_forall. intros o Ho.
  apply in_map_iff in Ho. destruct Ho as (r & <- & _).
  unfold sanitized_row, cell_of. cbv zeta. rewrite pick_notin by assumption.
  rewrite Hna. cbn [dt_date]. rewrite Hnat. split; reflexivity.
Qed.

Lemma sanitize_remote_df_without_date_witness :
  Forall (fun o => nth_error o 0 = Some NaT /\ nth_error o 1 = Some NaN)
         [[NaT; NaN; Str "Vinoth"; NA; NA]].
Proof.
  apply (sanitize_remote_df_without_date to_datetime_iso
           (mkDF ["date"; "Name"] [[Str "2024-01-03"; Str "Vinoth"]])
           (mkDF COLUMNS [[NaT; NaN; Str "Vinoth"; NA; NA]])).
  - reflexivity.
  - reflexivity.
  - split; [repeat constructor | repeat constructor; cbn; intuition discriminate].
  - cbn. intuition discriminate.
  - reflexivity.
Defined.

(** *** Running the page against a store *)

Lemma of_grid_table na_value g : well_formed_grid g -> table (of_grid na_value g).
Proof.
  intros [Hnd Hlen]. split; [|exact Hnd].
  unfold wf, of_grid. cbn [columns data]. apply Forall_forall. intros r Hr.
  apply in_map_iff in Hr. destruct Hr as (r0 & <- & Hr0).
  rewrite Forall_forall in Hlen. rewrite length_map. auto.
Qed.

Lemma empty_table : table (mkDF COLUMNS []).
Proof.
  split; [constructor|]. cbn. repeat constructor; cbn; intuition discriminate.
Qed.

Section PageFacts.

Variable to_datetime : cell -> option PyDate.date.
Variable csv_fields : string -> option Grid.
Variable na_value : string -> bool.
Variable b64decode : string -> option string.
Variable url_text : Response -> option string.

Hypothesis fields_well_formed :
  forall raw g, csv_fields raw = Some g -> well_formed_grid g.

Context {S : Type} (serve : Request -> S -> Response * S).

Lemma read_csv_table raw df : read_csv csv_fields na_value raw = Some df -> table df.
Proof.
  unfold read_csv. destruct (csv_fields raw) as [g|] eqn:Hg; [|discriminate].
  intros [= <-]. apply of_grid_table. eauto.
Qed.

Lemma decoded_table r df : decoded csv_fields na_value b64decode r = Some df -> table df.
Proof.
  unfold decoded. destruct (json r) as [j|]; [|discriminate].
  destruct (dict_get_default "content" "" j) as [c|]; [|discriminate].
  destruct (b64decode c) as [raw|]; [|discriminate].
  apply read_csv_table.
Qed.

Lemma run_sanitized df s :
  table df ->
  exists out,
    run serve (sanitized to_datetime df) s = (Some out, s, [])
    /\ sanitize_remote_df to_datetime (Some df) = Some out
    /\ columns out = COLUMNS /\ wf out.
Proof.
  intros [Hwf Hnd]. unfold sanitized.
  rewrite (sanitize_rows to_datetime df Hwf Hnd).
  eexists. split; [reflexivity|]. split; [reflexivity|].
  split; [reflexivity|]. apply sanitized_rows_wf.
Qed.

Lemma run_load_raw s :
  exists out,
    run serve (load_raw to_datetime csv_fields na_value url_text) s
    = (Some out, snd (serve (GET RAW_URL []) s), [GET RAW_URL []])
    /\ columns out = COLUMNS /\ wf out.
Proof.
  unfold load_raw, read_csv_url. cbn [run].
  destruct (serve (GET RAW_URL []) s) as [r s1]. cbn [snd].
  assert (Hempty : exists out,
             run serve (Ret (mkDF COLUMNS [])) s1 = (Some out, s1, [])
             /\ columns out = COLUMNS /\ wf out).
  { exists (mkDF COLUMNS []). split; [reflexivity|]. split; [reflexivity | constructor]. }
  destruct (url_text r) as [raw|]; [|destruct Hempty as (out & -> & H); eauto].
  destruct (read_csv csv_fields na_value raw) as [df|] eqn:Hread;
    [|destruct Hempty as (out & -> & H); eauto].
  destruct (run_sanitized df s1 (read_csv_table raw df Hread)) as (out & -> & _ & Hc & Hw).
  exists out. auto.
Qed.

(** What the load sends and returns, case by case. *)
Lemma run_load token s :
  let g := serve (GET API_URL (auth_headers token)) s in
  exists res s' log,
    run serve (load_schedule_from_github to_datetime csv_fields na_value b64decode
                 url_text token) s = (res, s', log)
    /\ (res = None <-> truthy token = true /\ not_json (fst g) = true)
    /\ (forall out, res = Some out -> columns out = COLUMNS /\ wf out)
    /\ log = (if truthy token
              then GET API_URL (auth_headers token)
                   :: (if status_code (fst g) =? 200 then [] else [GET RAW_URL []])
              else [GET RAW_URL []])
    /\ (res = None -> s' = snd g).
Proof.
  cbv zeta. unfold load_schedule_from_github. destruct (truthy token) eqn:Htok.
  - rewrite run_bind, run_fetch. cbv zeta. unfold not_json.
    destruct (serve (GET API_URL (auth_headers token)) s) as [r s1]. cbn [fst snd].
    destruct (status_code r =? 200) eqn:H200; cbn [negb andb].
    + destruct (json r) as [j|] eqn:Hj.
      * cbn [fst].
        assert (Ht : table match decoded csv_fields na_value b64decode r with
                           | Some df => df
                           | None => mkDF COLUMNS []
                           end).
        { destruct (decoded csv_fields na_value b64decode r) as [df|] eqn:Hd;
            [exact (decoded_table r df Hd) | exact empty_table]. }
        destruct (run_sanitized _ s1 Ht) as (out & -> & _ & Hc & Hw).
        exists (Some out), s1, [GET API_URL (auth_headers token)].
        split; [reflexivity|]. split; [split; [discriminate | intros [_ H]; discriminate]|].
        split; [intros o [= <-]; auto|]. split; [reflexivity | discriminate].
      * exists None, s1, [GET API_URL (auth_headers token)].
        split; [reflexivity|]. split; [split; auto|].
        split; [discriminate|]. split; reflexivity.
    + cbn [fst]. destruct (run_load_raw s1) as (out & -> & Hc & Hw).
      exists (Some out), (snd (serve (GET RAW_URL []) s1)),
        [GET API_URL (auth_headers token); GET RAW_URL []].
      split; [reflexivity|]. split; [split; [discriminate | intros [_ H]; discriminate]|].
      split; [intros o [= <-]; auto|]. split; [reflexivity | discriminate].
  - destruct (run_load_raw s) as (out & -> & Hc & Hw).
    exists (Some out), (snd (serve (GET RAW_URL []) s)), [GET RAW_URL []].
    split; [reflexivity|]. split; [split; [discriminate | intros [H _]; discriminate]|].
    split; [intros o [= <-]; auto|]. split; [reflexivity | discriminate].
Qed.

End PageFacts.

Lemma run_sanitized_log {S} (to_datetime : cell -> option PyDate.date)
  (serve : Request -> S -> Response * S) df s :
  snd (run serve (sanitized to_datetime df) s) = []
  /\ snd (fst (run serve (sanitized to_datetime df) s)) = s.
Proof.
  unfold sanitized. destruct (sanitize_remote_df to_datetime (Some df)); split; reflexivity.
Qed.

Lemma run_load_raw_log {S} to_datetime csv_fields na_value url_text
  (serve : Request -> S -> Response * S) s :
  snd (run serve (load_raw to_datetime csv_fields na_value url_text) s) = [GET RAW_URL []].
Proof.
  unfold load_raw. cbn [run]. destruct (serve (GET RAW_URL []) s) as [r s1].
  destruct (read_csv_url csv_fields na_value url_text r) as [df|]; [|reflexivity].
  pose proof (run_sanitized_log to_datetime serve df s1) as [Hl _].
  destruct (run serve (sanitized to_datetime df) s1) as [[a s2] log].
  cbn [snd] in *. now rewrite Hl.
Qed.

(** X9: with a token, a table that has no Date column makes the write
    raise before anything is sent: no GET for the sha, no PUT, the store
    as it was. *)
Theorem update_without_date_column {S : Type}
  (csv_text : Grid -> string) (b64encode : string -> string)
  (serve : Request -> S -> Response * S) (s : S)
  df token message :
  truthy token = true ->
  ~ In "Date" (columns df) ->
  run serve (update_schedule_on_github csv_text b64encode df token message) s
  = (None, s, []).
Proof.
  intros Htok Hno. unfold update_schedule_on_github, csv_content, upload_df, getitem.
  rewrite Htok. cbn [negb].
  assert (E : filter (String.eqb "Date") (columns df) = []).
  2:{ rewrite E. reflexivity. }
  revert Hno. generalize (columns df) as cols.
  induction cols as [|c cols IH]; intros Hno; [reflexivity|].
  cbn [filter]. destruct (String.eqb "Date" c) eqn:Hc.
  - apply String.eqb_eq in Hc. subst c. exfalso. apply Hno. now left.
  - apply IH. intros H. apply Hno. now right.
Qed.

Lemma update_without_date_column_witness :
  run mock_serve
    (update_schedule_on_github plain_csv_text mock_encode
       (mkDF ["Name"; "Activity"] [[Str "Vinoth"; Str "gym"]]) (Some "secret")
       "Delete event") ["S1"]
  = (None, ["S1"], []).
Proof.
  apply (update_without_date_column plain_csv_text mock_encode mock_serve ["S1"]
           (mkDF ["Name"; "Activity"] [[Str "Vinoth"; Str "gym"]]) (Some "secret")
           "Delete event").
  - reflexivity.
  - cbn. intuition discriminate.
Defined.

(** X10: the fetch and the sha lookup send the same request, leave the
    store in the same state and agree on the sha: the sha the fetch
    returns beside its table is the one [get_github_sha] returns for the
    same response, and where one of them raises (a 200 whose body is not
    JSON) so does the other. *)
Theorem fetch_and_sha_agree {S : Type}
  (csv_fields : string -> option Grid) (na_value : string -> bool)
  (b64decode : string -> option string)
  (serve : Request -> S -> Response * S) (s : S) token :
  exists res s1 log,
    run serve (fetch_remote_csv_via_api csv_fields na_value b64decode token) s
    = (res, s1, log)
    /\ run serve (get_github_sha token) s = (option_map snd res, s1, log)
    /\ (forall sha, res = Some (None, sha) -> sha = None).
Proof.
  rewrite run_fetch, run_get_github_sha. cbv zeta. unfold not_json, sha_of_response.
  destruct (serve (GET API_URL (auth_headers token)) s) as [r s1]. cbn [fst snd].
  do 3 eexists. split; [reflexivity|].
  destruct (status_code r =? 200); cbn [negb andb].
  - destruct (json r) as [j|]; cbn [option_map snd]; split; try reflexivity; discriminate.
  - cbn [option_map snd]. split; [reflexivity|]. now intros sha [= <-].
Qed.


Lemma mock_fields_well_formed raw g : mock_fields raw = Some g -> well_formed_grid g.
Proof.
  intros H. injection H as <-. split.
  - cbn. repeat constructor; cbn; intuition discriminate.
  - repeat constructor.
Qed.


Lemma run_load_log {S : Type}
  (to_datetime : cell -> option PyDate.date) (csv_fields : string -> option Grid)
  (na_value : string -> bool) (b64decode : string -> option string)
  (url_text : Response -> option string)
  (serve : Request -> S -> Response * S) (s : S) token :
  snd (run serve (load_schedule_from_github to_datetime csv_fields na_value b64decode
                    url_text token) s)
  = if truthy token
    then GET API_URL [("Authorization", ("token " ++ token_text token)%string)]
         :: (if status_code (fst (serve (GET API_URL (auth_headers token)) s)) =? 200
             then [] else [GET RAW_URL []])
    else [GET RAW_URL []].
Proof.
  unfold load_schedule_from_github. destruct (truthy token) eqn:Htok.
  - rewrite run_bind, run_fetch. cbv zeta.
    replace (auth_headers token)
      with [("Authorization", ("token " ++ token_text token)%string)]
      by (unfold auth_headers; now rewrite Htok).
    destruct (serve _ s) as [r s1]. cbn [fst snd].
    destruct (status_code r =? 200) eqn:H200; cbn [negb fst].
    + destruct (json r) as [j|]; [|reflexivity]. cbn [fst].
      match goal with
      | |- context [sanitized to_datetime ?df] =>
          pose proof (run_sanitized_log to_datetime serve df s1) as [Hl _];
          destruct (run serve (sanitized to_datetime df) s1) as [[a s2] log]
      end.
      cbn [snd] in *. now rewrite Hl.
    + pose proof (run_load_raw_log to_datetime csv_fields na_value url_text serve s1) as Hl.
      destruct (run serve (load_raw to_datetime csv_fields na_value url_text) s1)
        as [[a s2] log].
      cbn [snd] in *. now rewrite Hl.
  - apply run_load_raw_log.
Qed.

(** X12: which requests the load sends.  Without a token: one GET of
    the raw URL, with no header, and nothing to the API.  With a token:
    one GET of the API with the token; the raw URL is read after it
    exactly when the API did not answer 200. *)
Theorem load_schedule_requests {S : Type}
  (to_datetime : cell -> option PyDate.date) (csv_fields : string -> option Grid)
  (na_value : string -> bool) (b64decode : string -> option string)
  (url_text : Response -> option string)
  (serve : Request -> S -> Response * S) (s : S) token :
  snd (run serve (load_schedule_from_github to_datetime csv_fields na_value b64decode
                    url_text token) s)
  = if truthy token
    then GET API_URL [("Authorization", ("token " ++ token_text token)%string)]
         :: (if status_code (fst (serve (GET API_URL (auth_headers token)) s)) =? 200
             then [] else [GET RAW_URL []])
    else [GET RAW_URL []].
Proof.
  apply run_load_log.
Qed.

(** *** The buttons *)

Lemma csv_content_canonical_columns csv_text rows :
  csv_content csv_text (mkDF COLUMNS rows)
  = Some (to_csv csv_text
            (setitem "Date"
               (map date_text (flat_map (pick "Date" COLUMNS) rows))
               (mkDF COLUMNS rows))).
Proof. reflexivity. Qed.

Lemma concat_same_columns a b :
  columns a = columns b -> concat a b = Some (mkDF (columns a) (data a ++ data b)).
Proof.
  intros H. unfold concat.
  destruct (list_eq_dec string_dec (columns a) (columns b)); [reflexivity|contradiction].
Qed.

Section ButtonFacts.

Variable to_datetime : cell -> option PyDate.date.
Variable in_bounds : PyDate.date -> bool.
Variable dateparser_parse : string -> result (option PyDate.date).
Variable csv_text : Grid -> string.
Variable csv_fields : string -> option Grid.
Variable na_value : string -> bool.
Variable b64encode : string -> string.
Variable b64decode : string -> option string.
Variable url_text : Response -> option string.

Context {S : Type} (serve : Request -> S -> Response * S).

Let load := load_schedule_from_github to_datetime csv_fields na_value b64decode url_text.
Let merge :=
  merge_and_upload to_datetime csv_text csv_fields na_value b64encode b64decode url_text.

Lemma run_load_no_token token s :
  truthy token = false -> snd (run serve (load token) s) = [GET RAW_URL []].
Proof.
  intros Htok. unfold load. rewrite run_load_log. now rewrite Htok.
Qed.

Lemma run_merge_no_token new_rows token message s :
  truthy token = false ->
  snd (run serve (merge new_rows token message) s) = [GET RAW_URL []].
Proof.
  intros Htok. unfold merge, merge_and_upload. rewrite run_bind. fold load.
  pose proof (run_load_no_token token s Htok) as Hl.
  destruct (run serve (load token) s) as [[[latest|] s1] log1]; cbn [snd] in *;
    [|exact Hl].
  rewrite Htok. cbn [negb].
  destruct (with_dates to_datetime new_rows) as [nr|]; [|cbn; now rewrite app_nil_r].
  destruct (concat latest nr); cbn; now rewrite app_nil_r.
Qed.

Hypothesis fields_well_formed :
  forall raw g, csv_fields raw = Some g -> well_formed_grid g.

Lemma run_load_reads token s :
  exists res s' log,
    run serve (load token) s = (res, s', log)
    /\ Forall is_get log
    /\ (forall out, res = Some out -> columns out = COLUMNS /\ wf out).
Proof.
  destruct (run_load to_datetime csv_fields na_value b64decode url_text
              fields_well_formed serve token s)
    as (res & s' & log & Hrun & _ & Hsome & -> & _).
  exists res, s'. eexists. split; [exact Hrun|]. split; [|exact Hsome].
  destruct (truthy token); [destruct (_ =? 200)|]; repeat constructor.
Qed.

Lemma run_load_returned token s latest s1 log1 :
  run serve (load token) s = (Some latest, s1, log1) ->
  columns latest = COLUMNS /\ wf latest /\ Forall is_get log1.
Proof.
  intros H. destruct (run_load_reads token s) as (res & s' & log & Hrun & Hlog & Hsome).
  rewrite H in Hrun. injection Hrun as <- <- <-.
  destruct (Hsome latest eq_refl). auto.
Qed.

(** The upload of the two add buttons, with a token, once the load has
    returned. *)
Lemma run_merge new_rows token message s latest s1 log1 :
  truthy token = true ->
  columns new_rows = COLUMNS ->
  with_dates to_datetime new_rows = Some new_rows ->
  run serve (load token) s = (Some latest, s1, log1) ->
  let g := serve (GET API_URL (auth_headers token)) s1 in
  columns latest = COLUMNS
  /\ exists doc,
       csv_content csv_text (mkDF COLUMNS (data latest ++ data new_rows)) = Some doc
       /\ (not_json (fst g) = false ->
           exists res s' rest,
             run serve (merge new_rows token message) s
             = (res, s',
                log1 ++ GET API_URL (auth_headers token)
                     :: PUT API_URL
                          (put_payload message (b64encode doc) (sha_of_response (fst g)))
                          (put_headers token)
                     :: rest)
             /\ Forall is_get rest
             /\ (forall out, res = Some out ->
                             exists ok code text, out = GitHubResponse ok code text))
       /\ (not_json (fst g) = true ->
           run serve (merge new_rows token message) s
           = (None, snd g, log1 ++ [GET API_URL (auth_headers token)])).
Proof.
  intros Htok Hcols Hdates Hload. cbv zeta.
  destruct (run_load_returned token s latest s1 log1 Hload) as (Hc & Hw & Hg).
  split; [exact Hc|]. eexists. split; [apply csv_content_canonical_columns|].
  unfold merge, merge_and_upload. rewrite run_bind. fold load. rewrite Hload, Hdates.
  rewrite (concat_same_columns latest new_rows) by congruence.
  rewrite Htok, Hc. cbn [negb]. rewrite run_bind.
  rewrite (run_update csv_text b64encode serve s1 _ token message _ Htok
             (csv_content_canonical_columns csv_text _)).
  cbv zeta.
  destruct (serve (GET API_URL (auth_headers token)) s1) as [r1 s2]. cbn [fst snd].
  split; intros Hjson; rewrite Hjson; [|reflexivity].
  destruct (serve (PUT API_URL _ (put_headers token)) s2) as [r2 s3] eqn:Hput.
  cbn [fst snd].
  destruct ((status_code r2 =? 200) || (status_code r2 =? 201)) eqn:Hok.
  - rewrite run_bind. fold load.
    destruct (run_load_reads token s3) as (res2 & s4 & log2 & -> & Hg2 & _).
    destruct res2 as [l2|]; cbn [run]; do 3 eexists.
    + split; [cbn [app]; rewrite app_nil_r; reflexivity|].
      split; [exact Hg2|]. intros out [= <-]. eauto.
    + split; [reflexivity|]. split; [exact Hg2 | discriminate].
  - cbn [run]. do 3 eexists. split; [cbn [app]; reflexivity|].
    split; [constructor|]. intros out [= <-]. eauto.
Qed.

End ButtonFacts.

Lemma all_or_raise_dates (to_datetime : cell -> option PyDate.date) ds :
  Forall (fun d => to_datetime (Date d) = Some d) ds ->
  all_or_raise to_datetime (map Date ds) = Some (map Date ds).
Proof.
  induction 1 as [|d ds Hd _ IH]; [reflexivity|].
  cbn [map all_or_raise]. unfold to_datetime_or_raise. cbn [isna].
  now rewrite Hd, IH.
Qed.

Lemma with_dates_event_rows (to_datetime : cell -> option PyDate.date)
  name activity time ds :
  Forall (fun d => to_datetime (Date d) = Some d) ds ->
  with_dates to_datetime
    (mkDF COLUMNS (map (fun nd => event_cells nd name activity time) ds))
  = Some (mkDF COLUMNS (map (fun nd => event_cells nd name activity time) ds)).
Proof.
  intros H. unfold with_dates, event_cells.
  rewrite (getitem_Date_rows Date (fun nd => Str (day_name nd)) (fun _ => Str name)
             (fun _ => Str activity) (fun _ => Str time)).
  rewrite all_or_raise_dates by assumption.
  rewrite <- (map_id (map Date ds)) at 1.
  rewrite (setitem_Date_rows Date (fun nd => Str (day_name nd)) (fun _ => Str name)
             (fun _ => Str activity) (fun _ => Str time) (fun c => c)).
  reflexivity.
Qed.

Lemma expand_rows_in_bounds in_bounds d name activity time recurrence count df :
  expand_recurring_events in_bounds d name activity time recurrence count = Some df ->
  exists ds, df = mkDF COLUMNS (map (fun nd => event_cells nd name activity time) ds)
             /\ Forall (fun nd => in_bounds nd = true) ds.
Proof.
  intros H. unfold expand_recurring_events in H.
  destruct (expand_loop _ _ _ _ _ _ _ _) as [rows|] eqn:Hloop; [|discriminate].
  injection H as <-. apply expand_loop_some in Hloop. destruct Hloop as (ds & Hds & ->).
  exists ds. split; [reflexivity|].
  clear name activity time.
  induction Hds as [|i nd idx ds [_ Hnd] _ IH]; constructor; assumption.
Qed.

(** X13: without a token, none of the three buttons writes: whatever
    is typed or selected and whatever the store answers, the only
    request a button can send is the GET of the raw URL, without a header;
    no PUT, nothing to the API. *)
Theorem buttons_without_token {S : Type}
  (to_datetime : cell -> option PyDate.date) (in_bounds : PyDate.date -> bool)
  (dateparser_parse : string -> result (option PyDate.date))
  (csv_text : Grid -> string) (csv_fields : string -> option Grid)
  (na_value : string -> bool)
  (b64encode : string -> string) (b64decode : string -> option string)
  (url_text : Response -> option string)
  (serve : Request -> S -> Response * S) (s : S) token
  date_val name activity time_val recurrence repeat_count nl_input selected_label :
  truthy token = false ->
  Forall (fun rq => rq = GET RAW_URL [])
    (snd (run serve (add_event to_datetime in_bounds csv_text csv_fields na_value
                       b64encode b64decode url_text date_val name activity time_val
                       recurrence repeat_count token) s))
  /\ Forall (fun rq => rq = GET RAW_URL [])
       (snd (run serve (parse_and_add to_datetime in_bounds dateparser_parse csv_text
                          csv_fields na_value b64encode b64decode url_text nl_input
                          token) s))
  /\ Forall (fun rq => rq = GET RAW_URL [])
       (snd (run serve (delete_selected_event to_datetime csv_text csv_fields na_value
                          b64encode b64decode url_text selected_label token) s)).
Proof.
  intros Htok. split; [|split].
  - unfold add_event. destruct (expand_recurring_events _ _ _ _ _ _ _); [|constructor].
    rewrite run_merge_no_token by assumption. repeat constructor.
  - unfold parse_and_add. destruct (parse_event _ _ _) as [[ev|]|]; try constructor.
    rewrite run_merge_no_token by assumption. repeat constructor.
  - unfold delete_selected_event. rewrite run_bind.
    pose proof (run_load_no_token to_datetime csv_fields na_value b64decode url_text
                  serve token s Htok) as Hl.
    destruct (run serve (load_schedule_from_github _ _ _ _ _ token) s)
      as [[[latest|] s1] log1]; cbn [snd] in *; subst log1; [|repeat constructor].
    rewrite Htok. cbn [negb].
    destruct (delete_selected latest selected_label); cbn; repeat constructor.
Qed.

Lemma buttons_without_token_witness :
  Forall (fun rq => rq = GET RAW_URL [])
    (snd (run mock_serve
            (add_event to_datetime_iso ns_bounds plain_csv_text mock_fields default_na
               mock_encode mock_decode mock_url_text
               (mkdate 2024 1 3) "Vinoth" "gym" "7am" "Daily" 2 None) ["S1"])).
Proof.
  apply (buttons_without_token to_datetime_iso ns_bounds mock_resolver plain_csv_text
           mock_fields default_na mock_encode mock_decode mock_url_text mock_serve
           ["S1"] None (mkdate 2024 1 3) "Vinoth" "gym" "7am" "Daily" 2 "" "").
  reflexivity.
Defined.

(** X14: with a token, the "Add Event" button uploads the table it has
    just loaded with the new rows after it: its requests are those of
    the load, then the GET for the sha and one PUT, whose content is the
    CSV of the loaded rows followed by the expanded rows, and whose sha
    is the one that GET returned; what follows the PUT (the reload after
    a success) only reads.  The date conversion is asked to accept the
    dates of the new rows, which are dates that the timestamps hold.
    (The GET for the sha answered by a 200 whose body is not JSON makes
    the button raise before any PUT.) *)
Theorem add_event_uploads {S : Type}
  (to_datetime : cell -> option PyDate.date) (in_bounds : PyDate.date -> bool)
  (csv_text : Grid -> string) (csv_fields : string -> option Grid)
  (na_value : string -> bool)
  (b64encode : string -> string) (b64decode : string -> option string)
  (url_text : Response -> option string)
  (serve : Request -> S -> Response * S) (s : S) token
  date_val name activity time_val recurrence repeat_count new_rows latest s1 log1 :
  (forall raw g, csv_fields raw = Some g -> well_formed_grid g) ->
  (forall d, in_bounds d = true -> to_datetime (Date d) = Some d) ->
  truthy token = true ->
  expand_recurring_events in_bounds date_val name activity time_val recurrence
    repeat_count = Some new_rows ->
  run serve (load_schedule_from_github to_datetime csv_fields na_value b64decode
               url_text token) s = (Some latest, s1, log1) ->
  let g := serve (GET API_URL (auth_headers token)) s1 in
  columns latest = COLUMNS
  /\ exists doc,
       csv_content csv_text (mkDF COLUMNS (data latest ++ data new_rows)) = Some doc
       /\ (not_json (fst g) = false ->
           exists res s' rest,
             run serve (add_event to_datetime in_bounds csv_text csv_fields na_value
                          b64encode b64decode url_text date_val name activity time_val
                          recurrence repeat_count token) s
             = (res, s',
                log1 ++ GET API_URL (auth_headers token)
                     :: PUT API_URL
                          (put_payload "Add event(s) via UI" (b64encode doc)
                             (sha_of_response (fst g)))
                          (put_headers token)
                     :: rest)
             /\ Forall is_get rest
             /\ (forall out, res = Some out ->
                             exists ok code text, out = GitHubResponse ok code text))
       /\ (not_json (fst g) = true ->
           run serve (add_event to_datetime in_bounds csv_text csv_fields na_value
                        b64encode b64decode url_text date_val name activity time_val
                        recurrence repeat_count token) s
           = (None, snd g, log1 ++ [GET API_URL (auth_headers token)])).
Proof.
  intros Hwell Hconv Htok Hexp Hload.
  destruct (expand_rows_in_bounds _ _ _ _ _ _ _ _ Hexp) as (ds & -> & Hds).
  unfold add_event. rewrite Hexp.
  apply (run_merge to_datetime csv_text csv_fields na_value b64encode b64decode url_text
           serve Hwell); [assumption | reflexivity | | assumption].
  apply with_dates_event_rows.
  eapply Forall_impl; [|exact Hds]. intros d Hd. now apply Hconv.
Qed.

Lemma to_datetime_iso_bounds d : ns_bounds d = true -> to_datetime_iso (Date d) = Some d.
Proof.
  unfold ns_bounds. intros H. apply andb_prop in H. destruct H as [H _].
  apply andb_prop in H. destruct H as [Hv _]. cbn. now rewrite Hv.
Qed.

Lemma add_event_uploads_witness :
  exists res s' rest,
    run mock_serve
      (add_event to_datetime_iso ns_bounds plain_csv_text mock_fields default_na
         mock_encode mock_decode mock_url_text
         (mkdate 2024 2 29) "Divya" "yoga" "6pm" "None" 1 (Some "secret"))
      ["S1"; "S2"; "S3"]
    = (res, s',
       [GET API_URL (auth_headers (Some "secret"))]
       ++ GET API_URL (auth_headers (Some "secret"))
          :: PUT API_URL
               (put_payload "Add event(s) via UI"
                  (mock_encode
                     (plain_csv_text
                        (mkGrid COLUMNS
                           [["2024-01-03"; "Wednesday"; "Vinoth"; "gym"; "7am"];
                            ["2024-02-29"; "Thursday"; "Divya"; "yoga"; "6pm"]])))
                  (Some "S2"))
               (put_headers (Some "secret"))
          :: rest)
    /\ Forall is_get rest
    /\ (forall out, res = Some out ->
                    exists ok code text, out = GitHubResponse ok code text).
Proof.
  destruct (add_event_uploads to_datetime_iso ns_bounds plain_csv_text mock_fields
              default_na mock_encode mock_decode mock_url_text mock_serve
              ["S1"; "S2"; "S3"] (Some "secret")
              (mkdate 2024 2 29) "Divya" "yoga" "6pm" "None" 1
              _ _ _ _
              mock_fields_well_formed to_datetime_iso_bounds eq_refl eq_refl eq_refl)
    as (_ & doc & Hdoc & Hput & _).
  injection Hdoc as <-. exact (Hput eq_refl).
Defined.

Example add_event_run :
  run mock_serve
    (add_event to_datetime_iso ns_bounds plain_csv_text mock_fields default_na
       mock_encode mock_decode mock_url_text
       (mkdate 2024 2 29) "Divya" "yoga" "6pm" "None" 1 (Some "secret"))
    ["S1"; "S2"; "S3"]
  = (Some (GitHubResponse true (Some 200) "updated"), [],
     [GET API_URL [("Authorization", "token secret")];
      GET API_URL [("Authorization", "token secret")];
      PUT API_URL
        [("message", "Add event(s) via UI");
         ("content",
          plain_csv_text
            (mkGrid COLUMNS
               [["2024-01-03"; "Wednesday"; "Vinoth"; "gym"; "7am"];
                ["2024-02-29"; "Thursday"; "Divya"; "yoga"; "6pm"]]));
         ("sha", "S2")]
        (put_headers (Some "secret"));
      GET API_URL [("Authorization", "token secret")]]).
Proof. reflexivity. Qed.

(** X15: with a token, the "Parse and Add" button uploads the table it
    has just loaded with the parsed event as one more row at the end;
    its requests are those of the load, the GET for the sha and one PUT
    carrying that sha, and then only reads.  (The GET for the sha
    answered by a 200 whose body is not JSON makes the button raise
    before any PUT.) *)
Theorem parse_and_add_uploads {S : Type}
  (to_datetime : cell -> option PyDate.date) (in_bounds : PyDate.date -> bool)
  (dateparser_parse : string -> result (option PyDate.date))
  (csv_text : Grid -> string) (csv_fields : string -> option Grid)
  (na_value : string -> bool)
  (b64encode : string -> string) (b64decode : string -> option string)
  (url_text : Response -> option string)
  (serve : Request -> S -> Response * S) (s : S) token nl_input parsed latest s1 log1 :
  (forall raw g, csv_fields raw = Some g -> well_formed_grid g) ->
  truthy token = true ->
  parse_event dateparser_parse in_bounds nl_input = Returned (Some parsed) ->
  to_datetime (Date (ev_Date parsed)) = Some (ev_Date parsed) ->
  run serve (load_schedule_from_github to_datetime csv_fields na_value b64decode
               url_text token) s = (Some latest, s1, log1) ->
  let g := serve (GET API_URL (auth_headers token)) s1 in
  columns latest = COLUMNS
  /\ exists doc,
       csv_content csv_text
         (mkDF COLUMNS
            (data latest
             ++ [[Date (ev_Date parsed); Str (ev_Weekday parsed); Str (ev_Name parsed);
                  Str (ev_Activity parsed); Str (ev_Time parsed)]])) = Some doc
       /\ (not_json (fst g) = false ->
           exists res s' rest,
             run serve (parse_and_add to_datetime in_bounds dateparser_parse csv_text
                          csv_fields na_value b64encode b64decode url_text nl_input
                          token) s
             = (res, s',
                log1 ++ GET API_URL (auth_headers token)
                     :: PUT API_URL
                          (put_payload "Add event via NLP" (b64encode doc)
                             (sha_of_response (fst g)))
                          (put_headers token)
                     :: rest)
             /\ Forall is_get rest
             /\ (forall out, res = Some out ->
                             exists ok code text, out = GitHubResponse ok code text))
       /\ (not_json (fst g) = true ->
           run serve (parse_and_add to_datetime in_bounds dateparser_parse csv_text
                        csv_fields na_value b64encode b64decode url_text nl_input
                        token) s
           = (None, snd g, log1 ++ [GET API_URL (auth_headers token)])).
Proof.
  intros Hwell Htok Hparse Hconv Hload.
  unfold parse_and_add. rewrite Hparse.
  assert (Hwd : with_dates to_datetime (event_frame parsed) = Some (event_frame parsed)).
  { unfold with_dates, event_frame. cbn. unfold to_datetime_or_raise. cbn [isna].
    now rewrite Hconv. }
  exact (run_merge to_datetime csv_text csv_fields na_value b64encode b64decode url_text
           serve Hwell (event_frame parsed) token "Add event via NLP" s latest s1 log1
           Htok eq_refl Hwd Hload).
Qed.

Lemma parse_and_add_uploads_witness :
  exists res s' rest,
    run mock_serve
      (parse_and_add to_datetime_iso ns_bounds mock_resolver plain_csv_text mock_fields
         default_na mock_encode mock_decode mock_url_text "add gym for Bob at 7"
         (Some "secret")) ["S1"; "S2"; "S3"]
    = (res, s',
       [GET API_URL (auth_headers (Some "secret"))]
       ++ GET API_URL (auth_headers (Some "secret"))
          :: PUT API_URL
               (put_payload "Add event via NLP"
                  (mock_encode
                     (plain_csv_text
                        (mkGrid COLUMNS
                           [["2024-01-03"; "Wednesday"; "Vinoth"; "gym"; "7am"];
                            ["2024-01-01"; "Monday"; "Bob"; "gym"; "7"]])))
                  (Some "S2"))
               (put_headers (Some "secret"))
          :: rest)
    /\ Forall is_get rest
    /\ (forall out, res = Some out ->
                    exists ok code text, out = GitHubResponse ok code text).
Proof.
  destruct (parse_and_add_uploads to_datetime_iso ns_bounds mock_resolver plain_csv_text
              mock_fields default_na mock_encode mock_decode mock_url_text mock_serve
              ["S1"; "S2"; "S3"] (Some "secret") "add gym for Bob at 7"
              (mkEvent (mkdate 2024 1 1) "Monday" "Bob" "gym" "7") _ _ _
              mock_fields_well_formed eq_refl eq_refl eq_refl eq_refl)
    as (_ & doc & Hdoc & Hput & _).
  injection Hdoc as <-. exact (Hput eq_refl).
Defined.

Lemma sentence_keywords text activity dp name tm :
  sentence text activity dp name tm -> occurs "add" text /\ occurs "for" text.
Proof.
  intros (pre & s & -> & a & w1 & s1 & -> & Ha & _ & w2 & s2 & -> & _ & _ & Hon).
  split; [exists pre, a, (w1 ++ activity ++ w2 ++ s2); auto|].
  assert (Hfor : forall s0 l, reads_for s0 name tm -> occurs "for" (l ++ s0)).
  { intros s0 l (f & w3 & s3 & -> & Hf & _). exists l, f, (w3 ++ s3). auto. }
  destruct dp as [p|]; cbn in Hon.
  - destruct Hon as (o & v1 & s3 & -> & _ & _ & v2 & s4 & -> & _ & _ & Hf).
    specialize (Hfor s4 (pre ++ a ++ w1 ++ activity ++ w2 ++ o ++ v1 ++ p ++ v2) Hf).
    now rewrite <- !app_assoc in Hfor.
  - specialize (Hfor s2 (pre ++ a ++ w1 ++ activity ++ w2) Hon).
    now rewrite <- !app_assoc in Hfor.
Qed.

(** X16: a text in which "add" or "for" does not occur, in whatever
    case, is not parsed, and the "Parse and Add" button then sends
    nothing to the store: no load, no write. *)
Theorem parse_event_needs_keywords {S : Type}
  (to_datetime : cell -> option PyDate.date) (in_bounds : PyDate.date -> bool)
  (dateparser_parse : string -> result (option PyDate.date))
  (csv_text : Grid -> string) (csv_fields : string -> option Grid)
  (na_value : string -> bool)
  (b64encode : string -> string) (b64decode : string -> option string)
  (url_text : Response -> option string)
  (serve : Request -> S -> Response * S) (s : S) token nl_input :
  ~ occurs "add" (list_ascii_of_string nl_input)
  \/ ~ occurs "for" (list_ascii_of_string nl_input) ->
  parse_event dateparser_parse in_bounds nl_input = Returned None
  /\ run serve (parse_and_add to_datetime in_bounds dateparser_parse csv_text csv_fields
                  na_value b64encode b64decode url_text nl_input token) s
     = (Some CouldNotParse, s, []).
Proof.
  intros Hno.
  assert (E : parse_event dateparser_parse in_bounds nl_input = Returned None).
  { destruct (parse_event_first dateparser_parse in_bounds nl_input)
      as [[_ Hn]|(activity & dp & name & tm & _ & Hf & _)]; [exact Hn|].
    apply first_sentence_reads, sentence_keywords in Hf. tauto. }
  split; [exact E|]. unfold parse_and_add. now rewrite E.
Qed.

Lemma starts_with_keyword k w l :
  map Regex.lower_ascii w = k -> starts_with k (w ++ l) = true.
Proof.
  revert k. induction w as [|x w IH]; intros k H; cbn in H; subst k; [reflexivity|].
  cbn. rewrite Ascii.eqb_refl. now apply IH.
Qed.

Lemma occurs_found k text :
  occurs k text -> found (list_ascii_of_string k) text = true.
Proof.
  intros (l1 & w & l2 & -> & Hk). induction l1 as [|x l1 IH].
  - cbn [app]. destruct (w ++ l2) eqn:E; cbn [found];
      rewrite <- E, (starts_with_keyword _ w l2 Hk); reflexivity.
  - cbn [app found]. rewrite IH. apply orb_true_r.
Qed.

Lemma parse_event_needs_keywords_witness :
  parse_event mock_resolver ns_bounds "walk the dog" = Returned None
  /\ run mock_serve
       (parse_and_add to_datetime_iso ns_bounds mock_resolver plain_csv_text mock_fields
          default_na mock_encode mock_decode mock_url_text "walk the dog"
          (Some "secret")) ["S1"]
     = (Some CouldNotParse, ["S1"], []).
Proof.
  apply (parse_event_needs_keywords to_datetime_iso ns_bounds mock_resolver plain_csv_text
           mock_fields default_na mock_encode mock_decode mock_url_text mock_serve
           ["S1"] (Some "secret") "walk the dog").
  right. intros H. apply occurs_found in H. vm_compute in H. discriminate.
Defined.

(** *** More on deleting *)

Lemma delete_selected_table latest_df selected_label :
  columns latest_df = COLUMNS ->
  wf latest_df ->
  delete_selected latest_df selected_label
  = if existsb (has_label selected_label) (data latest_df)
    then Some (mkDF COLUMNS
                 (filter (fun r => negb (has_label selected_label r)) (data latest_df)))
    else None.
Proof.
  intros Hcols Hwf. destruct latest_df as [cols rows]. cbn [columns data] in *. subst cols.
  assert (H5 : Forall (fun r => List.length r = 5%nat) rows) by exact Hwf.
  unfold delete_selected, with_label, filter_rows, drop_column, loc_columns, label_is.
  cbn [columns data].
  pose proof (filter_with_label
                (fun c => match c with
                          | Str l => String.eqb l selected_label
                          | _ => false
                          end) rows H5) as Edel.
  pose proof (filter_with_label
                (fun c => negb match c with
                               | Str l => String.eqb l selected_label
                               | _ => false
                               end) rows H5) as Ekeep.
  cbv beta in Edel, Ekeep. rewrite Ekeep. clear Ekeep. unfold has_label.
  assert (Ex : existsb (fun r => String.eqb (label COLUMNS r) selected_label) rows
               = negb (match filter (fun r => String.eqb (label COLUMNS r) selected_label)
                               rows with
                       | [] => true
                       | _ :: _ => false
                       end)).
  { clear. induction rows as [|r rows IH]; [reflexivity|].
    cbn [existsb filter].
    destruct (String.eqb (label COLUMNS r) selected_label); [reflexivity|exact IH]. }
  rewrite Ex, <- Edel. clear Ex Edel.
  destruct (filter _ (map _ rows)); reflexivity.
Qed.

(** X17: on a table with the canonical columns and at least one row,
    the delete uploads nothing exactly when no row has the selected
    label. *)
Theorem delete_selected_none_iff latest_df selected_label :
  columns latest_df = COLUMNS ->
  wf latest_df ->
  data latest_df <> [] ->
  (delete_selected latest_df selected_label = None
   <-> forall r, In r (data latest_df) -> label COLUMNS r <> selected_label).
Proof.
  intros Hcols Hwf _. rewrite (delete_selected_table _ _ Hcols Hwf).
  destruct (existsb (has_label selected_label) (data latest_df)) eqn:Hex.
  - split; [discriminate|]. intros Hno. exfalso.
    apply existsb_exists in Hex. destruct Hex as (r & Hin & Hl).
    apply String.eqb_eq in Hl. exact (Hno r Hin Hl).
  - split; [|reflexivity]. intros _ r Hin Hl.
    assert (existsb (has_label selected_label) (data latest_df) = true); [|congruence].
    apply existsb_exists. exists r. split; [exact Hin|]. now apply String.eqb_eq.
Qed.

Lemma delete_selected_none_iff_witness :
  delete_selected
    (mkDF COLUMNS [[NaT; NaN; Str "Divya"; Str "yoga"; NaN]])
    "2024-01-03 | Wednesday | Vinoth - gym @ 7am" = None
  <-> forall r, In r [[NaT; NaN; Str "Divya"; Str "yoga"; NaN]] ->
                label COLUMNS r <> "2024-01-03 | Wednesday | Vinoth - gym @ 7am".
Proof.
  apply (delete_selected_none_iff
           (mkDF COLUMNS [[NaT; NaN; Str "Divya"; Str "yoga"; NaN]])).
  - reflexivity.
  - repeat constructor.
  - discriminate.
Defined.

(** X18: a delete leaves nothing to delete: when the table it uploads
    still has rows, none of them has the selected label, and deleting the
    same label from that table uploads nothing. *)
Theorem delete_selected_twice latest_df selected_label updated_df :
  columns latest_df = COLUMNS ->
  wf latest_df ->
  delete_selected latest_df selected_label = Some updated_df ->
  data updated_df <> [] ->
  delete_selected updated_df selected_label = None.
Proof.
  intros Hcols Hwf H _. rewrite (delete_selected_table _ _ Hcols Hwf) in H.
  destruct (existsb _ _); [|discriminate]. injection H as <-.
  rewrite delete_selected_table; [|reflexivity|].
  - cbn [data].
    replace (existsb (has_label selected_label)
               (filter (fun r => negb (has_label selected_label r)) (data latest_df)))
      with false; [reflexivity|].
    symmetry. clear. induction (data latest_df) as [|r rows IH]; [reflexivity|].
    cbn [filter]. destruct (has_label selected_label r) eqn:Hr; cbn [negb existsb];
      [exact IH | now rewrite Hr].
  - unfold wf in *. cbn [columns data]. rewrite Hcols in Hwf.
    rewrite Forall_forall in *. intros r Hr. apply filter_In in Hr. now apply Hwf.
Qed.

Lemma delete_selected_twice_witness :
  delete_selected (mkDF COLUMNS [[NaT; NaN; Str "Divya"; Str "yoga"; NaN]])
    "2024-01-03 | Wednesday | Vinoth - gym @ 7am" = None.
Proof.
  apply (delete_selected_twice
           (mkDF COLUMNS
              [[Date (mkdate 2024 1 3); Str "Wednesday"; Str "Vinoth"; Str "gym"; Str "7am"];
               [NaT; NaN; Str "Divya"; Str "yoga"; NaN]])).
  - reflexivity.
  - repeat constructor.
  - reflexivity.
  - discriminate.
Defined.

Lemma label_of_text r r' :
  List.length r = 5%nat ->
  map str_of_cell r = map str_of_cell r' ->
  label COLUMNS r = label COLUMNS r'.
Proof.
  intros Hr E.
  do 5 (destruct r as [|? r]; [discriminate|]). destruct r; [|discriminate].
  do 5 (destruct r' as [|? r']; [discriminate|]). destruct r'; [|discriminate].
  cbn in E. injection E as E1 E2 E3 E4 E5.
  unfold label. cbn [cell_of pick COLUMNS String.eqb Ascii.eqb Bool.eqb].
  now rewrite E1, E2, E3, E4, E5.
Qed.

(** X19: the delete goes by the text of the cells: two rows whose
    cells read alike (a missing Name and the name "nan", say) have the
    same label, and deleting one deletes the other. *)
Theorem delete_selected_reads_alike latest_df selected_label updated_df r r' :
  columns latest_df = COLUMNS ->
  wf latest_df ->
  In r (data latest_df) ->
  map str_of_cell r = map str_of_cell r' ->
  label COLUMNS r = selected_label ->
  delete_selected latest_df selected_label = Some updated_df ->
  ~ In r' (data updated_df).
Proof.
  intros Hcols Hwf Hin E Hl H. rewrite (delete_selected_table _ _ Hcols Hwf) in H.
  destruct (existsb _ _); [|discriminate]. injection H as <-. cbn [data].
  intros Hr'. apply filter_In in Hr'. destruct Hr' as [_ Hr'].
  apply negb_true_iff, String.eqb_neq in Hr'. apply Hr'.
  rewrite <- Hl. symmetry. apply label_of_text; [|exact E].
  unfold wf in Hwf. rewrite Hcols, Forall_forall in Hwf. now apply Hwf.
Qed.

Lemma delete_selected_reads_alike_witness :
  ~ In [NaT; NaN; Str "nan"; Str "yoga"; Str "6pm"]
       (data (mkDF COLUMNS [[NaT; NaN; Str "Divya"; Str "run"; NaN]])).
Proof.
  apply (delete_selected_reads_alike
           (mkDF COLUMNS [[NaT; NaN; NaN; Str "yoga"; Str "6pm"];
                          [NaT; NaN; Str "nan"; Str "yoga"; Str "6pm"];
                          [NaT; NaN; Str "Divya"; Str "run"; NaN]])
           "NaT | nan | nan - yoga @ 6pm"
           (mkDF COLUMNS [[NaT; NaN; Str "Divya"; Str "run"; NaN]])
           [NaT; NaN; NaN; Str "yoga"; Str "6pm"]
           [NaT; NaN; Str "nan"; Str "yoga"; Str "6pm"]).
  - reflexivity.
  - repeat constructor.
  - left. reflexivity.
  - reflexivity.
  - reflexivity.
  - reflexivity.
Defined.

(** X20: with a token, the "Delete Selected Event" button uploads the
    table it has just loaded without the rows of the selected label: its
    requests are those of the load, then the GET for the sha and one PUT
    carrying that sha and the CSV of the remaining rows; nothing is sent
    after the PUT.  (The GET for the sha answered by a 200 whose body
    is not JSON makes the button raise before any PUT.) *)
Theorem delete_selected_event_uploads {S : Type}
  (to_datetime : cell -> option PyDate.date)
  (csv_text : Grid -> string) (csv_fields : string -> option Grid)
  (na_value : string -> bool)
  (b64encode : string -> string) (b64decode : string -> option string)
  (url_text : Response -> option string)
  (serve : Request -> S -> Response * S) (s : S) token selected_label
  latest s1 log1 r :
  (forall raw g, csv_fields raw = Some g -> well_formed_grid g) ->
  truthy token = true ->
  run serve (load_schedule_from_github to_datetime csv_fields na_value b64decode
               url_text token) s = (Some latest, s1, log1) ->
  In r (data latest) ->
  label COLUMNS r = selected_label ->
  let g := serve (GET API_URL (auth_headers token)) s1 in
  exists doc,
    csv_content csv_text
      (mkDF COLUMNS (filter (fun r => negb (has_label selected_label r)) (data latest)))
    = Some doc
    /\ (not_json (fst g) = false ->
        exists out s',
          run serve (delete_selected_event to_datetime csv_text csv_fields na_value
                       b64encode b64decode url_text selected_label token) s
          = (Some out, s',
             log1 ++ [GET API_URL (auth_headers token);
                      PUT API_URL
                        (put_payload "Delete event" (b64encode doc)
                           (sha_of_response (fst g)))
                        (put_headers token)])
          /\ exists ok code text, out = GitHubResponse ok code text)
    /\ (not_json (fst g) = true ->
        run serve (delete_selected_event to_datetime csv_text csv_fields na_value
                     b64encode b64decode url_text selected_label token) s
        = (None, snd g, log1 ++ [GET API_URL (auth_headers token)])).
Proof.
  intros Hwell Htok Hload Hin Hl. cbv zeta.
  destruct (run_load_returned to_datetime csv_fields na_value b64decode url_text serve
              Hwell token s latest s1 log1 Hload) as (Hc & Hw & _).
  eexists. split; [apply csv_content_canonical_columns|].
  unfold delete_selected_event. rewrite run_bind, Hload.
  rewrite (delete_selected_table _ _ Hc Hw).
  replace (existsb (has_label selected_label) (data latest)) with true.
  2:{ symmetry. apply existsb_exists. exists r. split; [exact Hin|].
      now apply String.eqb_eq. }
  rewrite Htok. cbn [negb]. rewrite run_bind.
  rewrite (run_update csv_text b64encode serve s1 _ token "Delete event" _ Htok
             (csv_content_canonical_columns csv_text _)).
  cbv zeta.
  destruct (serve (GET API_URL (auth_headers token)) s1) as [r1 s2]. cbn [fst snd].
  split; intros Hjson; rewrite Hjson; [|reflexivity].
  destruct (serve (PUT API_URL _ (put_headers token)) s2) as [r2 s3]. cbn [fst snd run].
  do 2 eexists. split; [reflexivity|]. eauto.
Qed.

Lemma delete_selected_event_uploads_witness :
  exists out s',
    run mock_serve
      (delete_selected_event to_datetime_iso plain_csv_text mock_fields default_na
         mock_encode mock_decode mock_url_text
         "2024-01-03 | Wednesday | Vinoth - gym @ 7am" (Some "secret"))
      ["S1"; "S2"]
    = (Some out, s',
       [GET API_URL [("Authorization", "token secret")]]
       ++ [GET API_URL (auth_headers (Some "secret"));
           PUT API_URL
             (put_payload "Delete event"
                (mock_encode (plain_csv_text (mkGrid COLUMNS []))) (Some "S2"))
             (put_headers (Some "secret"))])
    /\ exists ok code text, out = GitHubResponse ok code text.
Proof.
  destruct (delete_selected_event_uploads to_datetime_iso plain_csv_text mock_fields
              default_na mock_encode mock_decode mock_url_text mock_serve
              ["S1"; "S2"] (Some "secret")
              "2024-01-03 | Wednesday | Vinoth - gym @ 7am"
              (mkDF COLUMNS [[Date (mkdate 2024 1 3); Str "Wednesday"; Str "Vinoth";
                              Str "gym"; Str "7am"]])
              ["S2"] [GET API_URL [("Authorization", "token secret")]]
              [Date (mkdate 2024 1 3); Str "Wednesday"; Str "Vinoth"; Str "gym"; Str "7am"]
              mock_fields_well_formed eq_refl eq_refl (or_introl eq_refl) eq_refl)
    as (doc & Hdoc & Hput & _).
  injection Hdoc as <-. exact (Hput eq_refl).
Defined.

(** X21: under a weekday filter the table shown keeps, of a normalised
    table, exactly the rows whose Date is a date falling on that weekday,
    in their order; a row without a date is shown under no weekday. *)
Theorem filter_weekday_by_date
  (to_datetime : cell -> option PyDate.date) df out weekday_filter :
  to_datetime NaT = None ->
  (forall c d, to_datetime c = Some d -> to_datetime (Date d) = Some d) ->
  table df ->
  sanitize_remote_df to_datetime (Some df) = Some out ->
  weekday_filter <> "All" ->
  data (filter_weekday weekday_filter out)
  = filter (fun o => match nth 0 o NA with
                     | Date d => String.eqb (day_name d) weekday_filter
                     | _ => false
                     end) (data out).
Proof.
  intros Hnat Hidem [Hwf Hnd] Hout Hall.
  rewrite (sanitize_rows to_datetime df Hwf Hnd) in Hout. injection Hout as <-.
  unfold filter_weekday. apply String.eqb_neq in Hall. rewrite Hall.
  unfold filter_rows. cbn [columns data]. apply filter_ext_in. intros o Ho.
  apply in_map_iff in Ho. destruct Ho as (r & <- & _).
  unfold weekday_is, sanitized_row. cbv zeta.
  change (cell_of "Weekday" COLUMNS [?a; ?b; ?c; ?d; ?e]) with b. cbn [nth].
  destruct (to_datetime (cell_of "Date" (columns df) r)) as [d|] eqn:Hd; cbn [dt_date].
  - now rewrite (Hidem _ _ Hd).
  - now rewrite Hnat.
Qed.

Lemma filter_weekday_by_date_witness :
  data (filter_weekday "Wednesday"
          (mkDF COLUMNS
             [[Date (mkdate 2024 1 3); Str "Wednesday"; Str "Vinoth"; Str "gym"; NaN];
              [NaT; NaN; Str "Divya"; Str "yoga"; Str "6pm"]]))
  = filter (fun o => match nth 0 o NA with
                     | Date d => String.eqb (day_name d) "Wednesday"
                     | _ => false
                     end)
      (data (mkDF COLUMNS
             [[Date (mkdate 2024 1 3); Str "Wednesday"; Str "Vinoth"; Str "gym"; NaN];
              [NaT; NaN; Str "Divya"; Str "yoga"; Str "6pm"]])).
Proof.
  apply (filter_weekday_by_date to_datetime_iso
           (mkDF ["Date"; "Weekday"; "Name"; "Activity"; "Time"]
                 [[Str "2024-01-03"; Str "Friday"; Str "Vinoth"; Str "gym"; NaN];
                  [NaN; Str "Wednesday"; Str "Divya"; Str "yoga"; Str "6pm"]])).
  - reflexivity.
  - exact to_datetime_iso_again.
  - split; [repeat constructor | repeat constructor; cbn; intuition discriminate].
  - reflexivity.
  - discriminate.
Defined.

(** X22: when the raw URL cannot be read, the load does not fail: it
    returns the empty table with the canonical columns.  This is so
    without a token, and with a token once the API has not answered 200. *)
Theorem load_schedule_empty_on_failure {S : Type}
  (to_datetime : cell -> option PyDate.date) (csv_fields : string -> option Grid)
  (na_value : string -> bool) (b64decode : string -> option string)
  (url_text : Response -> option string)
  (serve : Request -> S -> Response * S) (s : S) token :
  let api := serve (GET API_URL (auth_headers token)) s in
  let s0 := if truthy token then snd api else s in
  (truthy token = true -> status_code (fst api) <> 200) ->
  read_csv_url csv_fields na_value url_text (fst (serve (GET RAW_URL []) s0)) = None ->
  fst (fst (run serve (load_schedule_from_github to_datetime csv_fields na_value
                         b64decode url_text token) s))
  = Some (mkDF COLUMNS []).
Proof.
  cbv zeta. intros Hapi Hraw. unfold load_schedule_from_github.
  destruct (truthy token) eqn:Htok.
  - rewrite run_bind, run_fetch. cbv zeta.
    destruct (serve (GET API_URL (auth_headers token)) s) as [r1 s1]. cbn [fst snd] in *.
    destruct (Z.eqb_spec (status_code r1) 200) as [E|_]; [now destruct (Hapi eq_refl)|].
    cbn [negb fst]. unfold load_raw. cbn [run].
    destruct (serve (GET RAW_URL []) s1) as [r2 s2]. cbn [fst] in Hraw.
    rewrite Hraw. reflexivity.
  - unfold load_raw. cbn [run].
    destruct (serve (GET RAW_URL []) s) as [r2 s2]. cbn [fst] in Hraw.
    rewrite Hraw. reflexivity.
Qed.

Lemma load_schedule_empty_on_failure_witness :
  fst (fst (run mock_serve
              (load_schedule_from_github to_datetime_iso mock_fields default_na
                 mock_decode mock_url_text (Some "secret")) []))
  = Some (mkDF COLUMNS []).
Proof.
  apply (load_schedule_empty_on_failure to_datetime_iso mock_fields default_na
           mock_decode mock_url_text mock_serve [] (Some "secret")).
  - intros _. discriminate.
  - reflexivity.
Defined.
